(** * Smart Medical Lab-Report Analyser: pipeline orchestrator and chat engine

    A shallow embedding of the Node.js backend:
    - [Backend/controllers/extractionController.js]  (upload pipeline, risk level)
    - [Backend/services/agentService.js]             (Python agent orchestration)
    - [Backend/controllers/chatbotController.js] and
      [apps/backend/controllers/chatbotController.js] (chat sessions, two revisions)
    - [Backend/middleware/chatbot.js]                (validation, rate limit)
    - [Backend/controllers/vaultController.js]       (grouping of vault files)
    - the Mongoose schemas of reports, vaults and chat sessions.

    JavaScript strings are sequences of UTF-16 code units, numbers are IEEE
    binary64 values, promises are results (fulfilled or rejected), MongoDB
    collections are lists of documents in insertion order. *)

From Stdlib Require Import Strings.String Strings.Ascii DecimalString.
From Stdlib Require Import ZArith NArith QArith Qround Qpower List Bool Lia Lqa.
From Stdlib Require PrimFloat FloatOps SpecFloat Uint63.
Import ListNotations.

Set Implicit Arguments.
Close Scope Q_scope.

(* ================================================================== *)
(** ** JavaScript strings *)
(* ================================================================== *)

Module Js.

(** A string is its list of UTF-16 code units. *)
Definition jsstring := list N.

(** ASCII literals. *)
Definition str (s : string) : jsstring :=
  List.map N_of_ascii (list_ascii_of_string s).

Definition eqb (a b : jsstring) : bool :=
  if list_eq_dec N.eq_dec a b then true else false.

(** Truthiness of a string: every string but the empty one. *)
Definition truthy (s : jsstring) : bool :=
  match s with [] => false | _ :: _ => true end.

(** [a || b] on strings. *)
Definition orElse (a b : jsstring) : jsstring :=
  if truthy a then a else b.

(** WhiteSpace and LineTerminator code points of ECMAScript, the ones
    [String.prototype.trim] strips. *)
Definition isWhiteSpace (c : N) : bool :=
  ((9 <=? c) && (c <=? 13) || (c =? 32) || (c =? 160) || (c =? 5760)
   || (8192 <=? c) && (c <=? 8202)
   || (c =? 8232) || (c =? 8233) || (c =? 8239) || (c =? 8287)
   || (c =? 12288) || (c =? 65279))%N.

Fixpoint trimStart (s : jsstring) : jsstring :=
  match s with
  | [] => []
  | c :: r => if isWhiteSpace c then trimStart r else s
  end.

Definition trimEnd (s : jsstring) : jsstring := rev (trimStart (rev s)).

Definition trim (s : jsstring) : jsstring := trimEnd (trimStart s).

(** [s.startsWith(p)] *)
Fixpoint prefixb (p s : jsstring) : bool :=
  match p, s with
  | [], _ => true
  | a :: p', b :: s' => (a =? b)%N && prefixb p' s'
  | _ :: _, [] => false
  end.

(** [s.includes(m)] *)
Fixpoint includes (s m : jsstring) : bool :=
  prefixb m s || match s with [] => false | _ :: s' => includes s' m end.

(** [s.split(sep)] for a non-empty separator string: [skip] counts the code
    units of a separator that was just matched and is being stepped over,
    [cur] is the piece under construction, reversed. *)
Fixpoint split_go (sep : jsstring) (skip : nat) (cur s : jsstring)
  : list jsstring :=
  match s with
  | [] => [rev cur]
  | c :: s' =>
      match skip with
      | S k => split_go sep k cur s'
      | O =>
          if prefixb sep s
          then rev cur :: split_go sep (length sep - 1) [] s'
          else split_go sep 0 (c :: cur) s'
      end
  end.

Definition split (sep s : jsstring) : list jsstring := split_go sep 0 [] s.

(** [s.split(/re/)] where the regular expression is an alternation of
    single characters, given as a predicate on code units. *)
Fixpoint splitOn_go (isSep : N -> bool) (cur s : jsstring) : list jsstring :=
  match s with
  | [] => [rev cur]
  | c :: s' =>
      if isSep c then rev cur :: splitOn_go isSep [] s'
      else splitOn_go isSep (c :: cur) s'
  end.

Definition splitOn (isSep : N -> bool) (s : jsstring) : list jsstring :=
  splitOn_go isSep [] s.

(** [parts.join(sep)] *)
Fixpoint join (sep : jsstring) (parts : list jsstring) : jsstring :=
  match parts with
  | [] => []
  | [p] => p
  | p :: rest => p ++ sep ++ join sep rest
  end.

(** Template-literal interpolation of an integer. *)
Definition ofZ (z : Z) : jsstring := str (NilZero.string_of_int (Z.to_int z)).

(** Values found in parsed JSON fields, as far as the controllers look at
    them. *)
Inductive value : Type :=
| VUndefined
| VNull
| VBool (b : bool)
| VNum (q : Q)
| VStr (s : jsstring)
| VObj.

(** ToBoolean *)
Definition truthyV (v : value) : bool :=
  match v with
  | VUndefined | VNull => false
  | VBool b => b
  | VNum q => negb (Qeq_bool q 0)
  | VStr s => truthy s
  | VObj => true
  end.

(** [v === 'literal'] *)
Definition strictEqStr (v : value) (lit : jsstring) : bool :=
  match v with
  | VStr s => eqb s lit
  | _ => false
  end.

End Js.


(* ================================================================== *)
(** ** JavaScript numbers *)
(* ================================================================== *)

(** A JavaScript number is an IEEE 754 binary64 value.  The finite ones are
    rationals; an arithmetic operation computes the exact rational result
    and rounds it to the nearest value with a 53-bit significand, ties to
    even.  The numbers met in this program are counts below [2^32], their
    quotients and a multiple by [100]: far away from overflow and from the
    subnormal range, so the exponent is left unbounded. *)
Module Binary64.

Local Open Scope Q_scope.

(** [floor (log2 x)] for [x > 0]. *)
Definition floor_log2 (x : Q) : Z :=
  let d := (Z.log2 (Qnum x) - Z.log2 (Zpos (Qden x)))%Z in
  if Qle_bool (Qpower 2 d) x then d else (d - 1)%Z.

(** Nearest integer, ties to even. *)
Definition rne (y : Q) : Z :=
  let f := Qfloor y in
  match Qcompare (y - inject_Z f) (1 # 2) with
  | Lt => f
  | Gt => (f + 1)%Z
  | Eq => if Z.even f then f else (f + 1)%Z
  end.

(** Rounding of a positive rational to 53 significant bits. *)
Definition round_pos (x : Q) : Q :=
  let e := (floor_log2 x - 52)%Z in
  inject_Z (rne (x / Qpower 2 e)) * Qpower 2 e.

(** Rounding to nearest, ties to even. *)
Definition fl (x : Q) : Q :=
  match Qnum x with
  | Z0 => 0
  | Zpos _ => round_pos x
  | Zneg _ => - round_pos (- x)
  end.

(** [a / b] and [a * b] on numbers ([b] non-zero). *)
Definition div (a b : Q) : Q := fl (a / b).
Definition mul (a b : Q) : Q := fl (a * b).

(** [a > b] *)
Definition gtb (a b : Q) : bool := negb (Qle_bool a b).

(** An array length or a counter, as a number (exact below [2^53]). *)
Definition of_nat (n : nat) : Q := inject_Z (Z.of_nat n).

(** The same computation on the primitive binary64 floats of the kernel, to
    compare the model with. *)
Definition SF2Q (f : SpecFloat.spec_float) : option Q :=
  match f with
  | SpecFloat.S754_zero _ => Some 0
  | SpecFloat.S754_finite s m e =>
      Some ((if s then - (1) else 1) * inject_Z (Zpos m) * Qpower 2 e)
  | _ => None
  end.

Definition prim_of_nat (n : nat) : PrimFloat.float :=
  PrimFloat.of_uint63 (Uint63.of_Z (Z.of_nat n)).

Definition prim_percentage (k n : nat) : option Q :=
  SF2Q (FloatOps.Prim2SF
          (PrimFloat.mul (PrimFloat.div (prim_of_nat k) (prim_of_nat n))
                         (prim_of_nat 100))).

End Binary64.


(* ================================================================== *)
(** ** Documents: extracted data, reports, vaults, chat sessions *)
(* ================================================================== *)

Module Model.

Import Js.

(** One entry of the extracted test list.  The controllers read [flag] and
    [status] only. *)
Record Test : Type := mkTest {
  flag : value;
  status : value
}.

(** The parsed medical JSON: its [reportType] property and its array-valued
    properties by key (a property that is absent or not an array has no
    entry). *)
Record ExtractedData : Type := mkExtractedData {
  reportType : value;
  arrays : list (jsstring * list Test)
}.

(** [extractedData[key]] when it is an array. *)
Fixpoint lookupArray (key : jsstring) (props : list (jsstring * list Test))
  : option (list Test) :=
  match props with
  | [] => None
  | (k, v) :: rest => if eqb k key then Some v else lookupArray key rest
  end.

Definition getArray (key : string) (d : ExtractedData) : option (list Test) :=
  lookupArray (str key) (arrays d).

(** ObjectIds. *)
Definition Id := N.
Bind Scope N_scope with Id.

Inductive RiskLevel : Type := High | Medium | Normal | Unknown.

(** ReportModels.js *)
Record Report : Type := mkReport {
  reportId : Id;
  reportUser : Id;
  patientName : option jsstring;
  reportKind : jsstring;
  extractedData : ExtractedData;
  summary : jsstring;
  recommendations : jsstring;
  riskLevel : RiskLevel
}.

(** VaultModels.js *)
Record VaultFile : Type := mkVaultFile {
  fileId : Id;
  fileName : jsstring;
  uploadDate : Z;
  fileType : jsstring;
  fileSize : Z;
  fileURL : jsstring;
  fileStatus : jsstring;
  fileReport : option Id;
  filePatientName : option jsstring
}.

Record Vault : Type := mkVault {
  vaultUser : Id;
  files : list VaultFile
}.

(** ChatBotModels.js *)
Inductive Role : Type := user | assistant.

Record ChatMessage : Type := mkChatMessage {
  role : Role;
  message : jsstring;
  timestamp : Z
}.

Record ChatSession : Type := mkChatSession {
  chatId : Id;
  chatUser : Id;
  relatedReportID : Id;
  chatHistory : list ChatMessage
}.

(** The database: three collections in insertion order and the next fresh
    ObjectId. *)
Record Db : Type := mkDb {
  reports : list Report;
  vaults : list Vault;
  chats : list ChatSession;
  nextId : Id
}.

(** HTTP responses of the controllers. *)
Inductive Body : Type :=
| Failure (text : jsstring) (error : option jsstring)
| UploadOk (report : Report) (testCount : Z) (isNewPatient : bool)
           (totalReports : Z)
| ChatReady (session : ChatSession) (reportSummary : jsstring)
| ChatReply (reply : jsstring) (history : list ChatMessage)
| Done (text : jsstring).

Record Response : Type := mkResponse {
  statusCode : nat;
  body : Body
}.

Definition failure (code : nat) (text : string) : Response :=
  mkResponse code (Failure (str text) None).

Definition failureWith (code : nat) (text : string) (error : jsstring)
  : Response :=
  mkResponse code (Failure (str text) (Some error)).

End Model.


(* ================================================================== *)
(** ** Promises and traced tasks *)
(* ================================================================== *)

Module Task.

Import Js.

(** A settled promise. *)
Inductive Result (A : Type) : Type :=
| Fulfilled (a : A)
| Rejected (reason : jsstring).

Arguments Fulfilled {A} a.
Arguments Rejected {A} reason.

Definition isFulfilled {A} (r : Result A) : bool :=
  match r with Fulfilled _ => true | Rejected _ => false end.

(** What the orchestrator does, in the order it does it. *)
Inductive Event : Type :=
| ExtractionStarted
| ExtractionSettled (ok : bool)
| SummaryStarted
| SummarySettled (ok : bool)
| RecommendationStarted
| RecommendationSettled (ok : bool)
| VaultAgentStarted
| VaultAgentSettled (ok : bool)
| ReportCreated (id : Model.Id)
| VaultUpdated
| Responded (code : nat).

(** An async function: the events of its run and what it settles with. *)
Definition Task (A : Type) : Type := (list Event * Result A)%type.

Definition ret {A} (a : A) : Task A := ([], Fulfilled a).

Definition throw {A} (reason : jsstring) : Task A := ([], Rejected reason).

Definition bind {A B} (t : Task A) (k : A -> Task B) : Task B :=
  match t with
  | (tr, Fulfilled a) => let '(tr', r) := k a in (tr ++ tr', r)
  | (tr, Rejected e) => (tr, Rejected e)
  end.

Definition emit (e : Event) : Task unit := ([e], Fulfilled tt).

(** [await] of a call whose start and settlement are recorded. *)
Definition await {A} (started : Event) (settled : bool -> Event)
  (r : Result A) : Task A :=
  ([started; settled (isFulfilled r)], r).

(** [try { ... } catch (error) { throw new Error(prefix + error.message) }] *)
Definition rethrow {A} (prefix : string) (r : Result A) : Result A :=
  match r with
  | Fulfilled a => Fulfilled a
  | Rejected e => Rejected (str prefix ++ e)
  end.

Module Notations.
Notation "x <- t ;; k" := (bind t (fun x => k))
  (at level 61, t at next level, right associativity).
Notation "t ;;; k" := (bind t (fun _ => k))
  (at level 61, right associativity).
End Notations.

End Task.


(* ================================================================== *)
(** ** agentService.js: the Python agents and the pipeline *)
(* ================================================================== *)

Module AgentService.

Import Js Model Task Task.Notations.

(** How a spawned Python process ends: the ['close'] event with its exit
    code and what it wrote, or the ['error'] event. *)
Inductive PyOutcome : Type :=
| Closed (code : Z) (stdout stderr : jsstring)
| StartError (reason : jsstring).

Record ExtractionResult : Type := mkExtractionResult {
  data : ExtractedData;
  jsonPath : jsstring;
  patientInfoName : option jsstring;
  testCount : Z
}.

Record VaultResult : Type := mkVaultResult {
  patient_name : option jsstring;
  vault_dir : jsstring;
  is_new_patient : bool;
  total_reports : Z
}.

Record Narrative : Type := mkNarrative {
  text : jsstring;
  filePath : jsstring
}.

(** Everything outside the Node process that a run depends on.
    [extractionAgent] and [vaultAgent] give what the body of [extractData]
    and of [processWithVaultAgent] settles with (agent run, JSON parsing and
    file read included); the two insight agents are given by the way their
    process ends and by the files found afterwards; [summarySettlesFirst]
    is the order in which the two concurrent insight calls settle. *)
Record World : Type := mkWorld {
  extractionAgent : jsstring -> Result ExtractionResult;
  summaryAgent : jsstring -> PyOutcome;
  recommendationAgent : jsstring -> PyOutcome;
  vaultAgent : jsstring -> Result VaultResult;
  readFile : jsstring -> option jsstring;
  summarySettlesFirst : bool;
  clock : Z
}.

Definition _runPythonScript (o : PyOutcome) : Result jsstring :=
  match o with
  | Closed code stdout stderr =>
      if (code =? 0)%Z then Fulfilled stdout
      else Rejected (str "Python script failed: " ++ orElse stderr stdout)
  | StartError reason => Rejected (str "Failed to start Python: " ++ reason)
  end.

(** [output.split(marker)[1].trim()] *)
Definition afterMarker (marker : string) (output : jsstring) : jsstring :=
  trim (nth 1 (split (str marker) output) []).

(** [s.split('\n')[0]] *)
Definition firstLine (s : jsstring) : jsstring :=
  hd [] (split [10%N] s).

Definition processWithVaultAgent (w : World) (pdfPath : jsstring)
  : Result VaultResult :=
  rethrow "Patient identification failed: " (vaultAgent w pdfPath).

Definition extractData (w : World) (pdfPath : jsstring)
  : Result ExtractionResult :=
  rethrow "Data extraction failed: " (extractionAgent w pdfPath).

(** The body shared by [generateSummary] and [generateRecommendations]:
    run the agent, look for the markers, read the file it names.
    [rejectEmptyPath] is the extra [!outputFilePath] test of the second. *)
Definition readAgentOutput (w : World) (o : PyOutcome)
  (noPathMessage notFoundPrefix : string) (rejectEmptyPath : bool)
  : Result Narrative :=
  match _runPythonScript o with
  | Rejected e => Rejected e
  | Fulfilled output =>
      if includes output (str "ERROR:")
      then Rejected (afterMarker "ERROR:" output)
      else if negb (includes output (str "OUTPUT_FILE:"))
      then Rejected (str noPathMessage)
      else
        let outputFilePath := firstLine (afterMarker "OUTPUT_FILE:" output) in
        if rejectEmptyPath && negb (truthy outputFilePath)
        then Rejected (str notFoundPrefix ++ outputFilePath)
        else
          match readFile w outputFilePath with
          | None => Rejected (str notFoundPrefix ++ outputFilePath)
          | Some content => Fulfilled (mkNarrative content outputFilePath)
          end
  end.

Definition generateSummary (w : World) (jsonFilePath : jsstring)
  : Result Narrative :=
  rethrow "Summary generation failed: "
    (readAgentOutput w (summaryAgent w jsonFilePath)
       "No output file path returned from Summary agent"
       "Summary file not found at: " false).

Definition generateRecommendations (w : World) (jsonFilePath : jsstring)
  : Result Narrative :=
  rethrow "Recommendation generation failed: "
    (readAgentOutput w (recommendationAgent w jsonFilePath)
       "No output file path returned from Recommendation agent"
       "Recommendation file not found: " true).

(** [await Promise.all([summary, recommendations])]: the await resumes when
    both calls are fulfilled, or as soon as one is rejected; the settlement
    of the other call is then not waited for. *)
Definition promiseAll (summaryFirst : bool)
  (s r : Result Narrative) : Task (Narrative * Narrative) :=
  let es := SummarySettled (isFulfilled s) in
  let er := RecommendationSettled (isFulfilled r) in
  if summaryFirst then
    match s, r with
    | Rejected e, _ => ([es], Rejected e)
    | Fulfilled _, Rejected e => ([es; er], Rejected e)
    | Fulfilled a, Fulfilled b => ([es; er], Fulfilled (a, b))
    end
  else
    match r, s with
    | Rejected e, _ => ([er], Rejected e)
    | Fulfilled _, Rejected e => ([er; es], Rejected e)
    | Fulfilled b, Fulfilled a => ([er; es], Fulfilled (a, b))
    end.

Record PipelineResult : Type := mkPipelineResult {
  resultPatientName : option jsstring;
  vaultPath : jsstring;
  resultData : ExtractedData;
  resultJsonPath : jsstring;
  resultTestCount : Z;
  resultSummary : jsstring;
  resultRecommendations : jsstring;
  isNewPatient : bool;
  totalReports : Z
}.

(** [a || b] on optional strings. *)
Definition orName (a b : option jsstring) : option jsstring :=
  match a with
  | Some s => if truthy s then a else b
  | None => b
  end.

Definition processComplete (w : World) (pdfPath : jsstring)
  : Task PipelineResult :=
  (* Step 1: extract medical data from the PDF *)
  extractionResult <-
    await ExtractionStarted ExtractionSettled (extractData w pdfPath) ;;
  (* Step 2: both insight agents, in parallel, on the JSON file path *)
  emit SummaryStarted ;;;
  emit RecommendationStarted ;;;
  insights <-
    promiseAll (summarySettlesFirst w)
      (generateSummary w (jsonPath extractionResult))
      (generateRecommendations w (jsonPath extractionResult)) ;;
  (* Step 3: segregate the PDF into the patient vault *)
  vaultResult <-
    await VaultAgentStarted VaultAgentSettled
      (processWithVaultAgent w pdfPath) ;;
  ret (mkPipelineResult
         (orName (patient_name vaultResult)
                 (patientInfoName extractionResult))
         (vault_dir vaultResult)
         (data extractionResult)
         (jsonPath extractionResult)
         (testCount extractionResult)
         (text (fst insights))
         (text (snd insights))
         (is_new_patient vaultResult)
         (if (total_reports vaultResult =? 0)%Z then 1%Z
          else total_reports vaultResult)).

End AgentService.


(* ================================================================== *)
(** ** extractionController.js: upload and risk level *)
(* ================================================================== *)

Module ExtractionController.

Import Js Model Task AgentService.

(** [test.flag || test.status === 'High' || test.status === 'Low'] *)
Definition isOutOfRange (t : Test) : bool :=
  truthyV (flag t)
  || strictEqStr (status t) (str "High")
  || strictEqStr (status t) (str "Low").

(** The [forEach] loop that counts the out-of-range entries. *)
Definition countOutOfRange (tests : list Test) : nat :=
  fold_left (fun n t => if isOutOfRange t then S n else n) tests 0%nat.

Definition determineRiskLevel (extractedData : ExtractedData) : RiskLevel :=
  let '(outOfRangeCount, totalTests) :=
    match getArray "tests" extractedData with
    | Some tests => (countOutOfRange tests, List.length tests)
    | None => (0%nat, 0%nat)
    end in
  if Nat.eqb totalTests 0 then Unknown
  else
    let percentage :=
      Binary64.mul
        (Binary64.div (Binary64.of_nat outOfRangeCount)
                      (Binary64.of_nat totalTests))
        100 in
    if Binary64.gtb percentage 30 then High
    else if Binary64.gtb percentage 15 then Medium
    else Normal.

(** The [enum] of [reportType] in the report schema. *)
Definition reportTypeEnum : list jsstring :=
  [str "Blood Test"; str "Sugar"; str "Lipid Profile";
   str "Complete Blood Count"; str "Other"].

Definition inEnum (s : jsstring) (enum : list jsstring) : bool :=
  existsb (eqb s) enum.

(** [Report.create]: setters ([trim]) run first, then the validators.  A
    [reportType] that is not a string is cast to one that is never in the
    enum, or cannot be cast at all. *)
Definition Report_create (db : Db) (userID : Id)
  (name : option jsstring) (kind : value) (d : ExtractedData)
  (summaryText recommendationsText : jsstring) (risk : RiskLevel)
  : Result (Db * Report) :=
  match kind with
  | VStr k =>
      if inEnum (trim k) reportTypeEnum then
        let report :=
          mkReport (nextId db) userID (option_map trim name) (trim k) d
                   (trim summaryText) (trim recommendationsText) risk in
        Fulfilled
          (mkDb (reports db ++ [report]) (vaults db) (chats db)
                (N.succ (nextId db)),
           report)
      else Rejected (str "Report validation failed: reportType")
  | _ => Rejected (str "Report validation failed: reportType")
  end.

Record UploadedFile : Type := mkUploadedFile {
  path : jsstring;
  originalname : jsstring;
  size : Z
}.

Record UploadRequest : Type := mkUploadRequest {
  uploadUser : Id;
  file : option UploadedFile
}.

Fixpoint findVault (userID : Id) (vs : list Vault) : option Vault :=
  match vs with
  | [] => None
  | v :: rest => if (vaultUser v =? userID)%N then Some v else findVault userID rest
  end.

(** [vault.save()] of the first vault of the user. *)
Fixpoint saveVault (v' : Vault) (vs : list Vault) : list Vault :=
  match vs with
  | [] => []
  | v :: rest =>
      if (vaultUser v =? vaultUser v')%N then v' :: rest
      else v :: saveVault v' rest
  end.

(** [updateUserVault]: the file schema requires a file name and a file URL,
    both trimmed before they are validated. *)
Definition updateUserVault (db : Db) (userID : Id) (now : Z)
  (f : UploadedFile) (report : Id) (name : option jsstring) : Result Db :=
  if truthy (trim (originalname f)) && truthy (trim (path f)) then
    let entry :=
      mkVaultFile (nextId db) (trim (originalname f)) now
                  (str "application/pdf") (size f) (trim (path f))
                  (str "processed") (Some report) (option_map trim name) in
    let vaults' :=
      match findVault userID (vaults db) with
      | None => vaults db ++ [mkVault userID [entry]]
      | Some v => saveVault (mkVault userID (files v ++ [entry])) (vaults db)
      end in
    Fulfilled (mkDb (reports db) vaults' (chats db) (N.succ (nextId db)))
  else Rejected (str "Vault validation failed").

(** [result.extractedData.reportType || 'Blood Test'] *)
Definition reportTypeOr (v : value) : value :=
  if truthyV v then v else VStr (str "Blood Test").

Definition uploadReport (w : World) (db : Db) (req : UploadRequest)
  : Db * Response * list Event :=
  match file req with
  | None => (db, failure 400 "No PDF file uploaded", [Responded 400])
  | Some f =>
      let userId := uploadUser req in
      match processComplete w (path f) with
      | (tr, Rejected e) =>
          (db, failureWith 500 "Failed to process report" e,
           tr ++ [Responded 500])
      | (tr, Fulfilled result) =>
          let riskLevel := determineRiskLevel (resultData result) in
          match Report_create db userId (resultPatientName result)
                  (reportTypeOr (reportType (resultData result)))
                  (resultData result) (resultSummary result)
                  (resultRecommendations result) riskLevel with
          | Rejected e =>
              (db, failureWith 500 "Failed to process report" e,
               tr ++ [Responded 500])
          | Fulfilled (db1, report) =>
              match updateUserVault db1 userId (clock w) f (reportId report)
                      (resultPatientName result) with
              | Rejected e =>
                  (db1, failureWith 500 "Failed to process report" e,
                   tr ++ [ReportCreated (reportId report); Responded 500])
              | Fulfilled db2 =>
                  (db2,
                   mkResponse 201
                     (UploadOk report (resultTestCount result)
                               (isNewPatient result) (totalReports result)),
                   tr ++ [ReportCreated (reportId report); VaultUpdated;
                          Responded 201])
              end
          end
      end
  end.

(** [arr] without its first element that satisfies [p]. *)
Fixpoint removeFirst {A} (p : A -> bool) (l : list A) : list A :=
  match l with
  | [] => []
  | x :: rest => if p x then rest else x :: removeFirst p rest
  end.

(** [Report.findOneAndDelete({ _id: reportId, userID: userId })] *)
Definition deleteReport (db : Db) (userId id : Id) : Db * Response :=
  let mine r := ((reportId r =? id) && (reportUser r =? userId))%N in
  match find mine (reports db) with
  | None => (db, failure 404 "Report not found")
  | Some _ =>
      (mkDb (removeFirst mine (reports db)) (vaults db) (chats db) (nextId db),
       mkResponse 200 (Done (str "Report deleted successfully")))
  end.

End ExtractionController.


(* ================================================================== *)
(** ** vaultController.js: grouping vault files by patient *)
(* ================================================================== *)

Module VaultController.

Import Js Model.

(** The value of the [Map] built by [groupFilesByPatient]. *)
Record Group : Type := mkGroup {
  groupName : jsstring;
  groupFiles : list VaultFile
}.

(** One element of the array it returns.  The path fields ([vaultPath],
    [folderName]) go through [path.relative] and [process.cwd()] and are
    left out. *)
Record PatientVault : Type := mkPatientVault {
  pvPatientName : jsstring;
  lastUpdated : option Z;
  totalFiles : nat;
  totalSize : Z;
  pvFiles : list VaultFile
}.

(** A [Map] with string keys keeps its entries in insertion order. *)
Definition StringMap (V : Type) : Type := list (jsstring * V).

Fixpoint mapGet {V} (key : jsstring) (m : StringMap V) : option V :=
  match m with
  | [] => None
  | (k, v) :: rest => if eqb k key then Some v else mapGet key rest
  end.

Fixpoint mapSet {V} (key : jsstring) (v : V) (m : StringMap V) : StringMap V :=
  match m with
  | [] => [(key, v)]
  | (k, v0) :: rest =>
      if eqb k key then (k, v) :: rest else (k, v0) :: mapSet key v rest
  end.

Definition mapValues {V} (m : StringMap V) : list V := List.map snd m.

(** [toLowerCase] on Basic Latin; a concrete instance for the case mapping
    the grouping is parametric in. *)
Definition toLowerCaseBasicLatin (s : jsstring) : jsstring :=
  List.map (fun c => if ((65 <=? c) && (c <=? 90))%N then (c + 32)%N else c) s.

(** Stable sort, most recent upload first:
    [.sort((a, b) => new Date(b.uploadDate) - new Date(a.uploadDate))]. *)
Fixpoint insertByDate (f : VaultFile) (sorted : list VaultFile)
  : list VaultFile :=
  match sorted with
  | [] => [f]
  | g :: rest =>
      if (uploadDate f <? uploadDate g)%Z then g :: insertByDate f rest
      else f :: sorted
  end.

Definition sortByDateDesc (l : list VaultFile) : list VaultFile :=
  fold_right insertByDate [] l.

Section Grouping.

(** [String.prototype.toLowerCase], the Unicode case mapping of the engine. *)
Variable toLowerCase : jsstring -> jsstring.

(** [file.patientName || 'Unlabeled Patient'] *)
Definition displayName (f : VaultFile) : jsstring :=
  match filePatientName f with
  | Some n => orElse n (str "Unlabeled Patient")
  | None => str "Unlabeled Patient"
  end.

(** [patientName.toLowerCase().trim() || 'unlabeled'] *)
Definition bucketKey (f : VaultFile) : jsstring :=
  orElse (trim (toLowerCase (displayName f))) (str "unlabeled").

(** The body of [files.forEach]. *)
Definition addFile (m : StringMap Group) (f : VaultFile) : StringMap Group :=
  let patientName := displayName f in
  let key := bucketKey f in
  let group :=
    match mapGet key m with
    | Some g => g
    | None => mkGroup patientName []
    end in
  mapSet key (mkGroup (groupName group) (groupFiles group ++ [f])) m.

Definition summarize (g : Group) : PatientVault :=
  let sortedFiles := sortByDateDesc (groupFiles g) in
  mkPatientVault
    (groupName g)
    (option_map uploadDate (hd_error sortedFiles))
    (List.length sortedFiles)
    (fold_left (fun sum entry => (sum + fileSize entry)%Z) sortedFiles 0%Z)
    sortedFiles.

Definition groupFilesByPatient (files : list VaultFile) : list PatientVault :=
  List.map summarize (mapValues (fold_left addFile files [])).

End Grouping.

End VaultController.


(* ================================================================== *)
(** ** chatbotController.js and the chat middleware *)
(* ================================================================== *)

Module Chatbot.

Import Js Model Task.

(** The two revisions of the controller in the repository:
    [Backend/controllers/chatbotController.js] and
    [apps/backend/controllers/chatbotController.js]. *)
Inductive Revision : Type := Legacy | Current.

(** How the chatbot process ends (its ['close'] event). *)
Record ProcessExit : Type := mkProcessExit {
  exitCode : Z;
  stdout : jsstring;
  stderr : jsstring
}.

(** What a chat request finds outside the controller: whether the lookup of
    the rate limiter throws, the clock readings, and the chatbot process as
    a function of what is piped to it. *)
Record World : Type := mkWorld {
  rateLookupThrows : bool;
  rateNow : Z;
  userStamp : Z;
  botProcess : ExtractedData -> list ChatMessage -> jsstring -> ProcessExit;
  botStamp : Z
}.

Record Request : Type := mkRequest {
  reqUser : Id;
  reqChatId : option Id;
  reqReportId : option Id;
  reqMessage : value
}.

(** A middleware either answers or calls [next()]. *)
Inductive Middleware : Type :=
| Respond (r : Response)
| Next.

Inductive ChatEvent : Type :=
| BotCalled
| SessionSaved.

(** *** middleware/chatbot.js *)

Definition validateMessage (req : Request) : Middleware :=
  match reqMessage req with
  | VStr message =>
      if negb (truthy message)
      then Respond (failure 400 "Message is required and must be a string")
      else if Nat.eqb (List.length (trim message)) 0
      then Respond (failure 400 "Message cannot be empty")
      else if Nat.ltb 1000 (List.length message)
      then Respond (failure 400 "Message too long (max 1000 characters)")
      else
        match reqChatId req with
        | None => Respond (failure 400 "Chat ID is required")
        | Some _ => Next
        end
  | _ => Respond (failure 400 "Message is required and must be a string")
  end.

Definition validateStartChat (req : Request) : Middleware :=
  match reqReportId req with
  | None => Respond (failure 400 "Report ID is required")
  | Some _ => Next
  end.

(** [ChatBot.findOne({ _id: chatId, userID: userId })] *)
Definition findSession (db : Db) (id : option Id) (userId : Id)
  : option ChatSession :=
  match id with
  | None => None
  | Some i =>
      find (fun s => (chatId s =? i)%N && (chatUser s =? userId)%N) (chats db)
  end.

Definition chatRateLimit (w : World) (db : Db) (req : Request) : Middleware :=
  if rateLookupThrows w then Next   (* catch: don't block on rate limit errors *)
  else
    match findSession db (reqChatId req) (reqUser req) with
    | None => Respond (failure 404 "Chat session not found")
    | Some chatSession =>
        let history := chatHistory chatSession in
        if Nat.ltb 0 (List.length history) then
          match nth_error history (List.length history - 1) with
          | Some lastMessage =>
              let timeSinceLastMessage :=
                (rateNow w - timestamp lastMessage)%Z in
              if (timeSinceLastMessage <? 2000)%Z
              then Respond
                     (failure 429 "Please wait before sending another message")
              else Next
          | None => Next
          end
        else Next
    end.

(** *** The controller *)

(** The regular expression [/\n|•|-/]. *)
Definition isRecommendationSeparator (c : N) : bool :=
  ((c =? 10) || (c =? 8226) || (c =? 45))%N.

(** What [_normalizeRecommendations] can be given: an array, or any other
    value. *)
Inductive RecommendationsArg : Type :=
| ArgArray (items : list value)
| ArgValue (v : value).

Definition _normalizeRecommendations (arg : RecommendationsArg)
  : list jsstring :=
  match arg with
  | ArgArray items =>
      filter truthy
        (List.map (fun item => match item with VStr s => trim s | _ => [] end)
                  items)
  | ArgValue (VStr s) =>
      filter truthy (List.map trim (splitOn isRecommendationSeparator s))
  | ArgValue _ => []
  end.

(** The [message] setter of the chat schema trims. *)
Definition chatMessage (r : Role) (text : jsstring) (at_ : Z) : ChatMessage :=
  mkChatMessage r (trim text) at_.

Definition bullet : jsstring := [10; 8226; 32]%N.

Definition _buildInitialMessages (report : Report) (now : Z)
  : list ChatMessage :=
  let fromSummary :=
    if truthy (summary report)
    then [chatMessage assistant
            (str "Here is the report summary:" ++ [10%N] ++ summary report) now]
    else [] in
  let recs := _normalizeRecommendations (ArgValue (VStr (recommendations report))) in
  let fromRecommendations :=
    if Nat.ltb 0 (List.length recs)
    then [chatMessage assistant
            (str "Recommended next steps:" ++ bullet ++ join bullet recs) now]
    else [] in
  fromSummary ++ fromRecommendations.

Definition possibleKeys : list string :=
  ["tests"; "test_results"; "testResults"; "lab_tests"; "labTests";
   "lab_results"]%string.

Fixpoint firstNonEmptyArray (keys : list string) (d : ExtractedData)
  : list Test :=
  match keys with
  | [] => []
  | key :: rest =>
      match getArray key d with
      | Some (t :: ts) => t :: ts
      | _ => firstNonEmptyArray rest d
      end
  end.

Definition _extractTests (d : ExtractedData) : list Test :=
  firstNonEmptyArray possibleKeys d.

(** The report data handed to the chatbot, or nothing when the report has
    no test list.  The legacy controller tests
    [!extractedData.tests || extractedData.tests.length === 0]; the record
    type keeps the array-valued properties only, so the check is modelled
    for a [tests] property that is an array or is missing. *)
Definition reportDataFor (rev : Revision) (d : ExtractedData)
  : option ExtractedData :=
  match rev with
  | Legacy =>
      match getArray "tests" d with
      | Some (_ :: _) => Some d
      | _ => None
      end
  | Current =>
      match _extractTests d with
      | [] => None
      | normalizedTests =>
          Some (mkExtractedData (reportType d)
                  ((str "tests", normalizedTests) :: arrays d))
      end
  end.

Definition _callChatBot (exit : ProcessExit) : Result jsstring :=
  if negb (exitCode exit =? 0)%Z then
    Rejected (str "ChatBot failed (exit " ++ ofZ (exitCode exit) ++ str "): "
              ++ orElse (stderr exit) (str "Unknown error"))
  else if includes (stdout exit) (str "ERROR:") then
    Rejected (trim (nth 1 (split (str "ERROR:") (stdout exit)) []))
  else if includes (stdout exit) (str "BOT_RESPONSE:") then
    Fulfilled (trim (nth 1 (split (str "BOT_RESPONSE:") (stdout exit)) []))
  else Rejected (str "No response from ChatBot").

(** [Report.findOne({ _id: reportId, userID: userId })] *)
Definition findReport (db : Db) (id : Id) (userId : Id) : option Report :=
  find (fun r => (reportId r =? id)%N && (reportUser r =? userId)%N)
       (reports db).

(** [populate('relatedReportID')] *)
Definition populateReport (db : Db) (id : Id) : option Report :=
  find (fun r => (reportId r =? id)%N) (reports db).

(** [ChatBot.findOne({ userID: userId, relatedReportID: reportId })] *)
Definition findSessionFor (db : Db) (userId reportId : Id)
  : option ChatSession :=
  find (fun s => (chatUser s =? userId)%N && (relatedReportID s =? reportId)%N)
       (chats db).

(** The validators of the chat schema: every message is required. *)
Definition validHistory (h : list ChatMessage) : bool :=
  forallb (fun m => truthy (message m)) h.

(** [chatSession.save()] of a session that is already stored. *)
Definition saveSession (db : Db) (s : ChatSession) : Db :=
  mkDb (reports db) (vaults db)
       (List.map (fun s0 => if (chatId s0 =? chatId s)%N then s else s0)
                 (chats db))
       (nextId db).

(** [chatHistory.slice(-n)] *)
Definition sliceLast {A} (n : nat) (l : list A) : list A :=
  skipn (List.length l - n) l.

Definition startChat (rev : Revision) (db : Db) (req : Request) (now : Z)
  : Db * Response :=
  match reqReportId req with
  | None => (db, failure 404 "Report not found or access denied")
  | Some reportId =>
      match findReport db reportId (reqUser req) with
      | None => (db, failure 404 "Report not found or access denied")
      | Some report =>
          match findSessionFor db (reqUser req) reportId with
          | Some chatSession =>
              (db, mkResponse 200 (ChatReady chatSession (summary report)))
          | None =>
              let seededMessages :=
                match rev with
                | Legacy => []
                | Current => _buildInitialMessages report now
                end in
              let chatSession :=
                mkChatSession (nextId db) (reqUser req) reportId
                              seededMessages in
              if validHistory seededMessages then
                (mkDb (reports db) (vaults db) (chats db ++ [chatSession])
                      (N.succ (nextId db)),
                 mkResponse 200 (ChatReady chatSession (summary report)))
              else
                (db, failureWith 500 "Failed to start chat session"
                       (str "ChatBot validation failed"))
          end
      end
  end.

Definition sendMessage (rev : Revision) (w : World) (db : Db) (req : Request)
  : Db * Response * list ChatEvent :=
  match reqMessage req with
  | VStr ((_ :: _) as text) =>
      if Nat.eqb (List.length (trim text)) 0
      then (db, failure 400 "Message cannot be empty", [])
      else
        match findSession db (reqChatId req) (reqUser req) with
        | None => (db, failure 404 "Chat session not found", [])
        | Some chatSession =>
            match populateReport db (relatedReportID chatSession) with
            | None =>
                (db, failureWith 500 "Failed to process message"
                       (str "Cannot read properties of null"), [])
            | Some report =>
                match reportDataFor rev (extractedData report) with
                | None =>
                    (db, failure 400
                       "Report does not contain valid lab test data. Please process the report first.",
                     [])
                | Some reportData =>
                    (* Add user message to history *)
                    let history1 :=
                      chatHistory chatSession
                      ++ [chatMessage user (trim text) (userStamp w)] in
                    (* Call the Python chatbot *)
                    match _callChatBot (botProcess w reportData history1 text) with
                    | Rejected e =>
                        (db, failureWith 500 "Failed to process message" e,
                         [BotCalled])
                    | Fulfilled botResponse =>
                        (* Add bot response to history *)
                        let history2 :=
                          history1
                          ++ [chatMessage assistant botResponse (botStamp w)] in
                        (* Keep only last 20 messages (10 exchanges) *)
                        let history3 :=
                          if Nat.ltb 20 (List.length history2)
                          then sliceLast 20 history2 else history2 in
                        if validHistory history3 then
                          (saveSession db
                             (mkChatSession (chatId chatSession)
                                (chatUser chatSession)
                                (relatedReportID chatSession) history3),
                           mkResponse 200 (ChatReply botResponse history3),
                           [BotCalled; SessionSaved])
                        else
                          (db, failureWith 500 "Failed to process message"
                                 (str "ChatBot validation failed"),
                           [BotCalled])
                    end
                end
            end
        end
  | VStr [] | VUndefined | VNull | VBool false =>
      (db, failure 400 "Message cannot be empty", [])
  | VNum q =>
      if Qeq_bool q 0 then (db, failure 400 "Message cannot be empty", [])
      else (db, failureWith 500 "Failed to process message"
                  (str "message.trim is not a function"), [])
  | VBool true | VObj =>
      (db, failureWith 500 "Failed to process message"
             (str "message.trim is not a function"), [])
  end.

Definition deleteChat (db : Db) (req : Request) : Db * Response :=
  match findSession db (reqChatId req) (reqUser req) with
  | None => (db, failure 404 "Chat session not found")
  | Some s =>
      (mkDb (reports db) (vaults db)
            (filter (fun s0 => negb (chatId s0 =? chatId s)%N) (chats db))
            (nextId db),
       mkResponse 200 (Done (str "Chat session deleted successfully")))
  end.

(** *** routes/chatbotRoutes.js *)

(** [router.post('/start', validateStartChat, startChat)] *)
Definition postStart (rev : Revision) (db : Db) (req : Request) (now : Z)
  : Db * Response :=
  match validateStartChat req with
  | Respond r => (db, r)
  | Next => startChat rev db req now
  end.

(** [router.post('/message', validateMessage, chatRateLimit, sendMessage)] *)
Definition postMessage (rev : Revision) (w : World) (db : Db) (req : Request)
  : Db * Response * list ChatEvent :=
  match validateMessage req with
  | Respond r => (db, r, [])
  | Next =>
      match chatRateLimit w db req with
      | Respond r => (db, r, [])
      | Next => sendMessage rev w db req
      end
  end.

End Chatbot.


(* ================================================================== *)
(** ** Chat.jsx: what the chat page shows after a send *)
(* ================================================================== *)

Module ChatPage.

Import Js Model.

Inductive Sender : Type := fromUser | fromAi.

Record Bubble : Type := mkBubble {
  sender : Sender;
  bubbleText : jsstring
}.

Definition fallbackText : jsstring :=
  str "I'm having trouble connecting right now.".

(** The HTTP client rejects on every status outside 2xx.  The request
    helper of the page is taken to post to [/api/chat/message], as
    [sendChatMessage] of [chatService.js] does. *)
Definition received (r : Response) : option (list ChatMessage) :=
  match body r with
  | ChatReply _ history =>
      if Nat.leb 200 (statusCode r) && Nat.ltb (statusCode r) 300
      then Some history else None
  | _ => None
  end.

Section HandleSend.

(** [formatChatHistory], the rendering of the stored history. *)
Variable formatChatHistory : list ChatMessage -> list Bubble.

Definition handleSend (messages : list Bubble) (input : jsstring)
  (r : Response) : list Bubble :=
  if negb (truthy (trim input)) then messages
  else
    let withUser := messages ++ [mkBubble fromUser input] in
    match received r with
    | Some history => formatChatHistory history
    | None => withUser ++ [mkBubble fromAi fallbackText]
    end.

End HandleSend.

End ChatPage.


(* ================================================================== *)
(** ** The backend as a transition system *)
(* ================================================================== *)

Module System.

Import Model.

Definition emptyDb : Db := mkDb [] [] [] 0%N.

(** One handled request. *)
Inductive Step (rev : Chatbot.Revision) : Db -> Db -> Prop :=
| StepUpload (w : AgentService.World) (req : ExtractionController.UploadRequest)
    (db : Db) :
    Step rev db (fst (fst (ExtractionController.uploadReport w db req)))
| StepDeleteReport (userId id : Id) (db : Db) :
    Step rev db (fst (ExtractionController.deleteReport db userId id))
| StepStart (req : Chatbot.Request) (now : Z) (db : Db) :
    Step rev db (fst (Chatbot.postStart rev db req now))
| StepMessage (w : Chatbot.World) (req : Chatbot.Request) (db : Db) :
    Step rev db (fst (fst (Chatbot.postMessage rev w db req)))
| StepDelete (req : Chatbot.Request) (db : Db) :
    Step rev db (fst (Chatbot.deleteChat db req)).

(** The databases the backend can be in, starting from an empty one. *)
Inductive Reachable (rev : Chatbot.Revision) : Db -> Prop :=
| ReachEmpty : Reachable rev emptyDb
| ReachStep (db db' : Db) :
    Reachable rev db -> Step rev db db' -> Reachable rev db'.

End System.


(* ================================================================== *)
(** ** Notions the properties are stated with *)
(* ================================================================== *)

Module Policy.

Import Model.

(** The risk-level policy in the words of the specification, on exact
    integers: the fraction [abnormal / total] against 30% and 15%, and
    [Unknown] for an empty record. *)
Definition riskPolicy (abnormal total : nat) : RiskLevel :=
  if Nat.eqb total 0 then Unknown
  else if Nat.ltb (30 * total) (100 * abnormal) then High
  else if Nat.ltb (15 * total) (100 * abnormal) then Medium
  else Normal.

(** The entries that [determineRiskLevel] reads: the [tests] array of the
    record, none when it has no such array. *)
Definition testEntries (d : ExtractedData) : list Test :=
  match getArray "tests" d with
  | Some tests => tests
  | None => []
  end.

End Policy.

Module Trace.

Import Task.

(** [a] occurs in the trace before an occurrence of [b]. *)
Definition precedes (a b : Event) (tr : list Event) : Prop :=
  exists before between after, tr = before ++ a :: between ++ b :: after.

End Trace.

Module History.

Import Model.

(** A sequence of complete exchanges: a user message, then the reply. *)
Inductive Exchanges : list ChatMessage -> Prop :=
| NoExchange : Exchanges []
| OneMore (u a : ChatMessage) (rest : list ChatMessage) :
    role u = user -> role a = assistant -> Exchanges rest ->
    Exchanges (u :: a :: rest).

(** A history made of at most [seeds] introductory assistant messages
    followed by complete exchanges. *)
Definition Paired (seeds : nat) (h : list ChatMessage) : Prop :=
  exists intro turns,
    h = intro ++ turns
    /\ Forall (fun m => role m = assistant) intro
    /\ List.length intro <= seeds
    /\ Exchanges turns.

(** The number of introductory messages a revision seeds a session with, at
    most. *)
Definition maxSeeds (rev : Chatbot.Revision) : nat :=
  match rev with
  | Chatbot.Legacy => 0
  | Chatbot.Current => 2
  end.

End History.

Module Turn.

Import Js Model Task Chatbot.

(** A request either leaves the database alone and answers with an error,
    or completes a turn: the user message and the reply are appended to the
    history of the session, the history is cut to its last 20 entries, the
    session is saved and the answer is 200. *)
Inductive Handled (rev : Revision) (w : World) (db : Db) (req : Request)
  : Db * Response * list ChatEvent -> Prop :=
| Refused (code : nat) (text : jsstring) (error : option jsstring)
    (events : list ChatEvent) :
    code <> 200 -> ~ In SessionSaved events ->
    Handled rev w db req (db, mkResponse code (Failure text error), events)
| Completed (s : ChatSession) (text reply : jsstring)
    (report : Report) (reportData : ExtractedData) :
    reqMessage req = VStr text ->
    findSession db (reqChatId req) (reqUser req) = Some s ->
    populateReport db (relatedReportID s) = Some report ->
    reportDataFor rev (extractedData report) = Some reportData ->
    let u := chatMessage user (trim text) (userStamp w) in
    let a := chatMessage assistant reply (botStamp w) in
    let h2 := chatHistory s ++ [u; a] in
    let h3 := if Nat.ltb 20 (List.length h2) then sliceLast 20 h2 else h2 in
    _callChatBot (botProcess w reportData (chatHistory s ++ [u]) text)
    = Fulfilled reply ->
    Handled rev w db req
      (saveSession db (mkChatSession (chatId s) (chatUser s)
                                     (relatedReportID s) h3),
       mkResponse 200 (ChatReply reply h3),
       [BotCalled; SessionSaved]).

(** Every stored history is bounded and well formed. *)
Definition Invariant (rev : Revision) (db : Db) : Prop :=
  forall s,
    In s (chats db) ->
    List.length (chatHistory s) <= 20
    /\ History.Paired (History.maxSeeds rev) (chatHistory s).

End Turn.

Module Grouping.

Import Js.

(** A string made of white space only. *)
Definition blank (s : jsstring) : Prop := Forall (fun c => isWhiteSpace c = true) s.

(** A file entry without a patient name, or with the empty one. *)
Definition nameless (f : Model.VaultFile) : Prop :=
  Model.filePatientName f = None \/ Model.filePatientName f = Some [].

(** [f] has been filed in the group of its key. *)
Definition filed (toLowerCase : jsstring -> jsstring)
  (m : VaultController.StringMap VaultController.Group)
  (f : Model.VaultFile) : Prop :=
  exists g,
    VaultController.mapGet (VaultController.bucketKey toLowerCase f) m = Some g
    /\ In f (VaultController.groupFiles g).

End Grouping.


(* ================================================================== *)
(** ** Concrete runs *)
(* ================================================================== *)

Module Examples.

Import Js Model Task.

(** The record of the end-to-end scenario: one test, flagged. *)
Definition hemoglobin : Test := mkTest (VBool true) (VStr (str "Low")).

Definition labData : ExtractedData :=
  mkExtractedData VUndefined [(str "tests", [hemoglobin])].

Definition insightOutput (file : string) : AgentService.PyOutcome :=
  AgentService.Closed 0 (str "OUTPUT_FILE:" ++ str file ++ [10%N]) [].

(** A world in which the extraction, recommendation and vault agents
    succeed, the summary agent ends as given, and the two insight files hold
    the given texts. *)
Definition labWorldWith (summaryRun : AgentService.PyOutcome)
  (summaryText recommendationsText : jsstring) : AgentService.World :=
  AgentService.mkWorld
    (fun _ =>
       Fulfilled
         (AgentService.mkExtractionResult labData (str "out/report.json")
            (Some (str "Jane Doe")) 1))
    (fun _ => summaryRun)
    (fun _ => insightOutput "/out/recommendations.txt")
    (fun _ =>
       Fulfilled
         (AgentService.mkVaultResult (Some (str "Jane Doe"))
            (str "vault/Jane Doe") true 1))
    (fun p =>
       if eqb p (str "/out/summary.txt") then Some summaryText
       else if eqb p (str "/out/recommendations.txt")
            then Some recommendationsText
            else None)
    true 1000.

Definition labWorld : jsstring -> jsstring -> AgentService.World :=
  labWorldWith (insightOutput "/out/summary.txt").

(** The summary agent runs out of quota. *)
Definition quotaWorld : AgentService.World :=
  labWorldWith (AgentService.Closed 1 [] (str "429 quota exceeded")) []
               (str "See a doctor.").

Definition pdf : ExtractionController.UploadedFile :=
  ExtractionController.mkUploadedFile
    (str "uploads/7/report.pdf") (str "report.pdf") 2048.

Definition upload : ExtractionController.UploadRequest :=
  ExtractionController.mkUploadRequest 7%N (Some pdf).

(** The database after user 7 uploaded a report whose summary is
    ["Low hemoglobin."] and whose recommendations are the given text. *)
Definition dbWithReport (recommendationsText : jsstring) : Db :=
  fst (fst (ExtractionController.uploadReport
              (labWorld (str "Low hemoglobin.") recommendationsText)
              System.emptyDb upload)).

(** The chatbot answers, or fails, one second after the question. *)
Definition chatWorld (answers : bool) (asked : Z) : Chatbot.World :=
  Chatbot.mkWorld false asked asked
    (fun _ _ _ =>
       if answers
       then Chatbot.mkProcessExit 0
              (str "BOT_RESPONSE:Your hemoglobin is below the range." ++ [10%N]) []
       else Chatbot.mkProcessExit 1 [] (str "429 quota exceeded"))
    (asked + 1000).

(** A vault entry that carries the given patient name. *)
Definition vaultEntry (id : Id) (name : option string) : VaultFile :=
  mkVaultFile id (str "report.pdf") (1000 + Z.of_N id) (str "application/pdf")
              2048 (str "uploads/7/report.pdf") (str "processed") None
              (option_map str name).

(** The owner names of the grouping scenario. *)
Definition janeFiles : list VaultFile :=
  [vaultEntry 1 (Some "Jane Doe"); vaultEntry 2 (Some "jane doe");
   vaultEntry 3 (Some " Jane Doe ")]%string.

Definition startRequest : Chatbot.Request :=
  Chatbot.mkRequest 7%N None (Some 0%N) VUndefined.

Definition question : Chatbot.Request :=
  Chatbot.mkRequest 7%N (Some 2%N) None
    (VStr (str "What does my hemoglobin mean?")).

End Examples.

(* ================================================================== *)
(** ** The read endpoints *)
(* ================================================================== *)

Module Reads.

Import Js Model.

(** extractionController.js, [getReportById]: the report with this id that
    belongs to the user, or 404. *)
Definition getReportById (db : Db) (userId id : Id) : Response + Report :=
  match Chatbot.findReport db id userId with
  | None => inl (failure 404 "Report not found")
  | Some report => inr report
  end.

(** What [populate('relatedReportID', 'patientName reportType summary')]
    keeps of a report. *)
Record ReportCard : Type := mkReportCard {
  cardId : Id;
  cardPatientName : option jsstring;
  cardReportType : jsstring;
  cardSummary : jsstring
}.

Definition cardOf (r : Report) : ReportCard :=
  mkReportCard (reportId r) (patientName r) (reportKind r) (summary r).

(** chatbotController.js, [getChatHistory]: the session of the user with
    its populated report ([null] when the report is gone), or 404. *)
Definition getChatHistory (db : Db) (userId id : Id)
  : Response + (ChatSession * option ReportCard) :=
  match Chatbot.findSession db (Some id) userId with
  | None => inl (failure 404 "Chat session not found")
  | Some chatSession =>
      inr (chatSession,
           option_map cardOf
             (Chatbot.populateReport db (relatedReportID chatSession)))
  end.

End Reads.


(* ================================================================== *)
(** ** vaultController.js: the vault overview *)
(* ================================================================== *)

Module VaultOverview.

Import Js Model VaultController.

(** The [data] of the answer of [getVaultOverview]. *)
Record Overview : Type := mkOverview {
  patientVaults : list PatientVault;
  totalPatients : nat;
  totalReports : nat
}.

(** [new Date(group.lastUpdated || 0)] *)
Definition updatedAt (p : PatientVault) : Z :=
  match lastUpdated p with
  | Some d => d
  | None => 0%Z
  end.

(** Stable sort, most recently updated group first:
    [.sort((a, b) => new Date(b.lastUpdated || 0) - new Date(a.lastUpdated || 0))]. *)
Fixpoint insertByUpdate (p : PatientVault) (sorted : list PatientVault)
  : list PatientVault :=
  match sorted with
  | [] => [p]
  | q :: rest =>
      if (updatedAt p <? updatedAt q)%Z then q :: insertByUpdate p rest
      else p :: sorted
  end.

Definition sortByUpdateDesc (l : list PatientVault) : list PatientVault :=
  fold_right insertByUpdate [] l.

Section Overview.

Variable toLowerCase : jsstring -> jsstring.

Definition getVaultOverview (db : Db) (userId : Id) : Overview :=
  match ExtractionController.findVault userId (vaults db) with
  | None => mkOverview [] 0 0
  | Some vault =>
      if Nat.eqb (List.length (files vault)) 0 then mkOverview [] 0 0
      else
        let patientVaults :=
          sortByUpdateDesc (groupFilesByPatient toLowerCase (files vault)) in
        mkOverview patientVaults (List.length patientVaults)
                   (List.length (files vault))
  end.

End Overview.

End VaultOverview.


(* ================================================================== *)
(** ** Profile.jsx, Vault.jsx: the initials of the avatar *)
(* ================================================================== *)

Module Pages.

Import Js.

(** [word[0]], with [undefined] joined as the empty string. *)
Definition firstUnit (word : jsstring) : jsstring := firstn 1 word.

Section Initials.

(** [String.prototype.toUpperCase], the Unicode case mapping of the engine. *)
Variable toUpperCase : jsstring -> jsstring.

(** [(user?.username || user?.email || "LM")] *)
Definition displayedName (username email : option jsstring) : jsstring :=
  match username with
  | Some ((_ :: _) as name) => name
  | _ =>
      match email with
      | Some ((_ :: _) as address) => address
      | _ => str "LM"
      end
  end.

(** [.split(" ").map((word) => word[0]).join("").slice(0, 2)] *)
Definition initialUnits (name : jsstring) : jsstring :=
  firstn 2 (join [] (List.map firstUnit (split (str " ") name))).

Definition initials (username email : option jsstring) : jsstring :=
  toUpperCase (initialUnits (displayedName username email)).

End Initials.

End Pages.


(* ================================================================== *)
(** ** Requests by their sender *)
(* ================================================================== *)

Module Requests.

Import Model.

(** A request that can change the database, as the routes dispatch it. *)
Inductive Action : Type :=
| Upload (w : AgentService.World) (req : ExtractionController.UploadRequest)
| DeleteReport (userId id : Id)
| StartChat (req : Chatbot.Request) (now : Z)
| SendMessage (w : Chatbot.World) (req : Chatbot.Request)
| DeleteChat (req : Chatbot.Request).

(** The authenticated user, [req.user.id]. *)
Definition actor (a : Action) : Id :=
  match a with
  | Upload _ req => ExtractionController.uploadUser req
  | DeleteReport userId _ => userId
  | StartChat req _ | SendMessage _ req | DeleteChat req => Chatbot.reqUser req
  end.

(** The database after the request was handled. *)
Definition handle (rev : Chatbot.Revision) (db : Db) (a : Action) : Db :=
  match a with
  | Upload w req => fst (fst (ExtractionController.uploadReport w db req))
  | DeleteReport userId id =>
      fst (ExtractionController.deleteReport db userId id)
  | StartChat req now => fst (Chatbot.postStart rev db req now)
  | SendMessage w req => fst (fst (Chatbot.postMessage rev w db req))
  | DeleteChat req => fst (Chatbot.deleteChat db req)
  end.

End Requests.


(* ================================================================== *)
(** ** Integrity of the stored documents *)
(* ================================================================== *)

Module Integrity.

Import Js Model.

(** The files of the vault of a user, none when the user has no vault. *)
Definition vaultFilesOf (db : Db) (userId : Id) : list VaultFile :=
  match ExtractionController.findVault userId (vaults db) with
  | Some v => files v
  | None => []
  end.

(** A string that [trim] leaves as it is. *)
Definition trimmed (s : jsstring) : Prop := trim s = s.

(** What the report schema and [uploadReport] make of a report. *)
Definition ValidReport (r : Report) : Prop :=
  In (reportKind r) ExtractionController.reportTypeEnum
  /\ trimmed (summary r) /\ trimmed (recommendations r)
  /\ riskLevel r = ExtractionController.determineRiskLevel (extractedData r).

(** What the chat schema and the message route make of a stored message. *)
Definition ValidMessage (m : ChatMessage) : Prop :=
  message m <> [] /\ trimmed (message m)
  /\ (role m = user -> List.length (message m) <= 1000).

(** The session and the report it refers to, when that report is still
    stored, belong to the same user. *)
Definition OwnReport (db : Db) (s : ChatSession) : Prop :=
  forall r,
    In r (reports db) -> reportId r = relatedReportID s ->
    reportUser r = chatUser s.

(** Every file of the vault refers to a report, and that report, when it is
    still stored, belongs to the owner of the vault. *)
Definition OwnFiles (db : Db) (v : Vault) : Prop :=
  forall f,
    In f (files v) ->
    exists id,
      fileReport f = Some id
      /\ forall r, In r (reports db) -> reportId r = id ->
                   reportUser r = vaultUser v.

(** ObjectIds are allotted once. *)
Definition FreshIds (db : Db) : Prop :=
  (forall r, In r (reports db) -> (reportId r < nextId db)%N)
  /\ NoDup (List.map reportId (reports db))
  /\ (forall s, In s (chats db) ->
        (chatId s < nextId db)%N /\ (relatedReportID s < nextId db)%N)
  /\ NoDup (List.map chatId (chats db))
  /\ (forall v f, In v (vaults db) -> In f (files v) ->
        exists id, fileReport f = Some id /\ (id < nextId db)%N).

Definition sessionKey (s : ChatSession) : Id * Id :=
  (chatUser s, relatedReportID s).

Record WellFormed (db : Db) : Prop := mkWellFormed {
  freshIds : FreshIds db;
  oneSessionPerReport : NoDup (List.map sessionKey (chats db));
  oneVaultPerUser : NoDup (List.map vaultUser (vaults db));
  ownReports : forall s, In s (chats db) -> OwnReport db s;
  ownFiles : forall v, In v (vaults db) -> OwnFiles db v;
  validReports : forall r, In r (reports db) -> ValidReport r;
  validMessages :
    forall s m, In s (chats db) -> In m (chatHistory s) -> ValidMessage m
}.

End Integrity.


(* ================================================================== *)
(** ** Order *)
(* ================================================================== *)

Module Order.

(** [l] is in descending order of [key]: no element is followed, at any
    distance, by one with a larger key. *)
Definition Descending {A : Type} (key : A -> Z) (l : list A) : Prop :=
  forall before x between y after,
    l = before ++ x :: between ++ y :: after -> (key y <= key x)%Z.

End Order.


(* ================================================================== *)
(** ** The groups of the grouping, while it runs *)
(* ================================================================== *)

Module Buckets.

Import Js Model VaultController.

(** The files of all groups of the map, group after group. *)
Definition allFiles (m : StringMap Group) : list VaultFile :=
  concat (List.map groupFiles (mapValues m)).

Section WithCaseMapping.

Variable toLowerCase : jsstring -> jsstring.

(** A group stored under key [k] once the files [done] have been filed: it
    is not empty, its files have the key [k], its name is the display name
    of the first file of [done] with that key, and that file is in it. *)
Definition GroupOf (done : list VaultFile) (k : jsstring) (g : Group)
  : Prop :=
  groupFiles g <> []
  /\ (forall f, In f (groupFiles g) -> bucketKey toLowerCase f = k)
  /\ exists before first after,
       done = before ++ first :: after
       /\ bucketKey toLowerCase first = k
       /\ groupName g = displayName first
       /\ In first (groupFiles g)
       /\ forall f, In f before -> bucketKey toLowerCase f <> k.

Definition GroupsOf (done : list VaultFile) (m : StringMap Group) : Prop :=
  (forall k g, In (k, g) m -> GroupOf done k g)
  /\ (forall f, In f done -> mapGet (bucketKey toLowerCase f) m <> None).

End WithCaseMapping.

End Buckets.


(* ================================================================== *)
(** ** Further concrete runs *)
(* ================================================================== *)

Module MoreExamples.

Import Js Model Task.

(** The world of [Examples.labWorld] with another extraction result and
    another vault agent. *)
Definition worldWith (extracted : ExtractedData)
  (vault : Result AgentService.VaultResult) : AgentService.World :=
  let lab := Examples.labWorld (str "Low hemoglobin.") (str "See a doctor.") in
  AgentService.mkWorld
    (fun _ =>
       Fulfilled
         (AgentService.mkExtractionResult extracted (str "out/report.json")
            (Some (str "Jane Doe")) 1))
    (AgentService.summaryAgent lab)
    (AgentService.recommendationAgent lab)
    (fun _ => vault)
    (AgentService.readFile lab)
    true 1000.

Definition janeVault : Result AgentService.VaultResult :=
  Fulfilled
    (AgentService.mkVaultResult (Some (str "Jane Doe")) (str "vault/Jane Doe")
                                true 1).

(** The vault agent finds no patient name in the PDF. *)
Definition namelessWorld : AgentService.World :=
  worldWith Examples.labData (Rejected (str "no patient name found")).

(** The extraction agent reports a type of report that the schema does not
    list. *)
Definition thyroidData : ExtractedData :=
  mkExtractedData (VStr (str "Thyroid Panel"))
                  [(str "tests", [Examples.hemoglobin])].

Definition thyroidWorld : AgentService.World := worldWith thyroidData janeVault.

(** An upload whose file name is made of spaces. *)
Definition blankNameUpload : ExtractionController.UploadRequest :=
  ExtractionController.mkUploadRequest 7%N
    (Some (ExtractionController.mkUploadedFile
             (str "uploads/7/report.pdf") (str "  ") 2048)).

(** What an insight agent prints when it logs before it names its file. *)
Definition chattyOutput : jsstring :=
  str "Loading model: gemini" ++ [10%N] ++ str "OUTPUT_FILE:"
  ++ str "C:/out/summary.txt" ++ [10%N].

Definition chattyWorld : AgentService.World :=
  AgentService.mkWorld
    (fun _ => Rejected [])
    (fun _ => AgentService.Closed 0 chattyOutput [])
    (fun _ => AgentService.Closed 0 chattyOutput [])
    (fun _ => Rejected [])
    (fun p => if eqb p (str "C:/out/summary.txt")
              then Some (str "Low hemoglobin.") else None)
    true 1000.

(** The tests of a record filed under another key than [tests]. *)
Definition renamedData : ExtractedData :=
  mkExtractedData VUndefined [(str "lab_results", [Examples.hemoglobin])].

(** A database with one report, of user 7, that holds these data, and the
    session of that user for it. *)
Definition renamedDb : Db :=
  mkDb [mkReport 0 7 (Some (str "Jane Doe")) (str "Blood Test") renamedData
                 [] [] Unknown]
       [] [mkChatSession 2 7 0 []] 3.

(** The chatbot prints its marker and nothing behind it. *)
Definition silentWorld : Chatbot.World :=
  Chatbot.mkWorld false 9000 9000
    (fun _ _ _ => Chatbot.mkProcessExit 0 (str "BOT_RESPONSE:" ++ [10%N]) [])
    10000.

(** Recommendations as an insight agent writes them. *)
Definition advice : jsstring :=
  str "Eat more iron" ++ [10%N] ++ str "- Plan a follow-up in 4 weeks".

End MoreExamples.


(* ================================================================== *)
(** ** Filing under an owner name *)
(* ================================================================== *)

Module Filing.

Import Js Model.

(** The patient name of a file entry as the file schema keeps it
    ([patientName: { type: String, trim: true }]): no name, or a name
    without white space at either end. *)
Definition StoredName (f : VaultFile) : Prop :=
  forall n, filePatientName f = Some n -> trim n = n.

(** Every file entry of every vault carries such a name. *)
Definition StoredNames (db : Db) : Prop :=
  forall v f, In v (vaults db) -> In f (files v) -> StoredName f.

(** Two owner names that differ only by letter case and by leading or
    trailing white space: without the white space around them they have the
    same lower-case form. *)
Definition SameOwner (toLowerCase : jsstring -> jsstring)
  (n1 n2 : jsstring) : Prop :=
  toLowerCase (trim n1) = toLowerCase (trim n2).

(** What filing needs of the case mapping of the engine: the empty string,
    and no other, has an empty lower-case form. *)
Definition KeepsEmptiness (toLowerCase : jsstring -> jsstring) : Prop :=
  forall s, toLowerCase s = [] <-> s = [].

End Filing.


(* ================================================================== *)
(** ** Concrete runs of the filing *)
(* ================================================================== *)

Module FilingExamples.

Import Js Model Task.

(** The world of [Examples.labWorld] in which the extraction agent finds no
    patient name and the vault agent answers with the given one. *)
Definition worldNaming (name : option string) : AgentService.World :=
  let lab := Examples.labWorld (str "Low hemoglobin.") (str "See a doctor.") in
  AgentService.mkWorld
    (fun _ =>
       Fulfilled
         (AgentService.mkExtractionResult Examples.labData
            (str "out/report.json") None 1))
    (AgentService.summaryAgent lab)
    (AgentService.recommendationAgent lab)
    (fun _ =>
       Fulfilled
         (AgentService.mkVaultResult (option_map str name) (str "vault/7")
                                     true 1))
    (AgentService.readFile lab)
    true 1000.

(** The uploads of one user, one after the other, under the given names. *)
Definition uploads (names : list (option string)) (db : Db) : Db :=
  fold_left
    (fun db name =>
       fst (fst (ExtractionController.uploadReport (worldNaming name) db
                                                   Examples.upload)))
    names db.

(** User 7 files four documents: under a name made of one space, under no
    name, and under two spellings of one name. *)
Definition filedDb : Db :=
  uploads [Some " "; None; Some "  Jane Doe "; Some "JANE DOE"]%string
          System.emptyDb.

End FilingExamples.


(* ================================================================== *)
(** ** The documented format of a lab report *)
(* ================================================================== *)

Module DocumentedFormat.

Import Js Model Task.

(** The entry of the format that the chatbot's README documents, with its
    optional flag: [{ ..., "abnormal": false, "flag": "LOW" }].  It has no
    [status]. *)
Definition flaggedEntry : Test := mkTest (VStr (str "LOW")) VUndefined.

(** A record in that format: the entries are under [test_results], and
    there is no [reportType] (the format spells it [report_type]). *)
Definition documentedData : ExtractedData :=
  mkExtractedData VUndefined [(str "test_results", [flaggedEntry])].

(** The extraction agent returns that record. *)
Definition documentedWorld : AgentService.World :=
  MoreExamples.worldWith documentedData MoreExamples.janeVault.

End DocumentedFormat.
(* ################################################################## *)
(** * Properties *)
(* ################################################################## *)

(* ================================================================== *)
(** ** Rounding is monotone, and what follows for percentages *)
(* ================================================================== *)

Module Binary64Facts.

Import Binary64.
Local Open Scope Q_scope.

Lemma pow2_pos (e : Z) : 0 < 2 ^ e.
Proof. apply Qpower_0_lt. reflexivity. Qed.

Lemma pow2_le (a b : Z) : (a <= b)%Z -> 2 ^ a <= 2 ^ b.
Proof. intros H. apply Qpower_le_compat_l; [exact H | discriminate]. Qed.

Lemma pow2_lt_inv (a b : Z) : 2 ^ a < 2 ^ b -> (a < b)%Z.
Proof. intros H. apply Qpower_lt_compat_l_inv with (q := 2); [exact H | reflexivity]. Qed.

Lemma pow2_inject (n : Z) : (0 <= n)%Z -> inject_Z (2 ^ n) == 2 ^ n.
Proof. intros H. rewrite Zpower_Qpower by exact H. reflexivity. Qed.

(** Integer bounds of [Z.log2], as rationals. *)
Lemma log2_bounds_Q (p : Z) :
  (0 < p)%Z -> 2 ^ Z.log2 p <= inject_Z p /\ inject_Z p < 2 ^ (Z.log2 p + 1).
Proof.
  intros Hp.
  destruct (Z.log2_spec p Hp) as [Hlo Hhi].
  pose proof (Z.log2_nonneg p) as Hnn.
  split.
  - rewrite <- pow2_inject by exact Hnn. rewrite <- Zle_Qle. exact Hlo.
  - rewrite <- pow2_inject by lia. rewrite <- Zlt_Qlt.
    replace (Z.log2 p + 1)%Z with (Z.succ (Z.log2 p)) by lia. exact Hhi.
Qed.

Lemma Q_as_fraction (x : Q) :
  x * inject_Z (Zpos (Qden x)) == inject_Z (Qnum x).
Proof.
  destruct x as [p q]. unfold Qeq, Qmult, inject_Z. simpl.
  rewrite Pos.mul_1_r. ring.
Qed.

Lemma floor_log2_spec (x : Q) :
  0 < x -> 2 ^ floor_log2 x <= x /\ x < 2 ^ (floor_log2 x + 1).
Proof.
  intros Hx.
  assert (Hp : (0 < Qnum x)%Z).
  { destruct x as [p q]. unfold Qlt in Hx. simpl in *. lia. }
  pose proof (Q_as_fraction x) as Hfrac.
  destruct (log2_bounds_Q Hp) as [Hplo Hphi].
  destruct (log2_bounds_Q (p := Zpos (Qden x)) eq_refl) as [Hqlo Hqhi].
  set (P := inject_Z (Qnum x)) in *.
  set (D := inject_Z (Zpos (Qden x))) in *.
  set (lp := Z.log2 (Qnum x)) in *.
  set (lq := Z.log2 (Zpos (Qden x))) in *.
  assert (HD : 0 < D) by (unfold D; rewrite <- (Zlt_Qlt 0); lia).
  assert (E1 : 2 ^ (lp - lq + 1) * 2 ^ lq == 2 ^ (lp + 1)).
  { rewrite <- Qpower_plus by discriminate. replace (lp - lq + 1 + lq)%Z with (lp + 1)%Z by lia. reflexivity. }
  assert (E2 : 2 ^ (lp - lq - 1) * 2 ^ (lq + 1) == 2 ^ lp).
  { rewrite <- Qpower_plus by discriminate. replace (lp - lq - 1 + (lq + 1))%Z with lp by lia. reflexivity. }
  pose proof (pow2_pos (lp - lq + 1)) as Hpos1.
  pose proof (pow2_pos (lp - lq - 1)) as Hpos2.
  assert (Hup : x < 2 ^ (lp - lq + 1)).
  { apply Qnot_le_lt. intros Hc.
    assert (2 ^ (lp - lq + 1) * 2 ^ lq <= x * D).
    { apply Qle_trans with (x * 2 ^ lq).
      - apply Qmult_le_compat_r; [exact Hc | apply Qlt_le_weak, pow2_pos].
      - rewrite (Qmult_comm x (2 ^ lq)), (Qmult_comm x D).
        apply Qmult_le_compat_r; [exact Hqlo | apply Qlt_le_weak, Hx]. }
    lra. }
  assert (Hdown : 2 ^ (lp - lq - 1) <= x).
  { apply Qnot_lt_le. intros Hc.
    assert (x * D <= 2 ^ (lp - lq - 1) * 2 ^ (lq + 1)).
    { apply Qle_trans with (x * 2 ^ (lq + 1)).
      - rewrite (Qmult_comm x (2 ^ (lq + 1))), (Qmult_comm x D).
        apply Qmult_le_compat_r; [apply Qlt_le_weak, Hqhi | apply Qlt_le_weak, Hx].
      - apply Qmult_le_compat_r; [apply Qlt_le_weak, Hc | apply Qlt_le_weak, pow2_pos]. }
    assert (x * D < 2 ^ (lp - lq - 1) * 2 ^ (lq + 1) \/ x * D == 2 ^ (lp - lq - 1) * 2 ^ (lq + 1)) as [Hs|He] by (destruct (Qlt_le_dec (x * D) (2 ^ (lp - lq - 1) * 2 ^ (lq + 1))); [left; assumption | right; lra]).
    - lra.
    - (* equality would force D = 2^(lq+1) *)
      assert (x * 2 ^ (lq + 1) < 2 ^ (lp - lq - 1) * 2 ^ (lq + 1)).
      { apply Qmult_lt_compat_r; [apply pow2_pos | exact Hc]. }
      assert (x * D < x * 2 ^ (lq + 1)).
      { rewrite (Qmult_comm x D), (Qmult_comm x (2 ^ (lq + 1))).
        apply Qmult_lt_compat_r; [exact Hx | exact Hqhi]. }
      lra. }
  unfold floor_log2. fold lp lq.
  destruct (Qle_bool (2 ^ (lp - lq)) x) eqn:Hb.
  - apply Qle_bool_iff in Hb. split; [exact Hb | exact Hup].
  - assert (Hlt : x < 2 ^ (lp - lq)).
    { apply Qnot_le_lt. intros Hc. apply Qle_bool_iff in Hc. congruence. }
    split; [exact Hdown|].
    replace (lp - lq - 1 + 1)%Z with (lp - lq)%Z by lia. exact Hlt.
Qed.

Lemma rne_floor_le (y : Q) : (Qfloor y <= rne y)%Z.
Proof.
  unfold rne. destruct (Qcompare _ _); [destruct (Z.even _)| |]; lia.
Qed.

Lemma rne_le_floor_succ (y : Q) : (rne y <= Qfloor y + 1)%Z.
Proof.
  unfold rne. destruct (Qcompare _ _); [destruct (Z.even _)| |]; lia.
Qed.

Lemma rne_lower (n : Z) (y : Q) : inject_Z n <= y -> (n <= rne y)%Z.
Proof.
  intros H. apply Qfloor_resp_le in H. rewrite Qfloor_Z in H.
  pose proof (rne_floor_le y). lia.
Qed.

Lemma rne_upper (n : Z) (y : Q) : y <= inject_Z n -> (rne y <= n)%Z.
Proof.
  intros H.
  pose proof (Qfloor_resp_le _ _ H) as Hf. rewrite Qfloor_Z in Hf.
  destruct (Z.eq_dec (Qfloor y) n) as [E|NE].
  - unfold rne. rewrite E.
    pose proof (Qfloor_le y) as Hle. rewrite E in Hle.
    assert (Hlt : y - inject_Z n < 1 # 2) by lra.
    rewrite Qlt_alt in Hlt. rewrite Hlt. lia.
  - pose proof (rne_le_floor_succ y). lia.
Qed.

Lemma rne_mono (y y' : Q) : y <= y' -> (rne y <= rne y')%Z.
Proof.
  intros H.
  pose proof (Qfloor_resp_le _ _ H) as Hf.
  destruct (Z.eq_dec (Qfloor y) (Qfloor y')) as [E|NE].
  - unfold rne. rewrite <- E.
    destruct (Qcompare_spec (y - inject_Z (Qfloor y)) (1 # 2)) as [E1|L1|G1];
      destruct (Qcompare_spec (y' - inject_Z (Qfloor y)) (1 # 2)) as [E2|L2|G2];
      try (destruct (Z.even (Qfloor y))); try lia; exfalso; lra.
  - pose proof (rne_le_floor_succ y). pose proof (rne_floor_le y'). lia.
Qed.

(** The scaled significand lies in [[2^52, 2^53)]. *)
Lemma scaled_bounds (x : Q) :
  0 < x ->
  let e := (floor_log2 x - 52)%Z in
  inject_Z (2 ^ 52) <= x / 2 ^ e /\ x / 2 ^ e < inject_Z (2 ^ 53).
Proof.
  intros Hx e.
  destruct (floor_log2_spec Hx) as [Hlo Hhi].
  pose proof (pow2_pos e) as He.
  assert (E1 : 2 ^ floor_log2 x == inject_Z (2 ^ 52) * 2 ^ e).
  { rewrite pow2_inject by lia. rewrite <- Qpower_plus by discriminate.
    unfold e. replace (52 + (floor_log2 x - 52))%Z with (floor_log2 x) by lia. reflexivity. }
  assert (E2 : 2 ^ (floor_log2 x + 1) == inject_Z (2 ^ 53) * 2 ^ e).
  { rewrite pow2_inject by lia. rewrite <- Qpower_plus by discriminate.
    unfold e. replace (53 + (floor_log2 x - 52))%Z with (floor_log2 x + 1)%Z by lia. reflexivity. }
  split.
  - apply Qle_shift_div_l; [exact He | lra].
  - apply Qlt_shift_div_r; [exact He | lra].
Qed.

Lemma significand_bounds (x : Q) :
  0 < x ->
  (2 ^ 52 <= rne (x / 2 ^ (floor_log2 x - 52)) <= 2 ^ 53)%Z.
Proof.
  intros Hx. destruct (scaled_bounds Hx) as [Hlo Hhi]. split.
  - apply rne_lower, Hlo.
  - apply rne_upper, Qlt_le_weak, Hhi.
Qed.

Lemma floor_log2_mono (x x' : Q) :
  0 < x -> x <= x' -> (floor_log2 x <= floor_log2 x')%Z.
Proof.
  intros Hx Hle.
  assert (Hx' : 0 < x') by lra.
  destruct (floor_log2_spec Hx) as [Hlo _].
  destruct (floor_log2_spec Hx') as [_ Hhi].
  assert (H : 2 ^ floor_log2 x < 2 ^ (floor_log2 x' + 1)) by lra.
  apply pow2_lt_inv in H. lia.
Qed.

Lemma round_pos_mono (x x' : Q) :
  0 < x -> x <= x' -> round_pos x <= round_pos x'.
Proof.
  intros Hx Hle.
  assert (Hx' : 0 < x') by lra.
  pose proof (floor_log2_mono Hx Hle) as Hl.
  unfold round_pos.
  set (e := (floor_log2 x - 52)%Z).
  set (e' := (floor_log2 x' - 52)%Z).
  pose proof (pow2_pos e) as He. pose proof (pow2_pos e') as He'.
  destruct (Z.eq_dec (floor_log2 x) (floor_log2 x')) as [E|NE].
  - assert (Ee : e' = e) by (unfold e, e'; lia). rewrite Ee.
    apply Qmult_le_compat_r; [|lra].
    rewrite <- Zle_Qle. apply rne_mono.
    apply Qle_shift_div_l; [exact He|].
    setoid_replace (x / 2 ^ e * 2 ^ e) with x by (field; lra). exact Hle.
  - destruct (significand_bounds Hx) as [_ Hup].
    destruct (significand_bounds Hx') as [Hlow _].
    fold e in Hup. fold e' in Hlow.
    rewrite Zle_Qle in Hup, Hlow.
    apply Qle_trans with (inject_Z (2 ^ 53) * 2 ^ e).
    { apply Qmult_le_compat_r; [exact Hup | lra]. }
    apply Qle_trans with (inject_Z (2 ^ 52) * 2 ^ e').
    2:{ apply Qmult_le_compat_r; [exact Hlow | lra]. }
    rewrite !pow2_inject by lia. rewrite <- !Qpower_plus by discriminate.
    apply pow2_le. unfold e, e'. lia.
Qed.

Lemma round_pos_pos (x : Q) : 0 < x -> 0 < round_pos x.
Proof.
  intros Hx. unfold round_pos.
  destruct (significand_bounds Hx) as [Hlow _].
  apply Qmult_lt_0_compat; [|apply pow2_pos].
  rewrite <- (Zlt_Qlt 0). lia.
Qed.

Lemma Qnum_sign (x : Q) :
  match Qnum x with
  | Z0 => x == 0
  | Zpos _ => 0 < x
  | Zneg _ => x < 0
  end.
Proof.
  destruct x as [[|p|p] q]; unfold Qeq, Qlt; simpl; lia.
Qed.

Lemma fl_nonneg (x : Q) : 0 <= x -> 0 <= fl x.
Proof.
  intros Hx. unfold fl. pose proof (Qnum_sign x) as Hs.
  destruct (Qnum x).
  - lra.
  - apply Qlt_le_weak, round_pos_pos, Hs.
  - lra.
Qed.

(** Rounding is monotone. *)
Lemma fl_mono (x x' : Q) : 0 <= x -> x <= x' -> fl x <= fl x'.
Proof.
  intros Hx Hle.
  pose proof (fl_nonneg (x := x') ltac:(lra)) as Hnn.
  unfold fl in *.
  pose proof (Qnum_sign x) as Hs. pose proof (Qnum_sign x') as Hs'.
  destruct (Qnum x); [exact Hnn | | lra].
  destruct (Qnum x'); [lra | | lra].
  apply round_pos_mono; assumption.
Qed.

Lemma gtb_true (a b : Q) : b < a -> gtb a b = true.
Proof.
  intros H. unfold gtb. destruct (Qle_bool a b) eqn:E; [|reflexivity].
  apply Qle_bool_iff in E. lra.
Qed.

Lemma gtb_false (a b : Q) : a <= b -> gtb a b = false.
Proof.
  intros H. unfold gtb. apply Qle_bool_iff in H. rewrite H. reflexivity.
Qed.

Lemma Z_gap (a b K N M : Z) :
  (0 < b)%Z -> (0 < N < M)%Z -> (a * N < b * K)%Z ->
  ((a * (b * M) + b) * N <= K * (b * (b * M)))%Z.
Proof.
  intros Hb HN H.
  assert (H1 : (a * N + 1 <= b * K)%Z) by lia.
  assert (H2 : ((a * N + 1) * (b * M) <= b * K * (b * M))%Z).
  { apply Z.mul_le_mono_nonneg_r; [nia | exact H1]. }
  assert (H3 : (b * N <= b * M)%Z) by nia.
  nia.
Qed.

(** The percentage of [k] out of [n] exceeds a threshold [t = 100 a / b]
    exactly when [k / n > a / b], as long as [n] is an array length: the two
    roundings cannot carry a quotient across the threshold, because
    quotients of integers below [2^32] that differ from [a / b] are at least
    [1 / (b 2^32)] away from it. *)
Lemma percentage_threshold (t : Q) (a b : positive) (k n : nat) :
  fl (fl (Zpos a # b) * 100) <= t ->
  t < fl (fl ((Zpos a # b) + (1 # (b * 2 ^ 32))) * 100) ->
  (0 < n)%nat -> (Z.of_nat n < 2 ^ 32)%Z ->
  gtb (mul (div (of_nat k) (of_nat n)) 100) t
  = (Z.pos a * Z.of_nat n <? Z.pos b * Z.of_nat k)%Z.
Proof.
  intros Hlo Hhi Hn Hn32.
  unfold mul, div, of_nat.
  set (K := Z.of_nat k). set (N := Z.of_nat n).
  assert (HK : (0 <= K)%Z) by (unfold K; lia).
  assert (HN : (0 < N < 2 ^ 32)%Z).
  { unfold N. split; [lia | exact Hn32]. }
  assert (HNq : 0 < inject_Z N) by (rewrite <- (Zlt_Qlt 0); lia).
  assert (Hx0 : 0 <= inject_Z K / inject_Z N).
  { apply Qle_shift_div_l; [exact HNq|]. rewrite Qmult_0_l. rewrite <- (Zle_Qle 0). exact HK. }
  destruct (Z.ltb_spec (Z.pos a * N) (Z.pos b * K)) as [Hgt|Hle].
  - apply gtb_true.
    assert (Hx : (Zpos a # b) + (1 # (b * 2 ^ 32)) <= inject_Z K / inject_Z N).
    { apply Qle_shift_div_l; [exact HNq|].
      cbv [Qle Qplus Qmult inject_Z Qnum Qden].
      rewrite !Pos2Z.inj_mul, !Z.mul_1_r.
      apply Z_gap; [lia | | exact Hgt].
      change (Z.pos (2 ^ 32)) with (2 ^ 32)%Z. lia. }
    assert (H0 : 0 <= (Zpos a # b) + (1 # (b * 2 ^ 32))).
    { cbv [Qle Qplus Qmult inject_Z Qnum Qden]. lia. }
    pose proof (fl_mono H0 Hx) as H1.
    assert (H2 : fl ((Zpos a # b) + (1 # (b * 2 ^ 32))) * 100
                 <= fl (inject_Z K / inject_Z N) * 100) by lra.
    assert (H3 : 0 <= fl ((Zpos a # b) + (1 # (b * 2 ^ 32))) * 100).
    { pose proof (fl_nonneg H0). lra. }
    pose proof (fl_mono H3 H2). lra.
  - apply gtb_false.
    assert (Hx : inject_Z K / inject_Z N <= Zpos a # b).
    { apply Qle_shift_div_r; [exact HNq|].
      cbv [Qle Qplus Qmult inject_Z Qnum Qden]. lia. }
    pose proof (fl_mono Hx0 Hx) as H1.
    pose proof (fl_nonneg Hx0) as H0.
    assert (H2 : fl (inject_Z K / inject_Z N) * 100 <= fl (Zpos a # b) * 100) by lra.
    assert (H3 : 0 <= fl (inject_Z K / inject_Z N) * 100) by lra.
    pose proof (fl_mono H3 H2). lra.
Qed.

Lemma percentage_gt_30 (k n : nat) :
  (0 < n)%nat -> (Z.of_nat n < 2 ^ 32)%Z ->
  gtb (mul (div (of_nat k) (of_nat n)) 100) 30
  = (30 * Z.of_nat n <? 100 * Z.of_nat k)%Z.
Proof.
  intros Hn Hn32.
  rewrite (@percentage_threshold 30 3 10 k n); [| | | exact Hn | exact Hn32].
  - destruct (Z.ltb_spec (3 * Z.of_nat n) (10 * Z.of_nat k));
      destruct (Z.ltb_spec (30 * Z.of_nat n) (100 * Z.of_nat k)); try reflexivity; lia.
  - vm_compute. discriminate.
  - vm_compute. reflexivity.
Qed.

Lemma percentage_gt_15 (k n : nat) :
  (0 < n)%nat -> (Z.of_nat n < 2 ^ 32)%Z ->
  gtb (mul (div (of_nat k) (of_nat n)) 100) 15
  = (15 * Z.of_nat n <? 100 * Z.of_nat k)%Z.
Proof.
  intros Hn Hn32.
  rewrite (@percentage_threshold 15 3 20 k n); [| | | exact Hn | exact Hn32].
  - destruct (Z.ltb_spec (3 * Z.of_nat n) (20 * Z.of_nat k));
      destruct (Z.ltb_spec (15 * Z.of_nat n) (100 * Z.of_nat k)); try reflexivity; lia.
  - vm_compute. discriminate.
  - vm_compute. reflexivity.
Qed.

(** The model computes what the primitive binary64 floats of the kernel
    compute, on every count of out-of-range entries in lists of up to 100
    entries. *)
Lemma percentage_agrees_with_primitive_floats :
  forallb
    (fun n =>
       forallb
         (fun k =>
            match prim_percentage k n with
            | Some q => Qeq_bool q (mul (div (of_nat k) (of_nat n)) 100)
            | None => false
            end)
         (seq 0 (S n)))
    (seq 1 100)
  = true.
Proof. vm_compute. reflexivity. Qed.

End Binary64Facts.


(* ================================================================== *)
(** ** The upload pipeline *)
(* ================================================================== *)

Module PipelineFacts.

Import Js Model Task AgentService ExtractionController Policy Trace.

(** *** The risk level *)

Lemma countOutOfRange_from (tests : list Test) (n : nat) :
  fold_left (fun n t => if isOutOfRange t then S n else n) tests n
  = n + List.length (filter isOutOfRange tests).
Proof.
  revert n. induction tests as [|t tests IH]; intros n; simpl.
  - lia.
  - rewrite IH. destruct (isOutOfRange t); simpl; lia.
Qed.

Lemma countOutOfRange_filter (tests : list Test) :
  countOutOfRange tests = List.length (filter isOutOfRange tests).
Proof. unfold countOutOfRange. rewrite countOutOfRange_from. reflexivity. Qed.

Lemma ltb_nat_Z (a b : nat) :
  (Z.of_nat a <? Z.of_nat b)%Z = Nat.ltb a b.
Proof.
  destruct (Nat.ltb_spec a b); destruct (Z.ltb_spec (Z.of_nat a) (Z.of_nat b));
    try reflexivity; lia.
Qed.

(** [determineRiskLevel], computed on binary64 numbers, implements the
    policy, computed on integers, for every record that fits in an array. *)
Lemma determineRiskLevel_policy (d : ExtractedData) :
  (Z.of_nat (List.length (testEntries d)) < 2 ^ 32)%Z ->
  determineRiskLevel d
  = riskPolicy (List.length (filter isOutOfRange (testEntries d)))
               (List.length (testEntries d)).
Proof.
  unfold determineRiskLevel, testEntries, riskPolicy.
  destruct (getArray "tests" d) as [tests|]; [|reflexivity].
  intros Hlen. rewrite countOutOfRange_filter.
  set (k := List.length (filter isOutOfRange tests)).
  set (n := List.length tests) in *.
  destruct (Nat.eqb_spec n 0) as [E|NE]; [reflexivity|].
  rewrite Binary64Facts.percentage_gt_30, Binary64Facts.percentage_gt_15
    by (lia || assumption).
  rewrite <- !ltb_nat_Z, !Nat2Z.inj_mul. reflexivity.
Qed.

(** *** Case analysis on a run *)

Lemma precedes_here (a b : Event) (l : list Event) :
  In b l -> precedes a b (a :: l).
Proof.
  intros H. apply in_split in H as (l1 & l2 & ->).
  exists [], l1, l2. reflexivity.
Qed.

Lemma precedes_later (a b x : Event) (l : list Event) :
  precedes a b l -> precedes a b (x :: l).
Proof.
  intros (l1 & l2 & l3 & ->). exists (x :: l1), l2, l3. reflexivity.
Qed.

Ltac solve_precedes :=
  repeat first [ solve [apply precedes_here; simpl; tauto]
               | apply precedes_later ].

Lemma Report_create_ok db userID name kind d s r risk db1 report :
  Report_create db userID name kind d s r risk = Fulfilled (db1, report) ->
  reports db1 = reports db ++ [report]
  /\ vaults db1 = vaults db /\ chats db1 = chats db
  /\ report = mkReport (nextId db) userID (option_map trim name)
                (reportKind report) d (trim s) (trim r) risk.
Proof.
  unfold Report_create. destruct kind; try discriminate.
  destruct (inEnum _ _); [|discriminate].
  intros H. injection H as <- <-. simpl. auto.
Qed.

Lemma updateUserVault_ok db userID now f rid name db2 :
  updateUserVault db userID now f rid name = Fulfilled db2 ->
  reports db2 = reports db /\ chats db2 = chats db.
Proof.
  unfold updateUserVault. destruct (_ && _); [|discriminate].
  intros H. injection H as <-. simpl. auto.
Qed.

(** Splits a goal about [uploadReport] on everything the run depends on:
    the outcome of each stage, the order in which the two insight calls
    settle, and the two database writes. *)
Ltac run_upload :=
  unfold uploadReport, processComplete, bind, await, emit, ret, promiseAll;
  repeat
    (match goal with
     | |- context [extractData ?w ?p] =>
         destruct (extractData w p) as [?er|?e] eqn:?HE
     | |- context [summarySettlesFirst ?w] =>
         destruct (summarySettlesFirst w) eqn:?HO
     | |- context [generateSummary ?w ?p] =>
         destruct (generateSummary w p) as [?s|?e] eqn:?HS
     | |- context [generateRecommendations ?w ?p] =>
         destruct (generateRecommendations w p) as [?r|?e] eqn:?HR
     | |- context [processWithVaultAgent ?w ?p] =>
         destruct (processWithVaultAgent w p) as [?v|?e] eqn:?HV
     | |- context [Report_create ?a1 ?a2 ?a3 ?a4 ?a5 ?a6 ?a7 ?a8] =>
         destruct (Report_create a1 a2 a3 a4 a5 a6 a7 a8)
           as [[?db1 ?report]|?e] eqn:?HC
     | |- context [updateUserVault ?a1 ?a2 ?a3 ?a4 ?a5 ?a6] =>
         destruct (updateUserVault a1 a2 a3 a4 a5 a6) as [?db2|?e] eqn:?HU
     end; cbn [isFulfilled app fst snd]);
  cbv beta iota zeta.

Lemma length_not_extended {A} (l : list A) (x : A) : l <> l ++ [x].
Proof.
  intros H. apply (f_equal (@List.length A)) in H.
  rewrite length_app in H. simpl in H. lia.
Qed.

(** A report that a run adds to the collection carries the risk level of
    its own extracted data. *)
Lemma uploadReport_new_report (w : World) (db : Db) (req : UploadRequest)
  (report : Report) :
  reports (fst (fst (uploadReport w db req))) = reports db ++ [report] ->
  riskLevel report = determineRiskLevel (extractedData report).
Proof.
  unfold uploadReport.
  destruct (file req) as [f|].
  2:{ simpl. intros H. exfalso. exact (@length_not_extended _ _ _ H). }
  run_upload.
  all: cbn [fst snd]; intros H.
  all: try (exfalso; exact (@length_not_extended _ _ _ H)).
  all: apply Report_create_ok in HC as (Hr & _ & _ & Hrep).
  all: try (apply updateUserVault_ok in HU as (Hr2 & _); rewrite Hr2 in H).
  all: rewrite Hr in H; apply app_inj_tail in H as [_ <-].
  all: rewrite Hrep; reflexivity.
Qed.

(** Uploads never touch the chat sessions. *)
Lemma uploadReport_chats (w : World) (db : Db) (req : UploadRequest) :
  chats (fst (fst (uploadReport w db req))) = chats db.
Proof.
  unfold uploadReport.
  destruct (file req) as [f|]; [|reflexivity].
  run_upload.
  all: cbn [fst snd]; try reflexivity.
  all: apply Report_create_ok in HC as (_ & _ & Hc & _).
  all: try (apply updateUserVault_ok in HU as (_ & Hc2); rewrite Hc2).
  all: exact Hc.
Qed.

(** *** The risk level of a [tests] array *)

(** X27.  The risk level of every Report that an upload persists follows
    the policy on the entries of the [tests] array of its record: [Unknown]
    for no entry; otherwise [High] when more than 30% of the entries are out
    of range, [Medium] when more than 15% but not more than 30% are,
    [Normal] otherwise.  The bound on the number of entries is the one every
    JavaScript array satisfies. *)
Theorem persisted_risk_level (w : World) (db : Db) (req : UploadRequest)
  (report : Report) :
  reports (fst (fst (uploadReport w db req))) = reports db ++ [report] ->
  let tests := testEntries (extractedData report) in
  (Z.of_nat (List.length tests) < 2 ^ 32)%Z ->
  riskLevel report
  = riskPolicy (List.length (filter isOutOfRange tests)) (List.length tests).
Proof.
  intros Hnew tests Hlen.
  rewrite (uploadReport_new_report _ _ _ _ Hnew).
  apply determineRiskLevel_policy. exact Hlen.
Qed.

(** The end-to-end scenario: one entry, flagged, hence 100% and [High]. *)
Lemma persisted_risk_level_witness :
  let report :=
    mkReport 0%N 7%N (Some (str "Jane Doe")) (str "Blood Test") Examples.labData
             (str "Low hemoglobin.") (str "See a doctor.") High in
  reports (Examples.dbWithReport (str "See a doctor.")) = [report]
  /\ riskLevel report = riskPolicy 1 1.
Proof.
  assert (H : reports (fst (fst (uploadReport
                         (Examples.labWorld (str "Low hemoglobin.")
                                            (str "See a doctor."))
                         System.emptyDb Examples.upload)))
              = reports System.emptyDb ++
                [mkReport 0%N 7%N (Some (str "Jane Doe")) (str "Blood Test")
                   Examples.labData (str "Low hemoglobin.")
                   (str "See a doctor.") High])
    by (vm_compute; reflexivity).
  split.
  - exact H.
  - apply (persisted_risk_level _ _ _ _ H). vm_compute. reflexivity.
Defined.

(** *** C2 *)

(** C2.  In a run whose extraction succeeded, if the summary generation or
    the recommendations generation fails then the database is left as it
    was, the response is an error, no Report is created and the vault agent
    is not run; and a run that adds a Report is one in which both
    generations succeeded. *)
Theorem narrative_failure_persists_nothing
  (w : World) (db : Db) (req : UploadRequest) (f : UploadedFile)
  (er : ExtractionResult) :
  file req = Some f ->
  extractData w (path f) = Fulfilled er ->
  let '(db', response, tr) := uploadReport w db req in
  (isFulfilled (generateSummary w (jsonPath er)) = false
   \/ isFulfilled (generateRecommendations w (jsonPath er)) = false ->
   db' = db
   /\ statusCode response = 500
   /\ (forall id, ~ In (ReportCreated id) tr)
   /\ ~ In VaultAgentStarted tr)
  /\ (reports db' <> reports db ->
      isFulfilled (generateSummary w (jsonPath er)) = true
      /\ isFulfilled (generateRecommendations w (jsonPath er)) = true).
Proof.
  intros Hf HE0.
  unfold uploadReport, processComplete, bind, await.
  rewrite Hf, HE0. cbn [isFulfilled app fst snd].
  run_upload.
  all: split; [intros Hfail | intros Hnew].
  all: try (destruct Hfail; discriminate).
  all: try (split; reflexivity).
  all: try (exfalso; apply Hnew; reflexivity).
  all: repeat split; try reflexivity.
  all: simpl; intuition discriminate.
Qed.

(** A fault-injected summary generator: the run answers 500 and the
    database stays empty. *)
Lemma narrative_failure_witness :
  file Examples.upload = Some Examples.pdf
  /\ let '(db', response, tr) :=
       uploadReport Examples.quotaWorld System.emptyDb Examples.upload in
     db' = System.emptyDb /\ statusCode response = 500.
Proof.
  split; [reflexivity|].
  pose proof (@narrative_failure_persists_nothing Examples.quotaWorld
                System.emptyDb Examples.upload Examples.pdf
                (mkExtractionResult Examples.labData (str "out/report.json")
                                    (Some (str "Jane Doe")) 1)
                eq_refl eq_refl) as H.
  destruct (uploadReport Examples.quotaWorld System.emptyDb Examples.upload)
    as [[db' response] tr].
  destruct H as [H _].
  destruct H as (Hdb & Hcode & _); [left; vm_compute; reflexivity|].
  split; assumption.
Defined.

(** *** C8 *)

(** C8.  In the trace of every run: each insight generation starts after
    the extraction settled successfully; the vault agent starts, and the
    vault is updated, only after both insight generations settled
    successfully; and when the extraction fails, no insight generation and
    no vault agent runs, no Report is created and the database is left as
    it was. *)
Theorem stage_order (w : World) (db : Db) (req : UploadRequest) :
  let '(db', response, tr) := uploadReport w db req in
  (In SummaryStarted tr -> precedes (ExtractionSettled true) SummaryStarted tr)
  /\ (In RecommendationStarted tr ->
      precedes (ExtractionSettled true) RecommendationStarted tr)
  /\ (In VaultAgentStarted tr ->
      precedes (SummarySettled true) VaultAgentStarted tr
      /\ precedes (RecommendationSettled true) VaultAgentStarted tr)
  /\ (In VaultUpdated tr ->
      precedes (SummarySettled true) VaultUpdated tr
      /\ precedes (RecommendationSettled true) VaultUpdated tr)
  /\ (In (ExtractionSettled false) tr ->
      ~ In SummaryStarted tr /\ ~ In RecommendationStarted tr
      /\ ~ In VaultAgentStarted tr
      /\ (forall id, ~ In (ReportCreated id) tr)
      /\ db' = db).
Proof.
  unfold uploadReport.
  destruct (file req) as [f|].
  2:{ simpl. intuition discriminate. }
  run_upload.
  all: repeat match goal with |- _ /\ _ => split end.
  all: try (intros _; solve_precedes; fail).
  all: try (intros _; split; solve_precedes; fail).
  all: simpl; intuition discriminate.
Qed.

(** *** C9 *)

(** What the insight agents are accepted on: the process exits with code 0,
    prints no [ERROR:] marker, prints an [OUTPUT_FILE:] marker, and the file
    it names exists.  The content of the file is not looked at. *)
Lemma readAgentOutput_accepts (w : World) (out err content : jsstring)
  (noPath notFound : string) (rejectEmpty : bool) :
  includes out (str "ERROR:") = false ->
  includes out (str "OUTPUT_FILE:") = true ->
  (rejectEmpty = true ->
   truthy (firstLine (afterMarker "OUTPUT_FILE:" out)) = true) ->
  readFile w (firstLine (afterMarker "OUTPUT_FILE:" out)) = Some content ->
  readAgentOutput w (Closed 0 out err) noPath notFound rejectEmpty
  = Fulfilled (mkNarrative content (firstLine (afterMarker "OUTPUT_FILE:" out))).
Proof.
  intros HE HO HP HR. unfold readAgentOutput, _runPythonScript.
  cbn [Z.eqb]. rewrite HE, HO. cbn [negb].
  destruct rejectEmpty; cbn [andb].
  - rewrite (HP eq_refl). cbn [negb]. rewrite HR. reflexivity.
  - rewrite HR. reflexivity.
Qed.

(** C9, as the code has it.  An insight generation whose agent exits with
    code 0, prints no [ERROR:] marker and names an existing file is accepted
    with whatever text the file holds, blank or not; when the other stages
    succeed too the run answers 201 and persists a Report whose summary and
    recommendations are those texts, trimmed. *)
Theorem narrative_text_is_not_checked
  (w : World) (db : Db) (req : UploadRequest) (f : UploadedFile)
  (er : ExtractionResult) (v : VaultResult)
  (outS errS outR errR summaryText recommendationsText kind : jsstring) :
  let summaryFile := firstLine (afterMarker "OUTPUT_FILE:" outS) in
  let recommendationsFile := firstLine (afterMarker "OUTPUT_FILE:" outR) in
  file req = Some f ->
  extractData w (path f) = Fulfilled er ->
  summaryAgent w (jsonPath er) = Closed 0 outS errS ->
  includes outS (str "ERROR:") = false ->
  includes outS (str "OUTPUT_FILE:") = true ->
  readFile w summaryFile = Some summaryText ->
  recommendationAgent w (jsonPath er) = Closed 0 outR errR ->
  includes outR (str "ERROR:") = false ->
  includes outR (str "OUTPUT_FILE:") = true ->
  truthy recommendationsFile = true ->
  readFile w recommendationsFile = Some recommendationsText ->
  processWithVaultAgent w (path f) = Fulfilled v ->
  reportTypeOr (reportType (data er)) = VStr kind ->
  inEnum (trim kind) reportTypeEnum = true ->
  truthy (trim (originalname f)) = true ->
  truthy (trim (path f)) = true ->
  generateSummary w (jsonPath er)
  = Fulfilled (mkNarrative summaryText summaryFile)
  /\ generateRecommendations w (jsonPath er)
     = Fulfilled (mkNarrative recommendationsText recommendationsFile)
  /\ exists report,
       let '(db', response, tr) := uploadReport w db req in
       reports db' = reports db ++ [report]
       /\ statusCode response = 201
       /\ summary report = trim summaryText
       /\ recommendations report = trim recommendationsText.
Proof.
  intros summaryFile recommendationsFile Hf HE HSA HS1 HS2 HS3 HRA HR1 HR2 HR3
         HR4 HV HK HEnum HName HPath.
  assert (HS : generateSummary w (jsonPath er)
               = Fulfilled (mkNarrative summaryText summaryFile)).
  { unfold generateSummary. rewrite HSA.
    rewrite (@readAgentOutput_accepts w outS errS summaryText); auto.
    discriminate. }
  assert (HR : generateRecommendations w (jsonPath er)
               = Fulfilled (mkNarrative recommendationsText recommendationsFile)).
  { unfold generateRecommendations. rewrite HRA.
    rewrite (@readAgentOutput_accepts w outR errR recommendationsText); auto. }
  split; [exact HS|]. split; [exact HR|].
  unfold uploadReport, processComplete, bind, await, emit, ret, promiseAll.
  rewrite Hf, HE, HS, HR, HV.
  destruct (summarySettlesFirst w);
    cbn [isFulfilled app fst snd text resultData resultSummary
         resultRecommendations resultPatientName];
    rewrite HK; unfold Report_create; rewrite HEnum;
    unfold updateUserVault; cbn [nextId vaults reports chats];
    rewrite HName, HPath; cbn [andb];
    eexists; cbn [reports statusCode summary recommendations];
    repeat split; reflexivity.
Qed.

(** The claim as stated fails: the summary agent writes a file of three
    spaces, [generateSummary] returns them, the run answers 201 and the
    Report is persisted with an empty summary. *)
Lemma blank_narrative_is_persisted :
  let w := Examples.labWorld (str "   ") (str "See a doctor.") in
  generateSummary w (str "out/report.json")
  = Fulfilled (mkNarrative (str "   ") (str "/out/summary.txt"))
  /\ trim (str "   ") = []
  /\ let '(db', response, tr) :=
       uploadReport w System.emptyDb Examples.upload in
     statusCode response = 201
     /\ List.map summary (reports db') = [[]].
Proof. vm_compute. repeat split; reflexivity. Qed.

Lemma narrative_text_is_not_checked_witness :
  let w := Examples.labWorld [] (str "See a doctor.") in
  generateSummary w (str "out/report.json")
  = Fulfilled (mkNarrative [] (str "/out/summary.txt"))
  /\ exists report,
       reports (fst (fst (uploadReport w System.emptyDb Examples.upload)))
       = [report]
       /\ summary report = [].
Proof.
  destruct (@narrative_text_is_not_checked
              (Examples.labWorld [] (str "See a doctor."))
              System.emptyDb Examples.upload Examples.pdf
              (mkExtractionResult Examples.labData (str "out/report.json")
                                  (Some (str "Jane Doe")) 1)
              (mkVaultResult (Some (str "Jane Doe")) (str "vault/Jane Doe")
                             true 1)
              (str "OUTPUT_FILE:/out/summary.txt" ++ [10%N]) []
              (str "OUTPUT_FILE:/out/recommendations.txt" ++ [10%N]) []
              [] (str "See a doctor.") (str "Blood Test"))
    as (HS & _ & report & H);
    try (vm_compute; reflexivity).
  split; [exact HS|].
  exists report.
  destruct (uploadReport (Examples.labWorld [] (str "See a doctor."))
                         System.emptyDb Examples.upload)
    as [[db' response] tr].
  destruct H as (Hr & _ & Hs & _).
  split; [exact Hr | exact Hs].
Defined.

End PipelineFacts.


(* ================================================================== *)
(** ** Strings *)
(* ================================================================== *)

Module JsFacts.

Import Js Grouping.

Lemma eqb_eq (a b : jsstring) : eqb a b = true <-> a = b.
Proof.
  unfold eqb. destruct (list_eq_dec N.eq_dec a b); split; congruence.
Qed.

Lemma eqb_refl (a : jsstring) : eqb a a = true.
Proof. apply eqb_eq. reflexivity. Qed.

Lemma eqb_neq (a b : jsstring) : eqb a b = false <-> a <> b.
Proof.
  unfold eqb. destruct (list_eq_dec N.eq_dec a b); split; congruence.
Qed.

Lemma truthy_nonempty (s : jsstring) : truthy s = true <-> s <> [].
Proof. destruct s; simpl; split; congruence. Qed.

Lemma trimStart_blank (w s : jsstring) :
  blank w -> trimStart (w ++ s) = trimStart s.
Proof.
  induction 1 as [|c w Hc _ IH]; simpl; [reflexivity|].
  rewrite Hc. exact IH.
Qed.

Lemma trimStart_all_blank (w : jsstring) : blank w -> trimStart w = [].
Proof.
  intros H. rewrite <- (app_nil_r w). rewrite trimStart_blank by exact H.
  reflexivity.
Qed.

Lemma blank_rev (w : jsstring) : blank w -> blank (rev w).
Proof. apply Forall_rev. Qed.

Lemma trimEnd_blank (s w : jsstring) :
  blank w -> trimEnd (s ++ w) = trimEnd s.
Proof.
  intros H. unfold trimEnd.
  rewrite rev_app_distr, trimStart_blank by (apply blank_rev, H).
  reflexivity.
Qed.

(** Leading and trailing white space does not survive [trim]. *)
Lemma trim_padded (before s after : jsstring) :
  blank before -> blank after -> trim (before ++ s ++ after) = trim s.
Proof.
  intros Hb Ha. unfold trim. rewrite trimStart_blank by exact Hb.
  induction s as [|c s IH]; simpl.
  - rewrite trimStart_all_blank by exact Ha. reflexivity.
  - destruct (isWhiteSpace c); [exact IH|].
    rewrite app_comm_cons. apply trimEnd_blank, Ha.
Qed.

Lemma trimStart_keeps_last (l : jsstring) (c : N) :
  isWhiteSpace c = false -> trimStart (l ++ [c]) <> [].
Proof.
  intros Hc. induction l as [|x l IH]; simpl.
  - rewrite Hc. discriminate.
  - destruct (isWhiteSpace x); [exact IH | discriminate].
Qed.

(** A string that starts with a visible character is not emptied by
    [trim]. *)
Lemma trim_visible_head (c : N) (s : jsstring) :
  isWhiteSpace c = false -> truthy (trim (c :: s)) = true.
Proof.
  intros Hc. apply truthy_nonempty. unfold trim. simpl. rewrite Hc.
  unfold trimEnd. simpl. intros H.
  apply (f_equal (@rev N)) in H. rewrite rev_involutive in H. simpl in H.
  exact (@trimStart_keeps_last _ _ Hc H).
Qed.

End JsFacts.


(* ================================================================== *)
(** ** Grouping vault files by owner *)
(* ================================================================== *)

Module VaultFacts.

Import Js Model VaultController Grouping JsFacts.

Lemma mapGet_mapSet_eq {V} (key : jsstring) (v : V) (m : StringMap V) :
  mapGet key (mapSet key v m) = Some v.
Proof.
  induction m as [|[k v0] m IH]; simpl.
  - rewrite eqb_refl. reflexivity.
  - destruct (eqb k key) eqn:E; simpl; rewrite E; [reflexivity | exact IH].
Qed.

Lemma mapGet_mapSet_neq {V} (key key' : jsstring) (v : V) (m : StringMap V) :
  key <> key' -> mapGet key' (mapSet key v m) = mapGet key' m.
Proof.
  intros Hne. induction m as [|[k v0] m IH]; simpl.
  - destruct (eqb key key') eqn:E; [apply eqb_eq in E; contradiction | reflexivity].
  - destruct (eqb k key) eqn:E; simpl.
    + apply eqb_eq in E. subst k.
      destruct (eqb key key') eqn:E'; [apply eqb_eq in E'; contradiction | reflexivity].
    + destruct (eqb k key'); [reflexivity | exact IH].
Qed.

Lemma mapGet_value {V} (key : jsstring) (v : V) (m : StringMap V) :
  mapGet key m = Some v -> In v (mapValues m).
Proof.
  induction m as [|[k v0] m IH]; simpl; [discriminate|].
  destruct (eqb k key); [intros [= ->]; left; reflexivity | right; auto].
Qed.

Lemma insertByDate_In (f x : VaultFile) (l : list VaultFile) :
  In f (insertByDate x l) <-> f = x \/ In f l.
Proof.
  induction l as [|g l IH]; simpl.
  - intuition congruence.
  - destruct (uploadDate x <? uploadDate g)%Z; simpl; rewrite ?IH;
      intuition congruence.
Qed.

(** Sorting a bucket keeps its files. *)
Lemma sortByDateDesc_In (f : VaultFile) (l : list VaultFile) :
  In f (sortByDateDesc l) <-> In f l.
Proof.
  induction l as [|x l IH]; simpl; [tauto|].
  rewrite insertByDate_In, IH. intuition congruence.
Qed.

Section WithCaseMapping.

Variable toLowerCase : jsstring -> jsstring.

Lemma addFile_files_new (m : StringMap Group) (f : VaultFile) :
  filed toLowerCase (addFile toLowerCase m f) f.
Proof.
  unfold filed, addFile. rewrite mapGet_mapSet_eq.
  eexists. split; [reflexivity|]. simpl. apply in_or_app. right. left. reflexivity.
Qed.

Lemma addFile_keeps_filed (m : StringMap Group) (f x : VaultFile) :
  filed toLowerCase m f -> filed toLowerCase (addFile toLowerCase m x) f.
Proof.
  intros (g & Hg & Hin). unfold filed, addFile.
  destruct (list_eq_dec N.eq_dec (bucketKey toLowerCase x)
                        (bucketKey toLowerCase f)) as [E|NE].
  - rewrite E, mapGet_mapSet_eq, Hg.
    eexists. split; [reflexivity|]. simpl. apply in_or_app. left. exact Hin.
  - rewrite mapGet_mapSet_neq by exact NE. exists g. auto.
Qed.

Lemma collect_files (files : list VaultFile) (m : StringMap Group)
  (f : VaultFile) :
  In f files \/ filed toLowerCase m f ->
  filed toLowerCase (fold_left (addFile toLowerCase) files m) f.
Proof.
  revert m. induction files as [|x files IH]; intros m H; simpl.
  - destruct H as [[]|H]. exact H.
  - apply IH. destruct H as [[->|H]|H].
    + right. apply addFile_files_new.
    + left. exact H.
    + right. apply addFile_keeps_filed, H.
Qed.

(** Files with the same key end in the same bucket of the result. *)
Lemma same_key_same_bucket (files : list VaultFile) (f1 f2 : VaultFile) :
  In f1 files -> In f2 files ->
  bucketKey toLowerCase f1 = bucketKey toLowerCase f2 ->
  exists bucket,
    In bucket (groupFilesByPatient toLowerCase files)
    /\ In f1 (pvFiles bucket) /\ In f2 (pvFiles bucket).
Proof.
  intros H1 H2 Hk.
  destruct (@collect_files files [] f1 (or_introl H1)) as (g1 & Hg1 & Hin1).
  destruct (@collect_files files [] f2 (or_introl H2)) as (g2 & Hg2 & Hin2).
  rewrite Hk, Hg2 in Hg1. injection Hg1 as <-.
  exists (summarize g2). split.
  - unfold groupFilesByPatient. apply in_map. eapply mapGet_value, Hg2.
  - simpl. rewrite !sortByDateDesc_In. auto.
Qed.

Lemma nameless_displayName (f : VaultFile) :
  nameless f -> displayName f = str "Unlabeled Patient".
Proof. intros [H|H]; unfold displayName; rewrite H; reflexivity. Qed.

Lemma nameless_same_key (f f' : VaultFile) :
  nameless f -> nameless f' ->
  bucketKey toLowerCase f = bucketKey toLowerCase f'.
Proof.
  intros H H'. unfold bucketKey.
  rewrite (nameless_displayName H), (nameless_displayName H'). reflexivity.
Qed.

End WithCaseMapping.

End VaultFacts.


(* ================================================================== *)
(** ** Chat sessions *)
(* ================================================================== *)

Module ChatFacts.

Import Js Model Task Chatbot History Turn JsFacts.

(** *** Histories *)

Create HintDb history discriminated.
#[local] Hint Constructors Exchanges Forall : history.

Lemma Exchanges_app (a b : list ChatMessage) :
  Exchanges a -> Exchanges b -> Exchanges (a ++ b).
Proof.
  induction 1 as [|u r rest Hu Hr _ IH]; intros Hb; simpl.
  - exact Hb.
  - constructor; auto.
Qed.

Lemma Exchanges_length (t : list ChatMessage) :
  Exchanges t -> exists k, List.length t = 2 * k.
Proof.
  induction 1 as [|u r rest _ _ _ [k IH]].
  - exists 0. reflexivity.
  - exists (S k). simpl. lia.
Qed.

Lemma Exchanges_skip2 (t : list ChatMessage) :
  Exchanges t -> Exchanges (skipn 2 t).
Proof. destruct 1; simpl; auto with history. Qed.

#[local] Hint Resolve Exchanges_app Exchanges_skip2 : history.

Lemma Paired_parity (seeds : nat) (h : list ChatMessage) :
  Paired seeds h ->
  exists intro turns,
    h = intro ++ turns
    /\ Forall (fun m => role m = assistant) intro
    /\ List.length intro <= seeds
    /\ Exchanges turns
    /\ Nat.even (List.length h) = Nat.even (List.length intro).
Proof.
  intros (intro & turns & -> & Hfa & Hlen & Hex).
  exists intro, turns. repeat split; try assumption.
  destruct (Exchanges_length Hex) as [k Hk].
  rewrite length_app, Hk, Nat.even_add_mul_2. reflexivity.
Qed.

(** [slice(-n)] keeps a suffix and drops what exceeds [n] entries. *)
Lemma sliceLast_suffix {A} (n : nat) (l : list A) :
  exists dropped,
    l = dropped ++ sliceLast n l
    /\ List.length dropped = List.length l - n.
Proof.
  exists (firstn (List.length l - n) l). split.
  - unfold sliceLast. symmetry. apply firstn_skipn.
  - rewrite length_firstn. lia.
Qed.

Lemma sliceLast_length {A} (n : nat) (l : list A) :
  List.length (sliceLast n l) = Nat.min n (List.length l).
Proof. unfold sliceLast. rewrite length_skipn. lia. Qed.

(** The history kept after a turn: the branch on [length > 20] of
    [sendMessage]. *)
Lemma truncation_suffix (h2 : list ChatMessage) :
  let h3 := if Nat.ltb 20 (List.length h2) then sliceLast 20 h2 else h2 in
  exists dropped,
    h2 = dropped ++ h3
    /\ List.length dropped = List.length h2 - 20
    /\ List.length h3 <= 20.
Proof.
  simpl. destruct (Nat.ltb_spec 20 (List.length h2)) as [Hlt|Hle].
  - destruct (sliceLast_suffix 20 h2) as (dropped & Hd & Hl).
    exists dropped. rewrite sliceLast_length. repeat split; try assumption. lia.
  - exists []. repeat split; [simpl; lia | exact Hle].
Qed.

(** A turn keeps the shape of the history: the introduction is dropped
    before any exchange is, and an exchange is dropped whole. *)
Lemma turn_keeps_paired (seeds : nat) (h : list ChatMessage)
  (u a : ChatMessage) :
  seeds <= 2 -> Paired seeds h -> List.length h <= 20 ->
  role u = user -> role a = assistant ->
  let h2 := h ++ [u; a] in
  let h3 := if Nat.ltb 20 (List.length h2) then sliceLast 20 h2 else h2 in
  Paired seeds h3.
Proof.
  intros Hseeds (intro & turns & -> & Hfa & Hlen & Hex) Hbound Hu Ha.
  cbv zeta. rewrite <- app_assoc.
  assert (Hex' : Exchanges (turns ++ [u; a])) by auto with history.
  destruct (Exchanges_length Hex') as [k Hk].
  assert (Hle22 : List.length intro + 2 * k <= 22).
  { rewrite <- Hk. rewrite !length_app in *. simpl. lia. }
  set (turns' := turns ++ [u; a]) in *.
  destruct (Nat.ltb_spec 20 (List.length (intro ++ turns'))) as [Hlt|Hle].
  - unfold sliceLast. rewrite length_app, Hk in *.
    destruct intro as [|i1 [|i2 [|i3 intro]]]; simpl in Hlt, Hlen, Hle22.
    + replace (List.length [] + 2 * k - 20) with 2 by (simpl; lia).
      exists [], (skipn 2 turns'). cbn [app List.length].
      repeat split; auto with history; lia.
    + replace (List.length [i1] + 2 * k - 20) with 1 by (simpl; lia).
      exists [], turns'. simpl.
      repeat split; auto with history; lia.
    + replace (List.length [i1; i2] + 2 * k - 20) with 2 by (simpl; lia).
      exists [], turns'. simpl.
      repeat split; auto with history; lia.
    + lia.
  - exists intro, turns'. repeat split; assumption.
Qed.

(** *** Seeded messages *)

Lemma chatMessage_visible (r : Role) (prefix : string) (rest : jsstring)
  (now : Z) :
  (exists c tail, str prefix = c :: tail /\ isWhiteSpace c = false) ->
  truthy (message (chatMessage r (str prefix ++ rest) now)) = true.
Proof.
  intros (c & tail & -> & Hc). simpl. apply trim_visible_head, Hc.
Qed.

Lemma _buildInitialMessages_seeds (report : Report) (now : Z) :
  let seeds := _buildInitialMessages report now in
  Forall (fun m => role m = assistant) seeds
  /\ List.length seeds <= 2
  /\ validHistory seeds = true.
Proof.
  unfold _buildInitialMessages.
  set (s := chatMessage assistant
              (str "Here is the report summary:" ++ [10%N] ++ summary report)
              now).
  set (r := chatMessage assistant (str "Recommended next steps:" ++ _) now).
  assert (Hs : truthy (message s) = true)
    by (apply chatMessage_visible; vm_compute; eauto).
  assert (Hr : truthy (message r) = true)
    by (apply chatMessage_visible; vm_compute; eauto).
  assert (Hrs : role s = assistant) by reflexivity.
  assert (Hrr : role r = assistant) by reflexivity.
  clearbody s r.
  destruct (truthy (summary report)); destruct (Nat.ltb 0 _);
    cbn [app List.length validHistory forallb]; rewrite ?Hs, ?Hr;
    repeat split; auto; repeat constructor; auto.
Qed.

(** *** Looking sessions up and saving them *)

Lemma findSession_found (db : Db) (id : option Id) (userId : Id)
  (s : ChatSession) :
  findSession db id userId = Some s ->
  In s (chats db) /\ id = Some (chatId s) /\ chatUser s = userId.
Proof.
  unfold findSession. destruct id as [i|]; [|discriminate].
  intros H. apply find_some in H as [Hin Hp].
  apply andb_prop in Hp as [H1 H2].
  apply N.eqb_eq in H1, H2. subst. auto.
Qed.

Lemma saveSession_chats (db : Db) (s' s'' : ChatSession) :
  In s'' (chats (saveSession db s')) -> s'' = s' \/ In s'' (chats db).
Proof.
  unfold saveSession. simpl. intros H.
  apply in_map_iff in H as (s0 & <- & Hin).
  destruct (chatId s0 =? chatId s')%N; auto.
Qed.

(** The session that was just saved is the one the next lookup finds. *)
Lemma findSession_saveSession (db : Db) (s : ChatSession)
  (h : list ChatMessage) :
  In s (chats db) ->
  findSession
    (saveSession db (mkChatSession (chatId s) (chatUser s)
                                   (relatedReportID s) h))
    (Some (chatId s)) (chatUser s)
  = Some (mkChatSession (chatId s) (chatUser s) (relatedReportID s) h).
Proof.
  unfold findSession, saveSession. simpl.
  induction (chats db) as [|x l IH]; intros Hin; [destruct Hin|].
  simpl. destruct (chatId x =? chatId s)%N eqn:E.
  - simpl. rewrite !N.eqb_refl. reflexivity.
  - destruct Hin as [->|Hin]; [rewrite N.eqb_refl in E; discriminate|].
    simpl. rewrite E. simpl. apply IH, Hin.
Qed.

(** *** What a message request does *)

Ltac refuse :=
  cbv [failure failureWith]; apply Refused;
  [ discriminate
  | simpl; let H := fresh in
    intros H; decompose [or] H; try discriminate; try contradiction ].

Lemma sendMessage_handled (rev : Revision) (w : World) (db : Db)
  (req : Request) :
  Handled rev w db req (sendMessage rev w db req).
Proof.
  unfold sendMessage.
  destruct (reqMessage req) as [| |[|]|q|[|c text]|] eqn:Hm; try refuse.
  - destruct (Qeq_bool q 0); refuse.
  - destruct (Nat.eqb _ 0); [refuse|].
    destruct (findSession db (reqChatId req) (reqUser req)) as [s|] eqn:Hs;
      [|refuse].
    destruct (populateReport db (relatedReportID s)) as [report|] eqn:Hr;
      [|refuse].
    destruct (reportDataFor rev (extractedData report)) as [data|] eqn:Hd;
      [|refuse].
    destruct (_callChatBot _) as [reply|e] eqn:Hb; [|refuse].
    cbv zeta. rewrite <- app_assoc. cbn [app].
    destruct (validHistory _); [|refuse].
    eapply Completed; eassumption.
Qed.

Lemma postMessage_handled (rev : Revision) (w : World) (db : Db)
  (req : Request) :
  Handled rev w db req (postMessage rev w db req).
Proof.
  unfold postMessage, validateMessage.
  destruct (reqMessage req) as [| |b|q|text|]; try refuse.
  destruct (negb (truthy text)); [refuse|].
  destruct (Nat.eqb _ 0); [refuse|].
  destruct (Nat.ltb 1000 _); [refuse|].
  destruct (reqChatId req) as [id|] eqn:Hid; [|refuse].
  unfold chatRateLimit. rewrite Hid.
  destruct (rateLookupThrows w); [apply sendMessage_handled|].
  destruct (findSession db (Some id) (reqUser req)) as [s|]; [|refuse].
  cbv zeta.
  destruct (Nat.ltb 0 _); [|apply sendMessage_handled].
  destruct (nth_error _ _) as [lastMessage|]; [|apply sendMessage_handled].
  destruct (_ <? 2000)%Z; [refuse | apply sendMessage_handled].
Qed.

(** *** The invariant of the stored histories *)

Lemma maxSeeds_le (rev : Revision) : maxSeeds rev <= 2.
Proof. destruct rev; simpl; lia. Qed.

Lemma Paired_seeded (rev : Revision) (report : Report) (now : Z) :
  let seeds := match rev with
               | Legacy => []
               | Current => _buildInitialMessages report now
               end in
  List.length seeds <= 20 /\ Paired (maxSeeds rev) seeds.
Proof.
  destruct rev; simpl.
  - split; [lia|]. exists [], []. repeat split; auto with history.
  - destruct (_buildInitialMessages_seeds report now) as (Hfa & Hlen & _).
    split; [lia|].
    exists (_buildInitialMessages report now), [].
    rewrite app_nil_r. repeat split; try assumption. constructor.
Qed.

Lemma startChat_invariant (rev : Revision) (db : Db) (req : Request)
  (now : Z) :
  Invariant rev db -> Invariant rev (fst (postStart rev db req now)).
Proof.
  intros Hinv. unfold postStart, validateStartChat, startChat.
  destruct (reqReportId req) as [rid|]; [|exact Hinv].
  destruct (findReport db rid (reqUser req)) as [report|]; [|exact Hinv].
  destruct (findSessionFor db (reqUser req) rid); [exact Hinv|].
  destruct (validHistory _); [|exact Hinv].
  intros s Hin. simpl in Hin. apply in_app_or in Hin as [Hin|[<-|[]]].
  - apply Hinv, Hin.
  - simpl. apply Paired_seeded.
Qed.

Lemma postMessage_invariant (rev : Revision) (w : World) (db : Db)
  (req : Request) :
  Invariant rev db -> Invariant rev (fst (fst (postMessage rev w db req))).
Proof.
  intros Hinv.
  destruct (postMessage_handled rev w db req)
    as [code text error events _ _ | s text reply report data Hm Hs Hr Hd u a h2 h3 Hb].
  - exact Hinv.
  - intros s' Hin. cbn [fst] in Hin.
    apply saveSession_chats in Hin as [->|Hin]; [|apply Hinv, Hin].
    apply findSession_found in Hs as (Hs & _).
    destruct (Hinv s Hs) as [Hlen Hp]. simpl. split.
    + destruct (truncation_suffix h2) as (dropped & _ & _ & Hle). exact Hle.
    + apply turn_keeps_paired; try assumption; try reflexivity.
      apply maxSeeds_le.
Qed.

Lemma deleteChat_invariant (rev : Revision) (db : Db) (req : Request) :
  Invariant rev db -> Invariant rev (fst (deleteChat db req)).
Proof.
  intros Hinv. unfold deleteChat.
  destruct (findSession db (reqChatId req) (reqUser req)); [|exact Hinv].
  intros s' Hin. simpl in Hin. apply filter_In in Hin as [Hin _].
  apply Hinv, Hin.
Qed.

Lemma reachable_invariant (rev : Revision) (db : Db) :
  System.Reachable rev db -> Invariant rev db.
Proof.
  induction 1 as [|db db' _ IH Hstep].
  - intros s [].
  - destruct Hstep.
    + intros s Hin. rewrite PipelineFacts.uploadReport_chats in Hin.
      apply IH, Hin.
    + unfold ExtractionController.deleteReport.
      destruct (find _ _); exact IH.
    + apply startChat_invariant, IH.
    + apply postMessage_invariant, IH.
    + apply deleteChat_invariant, IH.
Qed.

End ChatFacts.


(* ================================================================== *)
(** ** Chat sessions: the claims *)
(* ================================================================== *)

Module ChatClaims.

Import Js Model Task Chatbot History Turn JsFacts ChatFacts.

(** *** C3 *)

(** C3, as the code has it.  In every reachable database each stored
    history holds at most 20 entries and is made of at most two introductory
    assistant messages (none under the legacy controller) followed by
    complete user/assistant exchanges, so its length is even exactly when
    the number of introductory messages still in it is; and a completed
    turn stores the most recent 20 entries of the previous history followed
    by the user message and the reply, dropping the oldest entries first. *)
Theorem history_bounded_and_paired (rev : Revision) (db : Db) :
  System.Reachable rev db ->
  (forall s,
      In s (chats db) ->
      List.length (chatHistory s) <= 20
      /\ exists intro turns,
           chatHistory s = intro ++ turns
           /\ Forall (fun m => role m = assistant) intro
           /\ List.length intro <= maxSeeds rev
           /\ Exchanges turns
           /\ Nat.even (List.length (chatHistory s))
              = Nat.even (List.length intro))
  /\ (forall w req reply kept,
        snd (fst (postMessage rev w db req))
        = mkResponse 200 (ChatReply reply kept) ->
        exists s u a dropped,
          findSession db (reqChatId req) (reqUser req) = Some s
          /\ role u = user /\ role a = assistant
          /\ chatHistory s ++ [u; a] = dropped ++ kept
          /\ List.length dropped = List.length (chatHistory s) + 2 - 20
          /\ findSession (fst (fst (postMessage rev w db req)))
               (reqChatId req) (reqUser req)
             = Some (mkChatSession (chatId s) (chatUser s)
                                   (relatedReportID s) kept)).
Proof.
  intros Hreach. pose proof (reachable_invariant Hreach) as Hinv. split.
  - intros s Hin. destruct (Hinv s Hin) as [Hlen Hp].
    split; [exact Hlen | apply Paired_parity, Hp].
  - intros w req reply kept.
    destruct (postMessage_handled rev w db req)
      as [code text error events Hcode _ | s text reply' report data Hm Hs Hr Hd u a h2 h3 Hb];
      simpl; intros Hresp.
    + discriminate Hresp.
    + injection Hresp as <- <-.
      destruct (truncation_suffix h2) as (dropped & Hd2 & Hl2 & _).
      exists s, u, a, dropped.
      pose proof (findSession_found _ _ _ Hs) as (Hin & Hid & Hu).
      split; [exact Hs|]. split; [reflexivity|]. split; [reflexivity|].
      split; [exact Hd2|]. split.
      * rewrite Hl2. unfold h2. rewrite length_app. reflexivity.
      * rewrite Hid, <- Hu. apply findSession_saveSession, Hin.
Qed.

(** A session seeded with the summary alone: one entry after the start,
    three after a completed turn. *)
Lemma history_bounded_and_paired_witness :
  let db1 := Examples.dbWithReport [] in
  let db2 := fst (postStart Current db1 Examples.startRequest 5000) in
  let db3 :=
    fst (fst (postMessage Current (Examples.chatWorld true 9000) db2
                          Examples.question)) in
  System.Reachable Current db3
  /\ forall s, In s (chats db3) -> List.length (chatHistory s) <= 20.
Proof.
  assert (H : System.Reachable Current
                (fst (fst (postMessage Current (Examples.chatWorld true 9000)
                   (fst (postStart Current (Examples.dbWithReport [])
                                   Examples.startRequest 5000))
                   Examples.question)))).
  { apply System.ReachStep with
      (db := fst (postStart Current (Examples.dbWithReport [])
                            Examples.startRequest 5000));
      [|apply System.StepMessage].
    apply System.ReachStep with (db := Examples.dbWithReport []);
      [|apply System.StepStart].
    apply System.ReachStep with (db := System.emptyDb);
      [apply System.ReachEmpty | apply System.StepUpload]. }
  split; [exact H|].
  intros s Hin.
  destruct (history_bounded_and_paired H) as [Hall _].
  destruct (Hall s Hin) as [Hlen _]. exact Hlen.
Defined.

(** The claim as stated fails under the current controller: a report with
    a summary and no recommendation seeds one message, so the history has
    one entry when the session starts and three after the first completed
    turn, with no turn in flight. *)
Lemma seeded_history_has_odd_length :
  let db1 := Examples.dbWithReport [] in
  let db2 := fst (postStart Current db1 Examples.startRequest 5000) in
  let db3 :=
    fst (fst (postMessage Current (Examples.chatWorld true 9000) db2
                          Examples.question)) in
  List.map (fun s => List.map role (chatHistory s)) (chats db2)
  = [[assistant]]
  /\ List.map (fun s => List.map role (chatHistory s)) (chats db3)
     = [[assistant; user; assistant]]
  /\ List.map (fun s => Nat.even (List.length (chatHistory s))) (chats db3)
     = [false].
Proof. vm_compute. repeat split; reflexivity. Qed.

(** *** C4 *)

Lemma validateMessage_next (req : Request) :
  validateMessage req = Next ->
  exists c text,
    reqMessage req = VStr (c :: text)
    /\ Nat.eqb (List.length (trim (c :: text))) 0 = false
    /\ List.length (c :: text) <= 1000
    /\ exists id, reqChatId req = Some id.
Proof.
  unfold validateMessage.
  destruct (reqMessage req) as [| |b|q|[|c text]|]; try discriminate.
  cbn [truthy negb].
  destruct (Nat.eqb _ 0) eqn:E; [discriminate|].
  destruct (Nat.ltb_spec 1000 (List.length (c :: text))); [discriminate|].
  destruct (reqChatId req) as [id|]; [|discriminate].
  intros _. exists c, text. repeat split; try assumption. exists id. reflexivity.
Qed.

(** C4, as the code has it.  When the chatbot call fails after the user
    message was appended to the history in memory, the session is not
    saved: the database, and with it the stored history, is what it was
    before the turn (the user message is not recorded), the answer is 500
    with the fixed text ["Failed to process message"], and the chat page
    shows the question followed by its fallback reply. *)
Theorem failed_reply_leaves_session_unchanged
  (rev : Revision) (w : World) (db : Db) (req : Request) (text e : jsstring)
  (s : ChatSession) (report : Report) (reportData : ExtractedData)
  (formatChatHistory : list ChatMessage -> list ChatPage.Bubble)
  (messages : list ChatPage.Bubble) :
  validateMessage req = Next ->
  chatRateLimit w db req = Next ->
  reqMessage req = VStr text ->
  findSession db (reqChatId req) (reqUser req) = Some s ->
  populateReport db (relatedReportID s) = Some report ->
  reportDataFor rev (extractedData report) = Some reportData ->
  _callChatBot
    (botProcess w reportData
       (chatHistory s ++ [chatMessage user (trim text) (userStamp w)]) text)
  = Rejected e ->
  let '(db', response, events) := postMessage rev w db req in
  db' = db
  /\ findSession db' (reqChatId req) (reqUser req) = Some s
  /\ response = failureWith 500 "Failed to process message" e
  /\ events = [BotCalled]
  /\ ChatPage.handleSend formatChatHistory messages text response
     = messages ++ [ChatPage.mkBubble ChatPage.fromUser text;
                    ChatPage.mkBubble ChatPage.fromAi ChatPage.fallbackText].
Proof.
  intros Hv Hrl Hm Hs Hr Hd Hb.
  destruct (validateMessage_next req Hv) as (c & tl & Hm' & Hne & _ & _).
  rewrite Hm in Hm'. injection Hm' as ->.
  unfold postMessage. rewrite Hv, Hrl.
  unfold sendMessage. rewrite Hm, Hne, Hs, Hr, Hd, Hb.
  split; [reflexivity|]. split; [exact Hs|].
  split; [reflexivity|]. split; [reflexivity|].
  unfold ChatPage.handleSend.
  destruct (trim (c :: tl)) eqn:Ht; [discriminate Hne|].
  cbn [truthy negb ChatPage.received failureWith body].
  rewrite <- app_assoc. reflexivity.
Qed.

(** The chatbot runs out of quota on the first question of a session. *)
Lemma failed_reply_witness :
  let db := fst (postStart Legacy (Examples.dbWithReport [])
                           Examples.startRequest 5000) in
  let '(db', response, events) :=
    postMessage Legacy (Examples.chatWorld false 9000) db Examples.question in
  db' = db /\ statusCode response = 500.
Proof.
  pose proof (@failed_reply_leaves_session_unchanged Legacy
                (Examples.chatWorld false 9000)
                (fst (postStart Legacy (Examples.dbWithReport [])
                                Examples.startRequest 5000))
                Examples.question
                (str "What does my hemoglobin mean?")
                (str "ChatBot failed (exit 1): 429 quota exceeded")
                (mkChatSession 2 7 0 [])
                (mkReport 0 7 (Some (str "Jane Doe")) (str "Blood Test")
                          Examples.labData (str "Low hemoglobin.") [] High)
                Examples.labData (fun _ => []) []
                eq_refl eq_refl eq_refl eq_refl eq_refl eq_refl eq_refl) as H.
  cbv zeta.
  destruct (postMessage Legacy (Examples.chatWorld false 9000) _
                        Examples.question) as [[db' response] events].
  destruct H as (Hdb & _ & Hresp & _).
  split; [exact Hdb | rewrite Hresp; reflexivity].
Defined.

(** The claim as stated fails: the chatbot is called, fails, and the stored
    history of the session is as empty as before; the user message is not
    in it. *)
Lemma failed_reply_loses_user_message :
  let db := fst (postStart Legacy (Examples.dbWithReport [])
                           Examples.startRequest 5000) in
  let '(db', response, events) :=
    postMessage Legacy (Examples.chatWorld false 9000) db Examples.question in
  events = [BotCalled]
  /\ statusCode response = 500
  /\ List.map chatHistory (chats db) = [[]]
  /\ List.map chatHistory (chats db') = [[]].
Proof. vm_compute. repeat split; reflexivity. Qed.

(** *** C5 *)

Lemma truncation_keeps_last (h : list ChatMessage) (a : ChatMessage) :
  let h2 := h ++ [a] in
  let h3 := if Nat.ltb 20 (List.length h2) then sliceLast 20 h2 else h2 in
  Nat.ltb 0 (List.length h3) = true
  /\ nth_error h3 (List.length h3 - 1) = Some a.
Proof.
  cbv zeta.
  assert (Hlast : forall l : list ChatMessage,
             nth_error (l ++ [a]) (List.length (l ++ [a]) - 1) = Some a).
  { intros l. rewrite length_app. simpl.
    replace (List.length l + 1 - 1) with (List.length l) by lia.
    rewrite nth_error_app2, Nat.sub_diag by lia. reflexivity. }
  destruct (Nat.ltb_spec 20 (List.length (h ++ [a]))) as [Hlt|Hle].
  - rewrite sliceLast_length. split; [apply Nat.ltb_lt; lia|].
    unfold sliceLast. rewrite nth_error_skipn.
    replace (List.length (h ++ [a]) - 20
             + (Nat.min 20 (List.length (h ++ [a])) - 1))
      with (List.length (h ++ [a]) - 1) by lia.
    apply Hlast.
  - split; [|apply Hlast].
    apply Nat.ltb_lt. rewrite length_app. simpl. lia.
Qed.

(** C5.  After a completed turn, a second message request on the same
    session that passes validation and reaches the rate limiter less than
    2000 ms after the reply of the first was stamped is answered 429 and
    leaves the database as it was, without calling the chatbot; and when
    the lookup of the rate limiter throws, the request goes on to the
    controller. *)
Theorem rate_limit_cooldown
  (rev : Revision) (w1 w2 : World) (db db1 : Db) (req1 req2 : Request)
  (reply : jsstring) (kept : list ChatMessage) (events1 : list ChatEvent) :
  postMessage rev w1 db req1 = (db1, mkResponse 200 (ChatReply reply kept), events1) ->
  reqUser req2 = reqUser req1 ->
  reqChatId req2 = reqChatId req1 ->
  validateMessage req2 = Next ->
  (rateNow w2 - botStamp w1 < 2000)%Z ->
  (rateLookupThrows w2 = false ->
   postMessage rev w2 db1 req2
   = (db1, failure 429 "Please wait before sending another message", []))
  /\ (rateLookupThrows w2 = true ->
      chatRateLimit w2 db1 req2 = Next
      /\ postMessage rev w2 db1 req2 = sendMessage rev w2 db1 req2).
Proof.
  intros H1 Hu Hc Hv Hsoon. split.
  - intros Hthrow.
    destruct (postMessage_handled rev w1 db req1)
      as [code text error events Hcode _ | s text reply' report data Hm Hs Hr Hd u a h2 h3 Hb];
      [injection H1 as _ E _; congruence|].
    injection H1 as <- _ _ _.
    pose proof (findSession_found _ _ _ Hs) as (Hin & Hid & Hus).
    unfold postMessage. rewrite Hv. unfold chatRateLimit.
    rewrite Hthrow, Hu, Hc, Hid, <- Hus.
    rewrite (@findSession_saveSession db s h3 Hin). cbn [chatHistory].
    unfold h3, h2.
    replace (chatHistory s ++ [u; a]) with ((chatHistory s ++ [u]) ++ [a])
      by (rewrite <- app_assoc; reflexivity).
    destruct (truncation_keeps_last (chatHistory s ++ [u]) a) as [Hpos Hlast].
    cbv zeta in Hpos, Hlast. rewrite Hpos, Hlast.
    cbn [timestamp a chatMessage].
    destruct (Z.ltb_spec (rateNow w2 - botStamp w1) 2000); [reflexivity | lia].
  - intros Hthrow.
    assert (Hrl : chatRateLimit w2 db1 req2 = Next).
    { unfold chatRateLimit. rewrite Hthrow. reflexivity. }
    split; [exact Hrl|].
    unfold postMessage. rewrite Hv, Hrl. reflexivity.
Qed.

(** Two questions on one session, the second half a second after the
    reply to the first. *)
Lemma rate_limit_cooldown_witness :
  let db := fst (postStart Legacy (Examples.dbWithReport [])
                           Examples.startRequest 5000) in
  let db1 := fst (fst (postMessage Legacy (Examples.chatWorld true 9000) db
                                   Examples.question)) in
  postMessage Legacy (Examples.chatWorld true 10500) db1 Examples.question
  = (db1, failure 429 "Please wait before sending another message", []).
Proof.
  cbv zeta.
  refine (proj1 (@rate_limit_cooldown Legacy
                   (Examples.chatWorld true 9000)
                   (Examples.chatWorld true 10500)
                   (fst (postStart Legacy (Examples.dbWithReport [])
                                   Examples.startRequest 5000))
                   _ Examples.question Examples.question
                   (str "Your hemoglobin is below the range.")
                   _ [BotCalled; SessionSaved]
                   _ eq_refl eq_refl eq_refl _) eq_refl).
  - vm_compute. reflexivity.
  - vm_compute. reflexivity.
Defined.

(** *** C10 *)

(** C10.  A message request whose message is a string of more than 1000
    code units is answered 400 by the validation middleware; the database
    is left as it was and neither the chatbot call nor a save takes
    place. *)
Theorem long_message_is_rejected
  (rev : Revision) (w : World) (db : Db) (req : Request) (text : jsstring) :
  reqMessage req = VStr text ->
  1000 < List.length text ->
  exists reason,
    validateMessage req = Respond (failure 400 reason)
    /\ postMessage rev w db req = (db, failure 400 reason, []).
Proof.
  intros Hm Hlong. unfold postMessage, validateMessage. rewrite Hm.
  destruct text as [|c text]; [simpl in Hlong; lia|].
  cbn [truthy negb].
  destruct (Nat.eqb _ 0); [eexists; split; reflexivity|].
  apply Nat.ltb_lt in Hlong. rewrite Hlong.
  eexists; split; reflexivity.
Qed.

Lemma long_message_witness :
  exists reason,
    postMessage Current (Examples.chatWorld true 9000) System.emptyDb
      (mkRequest 7 (Some 2%N) None (VStr (repeat 97%N 1001)))
    = (System.emptyDb, failure 400 reason, []).
Proof.
  destruct (@long_message_is_rejected Current (Examples.chatWorld true 9000)
              System.emptyDb
              (mkRequest 7 (Some 2%N) None (VStr (repeat 97%N 1001)))
              (repeat 97%N 1001) eq_refl)
    as (reason & _ & H).
  - rewrite repeat_length. apply Nat.lt_succ_diag_r.
  - exists reason. exact H.
Defined.

(** *** C6 *)

Lemma find_app_none {A} (p : A -> bool) (l l' : list A) :
  find p l = None -> find p (l ++ l') = find p l'.
Proof.
  induction l as [|x l IH]; simpl; [reflexivity|].
  destruct (p x); [discriminate | exact IH].
Qed.

Lemma findReport_found (db : Db) (id userId : Id) (report : Report) :
  findReport db id userId = Some report ->
  reportId report = id /\ reportUser report = userId.
Proof.
  unfold findReport. intros H. apply find_some in H as [_ H].
  apply andb_prop in H as [H1 H2]. apply N.eqb_eq in H1, H2. auto.
Qed.

(** C6.  For a report of the user, a start request answers 200 with a
    session of that user and report.  If one was stored already, it is
    returned and the database is left as it was; otherwise a new session is
    stored, whose history is made of the introductory assistant messages
    built from the summary and the recommendations of the Report (none
    under the legacy controller).  Asking again, at any time, gives the
    same answer and leaves the database as the first request left it. *)
Theorem start_is_idempotent
  (rev : Revision) (db : Db) (req : Request) (now : Z) (reportId : Id)
  (report : Report) :
  reqReportId req = Some reportId ->
  findReport db reportId (reqUser req) = Some report ->
  let '(db1, response) := postStart rev db req now in
  (exists session,
      response = mkResponse 200 (ChatReady session (summary report))
      /\ findSessionFor db1 (reqUser req) reportId = Some session
      /\ (findSessionFor db (reqUser req) reportId = Some session /\ db1 = db
          \/ findSessionFor db (reqUser req) reportId = None
             /\ chats db1 = chats db ++ [session]
             /\ chatHistory session
                = match rev with
                  | Legacy => []
                  | Current => _buildInitialMessages report now
                  end
             /\ Forall (fun m => role m = assistant) (chatHistory session)))
  /\ forall later, postStart rev db1 req later = (db1, response).
Proof.
  intros Hreq Hrep.
  assert (Hkeep : forall db1 session later,
             findReport db1 reportId (reqUser req) = Some report ->
             findSessionFor db1 (reqUser req) reportId = Some session ->
             postStart rev db1 req later
             = (db1, mkResponse 200 (ChatReady session (summary report)))).
  { intros db1 session later H1 H2.
    unfold postStart, validateStartChat, startChat.
    rewrite Hreq, H1, H2. reflexivity. }
  destruct (findSessionFor db (reqUser req) reportId) as [existing|] eqn:Hfind.
  - rewrite (Hkeep db existing now Hrep Hfind). split.
    + exists existing. split; [reflexivity|]. split; [exact Hfind|].
      left. split; reflexivity.
    + intros later. apply Hkeep; assumption.
  - set (seeds := match rev with
                  | Legacy => []
                  | Current => _buildInitialMessages report now
                  end).
    assert (Hseeds : validHistory seeds = true
                     /\ Forall (fun m => role m = assistant) seeds).
    { unfold seeds. destruct rev; [split; [reflexivity | constructor]|].
      destruct (_buildInitialMessages_seeds report now) as (Hfa & _ & Hv).
      split; assumption. }
    destruct Hseeds as [Hvalid Hroles].
    set (session := mkChatSession (nextId db) (reqUser req) reportId seeds).
    set (db1 := mkDb (reports db) (vaults db) (chats db ++ [session])
                     (N.succ (nextId db))).
    assert (E : postStart rev db req now
                = (db1, mkResponse 200 (ChatReady session (summary report)))).
    { unfold postStart, validateStartChat, startChat.
      rewrite Hreq, Hrep, Hfind. fold seeds. rewrite Hvalid. reflexivity. }
    rewrite E.
    assert (Hnew : findSessionFor db1 (reqUser req) reportId = Some session).
    { unfold findSessionFor in *. cbn [chats db1].
      rewrite find_app_none by exact Hfind.
      simpl. rewrite !N.eqb_refl. reflexivity. }
    split.
    + exists session. split; [reflexivity|]. split; [exact Hnew|].
      right. repeat split; try reflexivity. exact Hroles.
    + intros later. apply Hkeep; [exact Hrep | exact Hnew].
Qed.

(** The first start request of user 7 on report 0 creates session 2, seeded
    with the summary; the second returns it. *)
Lemma start_is_idempotent_witness :
  let db := Examples.dbWithReport [] in
  let '(db1, response) := postStart Current db Examples.startRequest 5000 in
  List.length (chats db1) = 1
  /\ postStart Current db1 Examples.startRequest 7000 = (db1, response).
Proof.
  pose proof (@start_is_idempotent Current (Examples.dbWithReport [])
                Examples.startRequest 5000 0
                (mkReport 0 7 (Some (str "Jane Doe")) (str "Blood Test")
                          Examples.labData (str "Low hemoglobin.") [] High)
                eq_refl eq_refl) as H.
  cbv zeta.
  destruct (postStart Current (Examples.dbWithReport [])
                      Examples.startRequest 5000) as [db1 response] eqn:E.
  destruct H as [(session & _ & _ & [[_ ->]|(_ & Hc & _)]) Hagain].
  - split; [|apply Hagain]. vm_compute in E. discriminate E.
  - split; [|apply Hagain]. rewrite Hc. reflexivity.
Defined.

End ChatClaims.


(* ################################################################## *)
(** * Further properties of the code *)
(* ################################################################## *)

(* ================================================================== *)
(** ** Trimming and splitting *)
(* ================================================================== *)

Module JsMore.

Import Js Grouping JsFacts Integrity.

(** *** [trim] *)

Lemma trimStart_strips (s : jsstring) :
  exists w, s = w ++ trimStart s /\ blank w.
Proof.
  induction s as [|c s (w & Hw & Hb)]; simpl.
  - exists []. split; [reflexivity | constructor].
  - destruct (isWhiteSpace c) eqn:E.
    + exists (c :: w). split; [simpl; f_equal; exact Hw|].
      constructor; assumption.
    + exists []. split; [reflexivity | constructor].
Qed.

Lemma trimEnd_strips (s : jsstring) :
  exists w, s = trimEnd s ++ w /\ blank w.
Proof.
  unfold trimEnd. destruct (trimStart_strips (rev s)) as (w & Hw & Hb).
  exists (rev w). split; [|apply blank_rev, Hb].
  apply (f_equal (@rev N)) in Hw.
  rewrite rev_involutive, rev_app_distr in Hw. exact Hw.
Qed.

(** [trim] removes a run of white space at each end, and nothing else. *)
Lemma trim_strips (s : jsstring) :
  exists before after,
    s = before ++ trim s ++ after /\ blank before /\ blank after.
Proof.
  destruct (trimStart_strips s) as (b & Hb & Bb).
  destruct (trimEnd_strips (trimStart s)) as (a & Ha & Ba).
  exists b, a. unfold trim. rewrite <- Ha. auto.
Qed.

Lemma trim_idempotent (s : jsstring) : trimmed (trim s).
Proof.
  unfold trimmed.
  destruct (trim_strips s) as (b & a & H & Hb & Ha).
  rewrite H at 2. symmetry. apply trim_padded; assumption.
Qed.

Lemma trim_length (s : jsstring) : List.length (trim s) <= List.length s.
Proof.
  destruct (trim_strips s) as (b & a & H & _).
  rewrite H at 2. rewrite !length_app. lia.
Qed.

Lemma trim_Forall (P : N -> Prop) (s : jsstring) :
  Forall P s -> Forall P (trim s).
Proof.
  destruct (trim_strips s) as (b & a & H & _). intros HP.
  rewrite H in HP. apply Forall_app in HP as [_ HP].
  apply Forall_app in HP as [HP _]. exact HP.
Qed.

(** A trimmed string followed by a line feed trims back to itself. *)
Lemma trim_line (p : jsstring) : trimmed p -> trim (p ++ [10%N]) = p.
Proof.
  intros Hp. unfold trimmed in Hp. rewrite <- Hp at 2.
  change (p ++ [10%N]) with ([] ++ p ++ [10%N]).
  apply trim_padded; repeat constructor.
Qed.

(** *** [startsWith], [includes] *)

Lemma prefixb_spec (p s : jsstring) :
  prefixb p s = true <-> exists rest, s = p ++ rest.
Proof.
  revert s. induction p as [|a p IH]; intros s; simpl.
  - split; [exists s; reflexivity | reflexivity].
  - destruct s as [|b s].
    + split; [discriminate | intros (rest & H); discriminate].
    + rewrite andb_true_iff, N.eqb_eq, IH. split.
      * intros (-> & rest & ->). exists rest. reflexivity.
      * intros (rest & H). injection H as -> ->. split; [reflexivity|].
        exists rest. reflexivity.
Qed.

Lemma includes_spec (s m : jsstring) :
  includes s m = true <-> exists before after, s = before ++ m ++ after.
Proof.
  induction s as [|c s IH].
  - simpl. rewrite orb_false_r, prefixb_spec. split.
    + intros (rest & H). exists [], rest. exact H.
    + intros (before & after & H). symmetry in H.
      apply app_eq_nil in H as [-> H]. exists after. symmetry. exact H.
  - cbn [includes]. rewrite orb_true_iff, prefixb_spec, IH. split.
    + intros [(rest & H) | (before & after & H)].
      * exists [], rest. exact H.
      * exists (c :: before), after. rewrite H. reflexivity.
    + intros ([|x before] & after & H).
      * left. exists after. exact H.
      * right. injection H as -> ->. exists before, after. reflexivity.
Qed.

Lemma includes_none (s m : jsstring) :
  includes s m = false <->
  forall before after, s <> before ++ m ++ after.
Proof.
  rewrite <- not_true_iff_false, includes_spec. split.
  - intros H before after E. apply H. exists before, after. exact E.
  - intros H (before & after & E). exact (H _ _ E).
Qed.

(** A marker whose last code unit occurs nowhere else in it cannot start
    inside a text that does not contain it and end inside a copy of
    itself that follows the text. *)
Lemma no_straddling_marker (init : jsstring) (c : N) (a u v b : jsstring) :
  ~ In c init ->
  includes a (init ++ [c]) = false ->
  a = u ++ v -> v <> [] ->
  prefixb (init ++ [c]) (v ++ (init ++ [c]) ++ b) = false.
Proof.
  intros Hc Ha -> Hv. apply not_true_iff_false. intros H.
  apply prefixb_spec in H as (rest & H).
  rewrite includes_none in Ha.
  symmetry in H. apply app_eq_app in H as (l & [[E1 E2] | [E1 E2]]).
  2:{ apply (Ha u (l)). rewrite E1. reflexivity. }
  (* the marker is [v ++ l], and [l] starts a second copy of it *)
  destruct (exists_last Hv) as (v0 & x & ->).
  destruct l as [|y l].
  { rewrite app_nil_r in E1. apply (Ha u []).
    rewrite app_nil_r, E1. reflexivity. }
  assert (Hl : exists l0, y :: l = l0 ++ [c]).
  { destruct (@exists_last _ (y :: l)) as (l0 & z & E); [discriminate|].
    rewrite E in E1. rewrite app_assoc in E1.
    apply app_inj_tail in E1 as [_ ->]. exists l0. exact E. }
  destruct Hl as (l0 & El). rewrite El in E2.
  apply app_eq_app in E2 as (l' & [[E3 E4] | [E3 E4]]).
  - (* the marker is [l0 ++ [c] ++ l'] *)
    destruct l' as [|z l'].
    + rewrite app_nil_r in E3. rewrite El, E3 in E1.
      apply (f_equal (@List.length N)) in E1.
      rewrite !length_app in E1. simpl in E1. lia.
    + destruct (@exists_last _ (z :: l')) as (l1 & t & E); [discriminate|].
      rewrite E in E3. rewrite !app_assoc in E3.
      apply app_inj_tail in E3 as [E3 _].
      apply Hc. rewrite E3. apply in_or_app. left.
      apply in_or_app. right. left. reflexivity.
  - (* [l0 ++ [c]] would be longer than the marker it is a part of *)
    rewrite El in E1. rewrite E3 in E1.
    apply (f_equal (@List.length N)) in E1.
    rewrite !length_app in E1. simpl in E1. lia.
Qed.

Lemma prefixb_snoc (m q : jsstring) (x : N) :
  prefixb m (q ++ [x]) = true -> prefixb m q = true \/ In x m.
Proof.
  revert q. induction m as [|a m IH]; intros q; simpl; [auto|].
  destruct q as [|b q]; simpl.
  - rewrite andb_true_iff, N.eqb_eq. intros [-> _]. right. left. reflexivity.
  - rewrite andb_true_iff. intros [E H]. rewrite E. simpl.
    destruct (IH _ H); auto.
Qed.

(** Appending a code unit that the marker does not have adds no
    occurrence of the marker. *)
Lemma includes_snoc (p m : jsstring) (x : N) :
  m <> [] -> ~ In x m -> includes p m = false ->
  includes (p ++ [x]) m = false.
Proof.
  intros Hm Hx. induction p as [|c p IH]; simpl.
  - intros _. destruct m as [|a m]; [congruence|]. simpl.
    destruct (a =? x)%N eqn:E.
    + apply N.eqb_eq in E. subst. exfalso. apply Hx. left. reflexivity.
    + reflexivity.
  - intros H. apply orb_false_elim in H as [H1 H2].
    rewrite (IH H2), orb_false_r.
    apply not_true_iff_false. intros H.
    change (c :: p ++ [x]) with ((c :: p) ++ [x]) in H.
    apply prefixb_snoc in H as [H|H]; [congruence | contradiction].
Qed.

Lemma includes_unit (s : jsstring) (x : N) :
  ~ In x s -> includes s [x] = false.
Proof.
  induction s as [|c s IH]; simpl; [reflexivity|].
  intros H. rewrite IH by tauto. rewrite orb_false_r, andb_true_r.
  apply N.eqb_neq. intros ->. apply H. left. reflexivity.
Qed.

(** *** [split] *)

Lemma split_go_skip (sep cur u v : jsstring) :
  split_go sep (List.length u) cur (u ++ v) = split_go sep 0 cur v.
Proof.
  induction u as [|x u IH]; simpl; [reflexivity | exact IH].
Qed.

(** A string without the separator is the only piece. *)
Lemma split_go_whole (sep cur s : jsstring) :
  includes s sep = false -> split_go sep 0 cur s = [rev cur ++ s].
Proof.
  revert cur. induction s as [|c s IH]; intros cur; simpl.
  - intros _. rewrite app_nil_r. reflexivity.
  - intros H. apply orb_false_elim in H as [H1 H2].
    change (match sep with
            | [] => true
            | a :: p' => (a =? c)%N && prefixb p' s
            end) with (prefixb sep (c :: s)).
    rewrite H1, (IH _ H2). simpl. rewrite <- app_assoc. reflexivity.
Qed.

Lemma split_whole (sep s : jsstring) :
  includes s sep = false -> split sep s = [s].
Proof. intros H. unfold split. rewrite split_go_whole by exact H. reflexivity. Qed.

Lemma split_go_cons (sep cur s : jsstring) (c : N) :
  split_go sep 0 cur (c :: s)
  = if prefixb sep (c :: s)
    then rev cur :: split_go sep (List.length sep - 1) [] s
    else split_go sep 0 (c :: cur) s.
Proof. reflexivity. Qed.

(** The first piece ends where the separator first occurs. *)
Lemma split_go_first (sep cur a b : jsstring) :
  sep <> [] ->
  (forall u v, a = u ++ v -> v <> [] -> prefixb sep (v ++ sep ++ b) = false) ->
  split_go sep 0 cur (a ++ sep ++ b) = (rev cur ++ a) :: split_go sep 0 [] b.
Proof.
  intros Hsep. revert cur. induction a as [|x a IH]; intros cur H.
  - rewrite app_nil_r. destruct sep as [|c sep']; [congruence|].
    change ([] ++ (c :: sep') ++ b) with (c :: sep' ++ b).
    rewrite split_go_cons.
    replace (prefixb (c :: sep') (c :: sep' ++ b)) with true
      by (symmetry; apply prefixb_spec; exists b; reflexivity).
    f_equal. cbn [List.length]. rewrite Nat.sub_succ, Nat.sub_0_r.
    apply split_go_skip.
  - change ((x :: a) ++ sep ++ b) with (x :: a ++ sep ++ b).
    rewrite split_go_cons.
    change (x :: a ++ sep ++ b) with ((x :: a) ++ sep ++ b).
    rewrite (H [] (x :: a) eq_refl) by discriminate.
    rewrite IH.
    + simpl. rewrite <- app_assoc. reflexivity.
    + intros u v E Hv. apply (H (x :: u) v); [rewrite E; reflexivity | exact Hv].
Qed.

(** *** [split] on a set of separator characters *)

Lemma splitOn_go_pieces (isSep : N -> bool) (cur s : jsstring) :
  Forall (fun c => isSep c = false) cur ->
  Forall (Forall (fun c => isSep c = false)) (splitOn_go isSep cur s).
Proof.
  revert cur. induction s as [|c s IH]; intros cur Hcur; simpl.
  - constructor; [apply Forall_rev, Hcur | constructor].
  - destruct (isSep c) eqn:E.
    + constructor; [apply Forall_rev, Hcur | apply IH; constructor].
    + apply IH. constructor; assumption.
Qed.

(** No piece contains a separator. *)
Lemma splitOn_pieces (isSep : N -> bool) (s : jsstring) :
  Forall (Forall (fun c => isSep c = false)) (splitOn isSep s).
Proof. apply splitOn_go_pieces. constructor. Qed.

Lemma split_go_unit (x : N) (cur s : jsstring) :
  split_go [x] 0 cur s = splitOn_go (N.eqb x) cur s.
Proof.
  revert cur. induction s as [|c s IH]; intros cur; simpl; [reflexivity|].
  rewrite andb_true_r. destruct (x =? c)%N; rewrite IH; reflexivity.
Qed.

(** Splitting on a one-character string is splitting on that character. *)
Lemma split_unit (x : N) (s : jsstring) : split [x] s = splitOn (N.eqb x) s.
Proof. apply split_go_unit. Qed.

End JsMore.


(* ================================================================== *)
(** ** The upload pipeline: failures after the narratives, and the writes *)
(* ================================================================== *)

Module PipelineMore.

Import Js Model Task AgentService ExtractionController Integrity.
Import JsFacts JsMore PipelineFacts.

(** *** The vault of a user *)

Lemma findVault_saveVault_same (v' : Vault) (vs : list Vault) :
  findVault (vaultUser v') vs <> None ->
  findVault (vaultUser v') (saveVault v' vs) = Some v'.
Proof.
  induction vs as [|v vs IH]; simpl; [congruence|].
  destruct (vaultUser v =? vaultUser v')%N eqn:E; simpl.
  - intros _. rewrite N.eqb_refl. reflexivity.
  - rewrite E. exact IH.
Qed.

Lemma findVault_saveVault_other (u : Id) (v' : Vault) (vs : list Vault) :
  u <> vaultUser v' ->
  findVault u (saveVault v' vs) = findVault u vs.
Proof.
  intros Hu. induction vs as [|v vs IH]; simpl; [reflexivity|].
  destruct (vaultUser v =? vaultUser v')%N eqn:E; simpl.
  - apply N.eqb_eq in E.
    destruct (vaultUser v' =? u)%N eqn:E1;
      [apply N.eqb_eq in E1; congruence|].
    destruct (vaultUser v =? u)%N eqn:E2;
      [apply N.eqb_eq in E2; congruence|].
    reflexivity.
  - destruct (vaultUser v =? u)%N; [reflexivity | exact IH].
Qed.

Lemma findVault_new (u u' : Id) (fs : list VaultFile) (vs : list Vault) :
  findVault u' vs = None ->
  findVault u (vs ++ [mkVault u' fs])
  = if (u' =? u)%N then Some (mkVault u' fs) else findVault u vs.
Proof.
  induction vs as [|v vs IH]; simpl.
  - intros _. destruct (u' =? u)%N; reflexivity.
  - destruct (vaultUser v =? u')%N eqn:E; [discriminate|].
    intros H. destruct (vaultUser v =? u)%N eqn:E1.
    + destruct (u' =? u)%N eqn:E2; [|reflexivity].
      apply N.eqb_eq in E1, E2. apply N.eqb_neq in E. congruence.
    + apply IH, H.
Qed.

Lemma findVault_found (u : Id) (vs : list Vault) (v : Vault) :
  findVault u vs = Some v -> In v vs /\ vaultUser v = u.
Proof.
  induction vs as [|x vs IH]; simpl; [discriminate|].
  destruct (vaultUser x =? u)%N eqn:E.
  - intros H. injection H as <-. apply N.eqb_eq in E. auto.
  - intros H. destruct (IH H). auto.
Qed.

(** What a vault update that goes through does: one entry more at the end
    of the vault of the user, nothing else. *)
Lemma updateUserVault_effect (db db2 : Db) (u : Id) (now : Z)
  (f : UploadedFile) (rid : Id) (name : option jsstring) :
  updateUserVault db u now f rid name = Fulfilled db2 ->
  let entry :=
    mkVaultFile (nextId db) (trim (originalname f)) now (str "application/pdf")
                (size f) (trim (path f)) (str "processed") (Some rid)
                (option_map trim name) in
  vaultFilesOf db2 u = vaultFilesOf db u ++ [entry]
  /\ (forall u', u' <> u -> vaultFilesOf db2 u' = vaultFilesOf db u')
  /\ reports db2 = reports db /\ chats db2 = chats db
  /\ nextId db2 = N.succ (nextId db).
Proof.
  unfold updateUserVault.
  destruct (truthy (trim (originalname f)) && truthy (trim (path f)));
    [|discriminate].
  intros H. injection H as <-. cbv zeta. unfold vaultFilesOf. simpl.
  destruct (findVault u (vaults db)) as [v|] eqn:Hv.
  - apply findVault_found in Hv as Hv'. destruct Hv' as [_ Hu].
    repeat split.
    + change u with (vaultUser (mkVault u (files v ++ [
        mkVaultFile (nextId db) (trim (originalname f)) now
          (str "application/pdf") (size f) (trim (path f)) (str "processed")
          (Some rid) (option_map trim name)]))) at 1.
      rewrite findVault_saveVault_same; [reflexivity|].
      simpl. rewrite Hv. discriminate.
    + intros u' Hu'. rewrite findVault_saveVault_other by (simpl; exact Hu').
      reflexivity.
  - repeat split.
    + rewrite findVault_new by exact Hv. rewrite N.eqb_refl. reflexivity.
    + intros u' Hu'. rewrite findVault_new by exact Hv.
      destruct (u =? u')%N eqn:E; [|reflexivity].
      apply N.eqb_eq in E. congruence.
Qed.

Lemma updateUserVault_rejects (db : Db) (u : Id) (now : Z)
  (f : UploadedFile) (rid : Id) (name : option jsstring) :
  trim (originalname f) = [] \/ trim (path f) = [] ->
  exists e, updateUserVault db u now f rid name = Rejected e.
Proof.
  unfold updateUserVault. intros [H|H]; rewrite H; simpl;
    [|rewrite andb_false_r]; eexists; reflexivity.
Qed.

Lemma inEnum_In (s : jsstring) (enum : list jsstring) :
  inEnum s enum = true <-> In s enum.
Proof.
  unfold inEnum. rewrite existsb_exists. split.
  - intros (x & Hx & E). apply eqb_eq in E. subst. exact Hx.
  - intros H. exists s. split; [exact H | apply eqb_refl].
Qed.

(** [Report.create] goes through exactly for the types of the schema. *)
Lemma Report_create_kind db userID name kind d s r risk db1 report :
  Report_create db userID name kind d s r risk = Fulfilled (db1, report) ->
  exists k, kind = VStr k /\ reportKind report = trim k
            /\ In (trim k) reportTypeEnum
            /\ nextId db1 = N.succ (nextId db).
Proof.
  unfold Report_create. destruct kind as [| | | |k|]; try discriminate.
  destruct (inEnum (trim k) reportTypeEnum) eqn:E; [|discriminate].
  intros H. injection H as <- <-. exists k. simpl.
  apply inEnum_In in E. auto.
Qed.

Lemma Report_create_rejects db userID name kind d s r risk :
  (forall k, kind = VStr k -> inEnum (trim k) reportTypeEnum = false) ->
  exists e, Report_create db userID name kind d s r risk = Rejected e.
Proof.
  intros H. unfold Report_create.
  destruct kind as [| | | |k|]; try (eexists; reflexivity).
  rewrite (H k eq_refl). eexists; reflexivity.
Qed.

(** *** The vault agent fails *)

(** X1.  When the extraction and both narrative generations succeed and
    the vault agent, which runs last, fails, the upload is answered 500
    with the error of the vault agent behind the prefix
    ["Patient identification failed: "]; the database is left as it was and
    no Report is created, although both narratives had been generated. *)
Theorem vault_agent_failure_persists_nothing
  (w : World) (db : Db) (req : UploadRequest) (f : UploadedFile)
  (er : ExtractionResult) (s r : Narrative) (e : jsstring) :
  file req = Some f ->
  extractData w (path f) = Fulfilled er ->
  generateSummary w (jsonPath er) = Fulfilled s ->
  generateRecommendations w (jsonPath er) = Fulfilled r ->
  vaultAgent w (path f) = Rejected e ->
  let '(db', response, tr) := uploadReport w db req in
  db' = db
  /\ response
     = failureWith 500 "Failed to process report"
         (str "Patient identification failed: " ++ e)
  /\ In (SummarySettled true) tr /\ In (RecommendationSettled true) tr
  /\ In (VaultAgentSettled false) tr
  /\ (forall id, ~ In (ReportCreated id) tr)
  /\ ~ In VaultUpdated tr.
Proof.
  intros Hf HE HS HR HV.
  unfold uploadReport, processComplete, bind, await, emit, ret, promiseAll.
  rewrite Hf, HE. cbn [isFulfilled app fst snd jsonPath].
  rewrite HS, HR. unfold processWithVaultAgent. rewrite HV.
  destruct (summarySettlesFirst w); cbn [isFulfilled rethrow app fst snd].
  all: repeat match goal with |- _ /\ _ => split end; try reflexivity.
  all: simpl; try tauto.
  all: try (intros id H; decompose [or] H; try discriminate; contradiction).
  all: intros H; decompose [or] H; try discriminate; contradiction.
Qed.

Lemma vault_agent_failure_witness :
  let '(db', response, tr) :=
    uploadReport MoreExamples.namelessWorld System.emptyDb Examples.upload in
  db' = System.emptyDb
  /\ response
     = failureWith 500 "Failed to process report"
         (str "Patient identification failed: no patient name found").
Proof.
  pose proof (@vault_agent_failure_persists_nothing
                MoreExamples.namelessWorld System.emptyDb Examples.upload
                Examples.pdf
                (mkExtractionResult Examples.labData (str "out/report.json")
                                    (Some (str "Jane Doe")) 1)
                (mkNarrative (str "Low hemoglobin.") (str "/out/summary.txt"))
                (mkNarrative (str "See a doctor.")
                             (str "/out/recommendations.txt"))
                (str "no patient name found")
                eq_refl eq_refl eq_refl eq_refl eq_refl) as H.
  destruct (uploadReport MoreExamples.namelessWorld System.emptyDb
                         Examples.upload) as [[db' response] tr].
  destruct H as (H1 & H2 & _). split; assumption.
Defined.

(** *** The type of report *)

(** X2.  When the whole pipeline has succeeded and the [reportType] of the
    extracted data is truthy but is not, once trimmed, one of the five types
    of the report schema, the upload is answered 500 and nothing is
    stored. *)
Theorem unlisted_report_type_fails_upload
  (w : World) (db : Db) (req : UploadRequest) (f : UploadedFile)
  (tr : list Event) (result : PipelineResult) :
  file req = Some f ->
  processComplete w (path f) = (tr, Fulfilled result) ->
  truthyV (reportType (resultData result)) = true ->
  (forall k, reportType (resultData result) = VStr k ->
             inEnum (trim k) reportTypeEnum = false) ->
  exists error,
    uploadReport w db req
    = (db, failureWith 500 "Failed to process report" error,
       tr ++ [Responded 500]).
Proof.
  intros Hf Hp Ht Hk. unfold uploadReport. rewrite Hf, Hp.
  unfold reportTypeOr. rewrite Ht.
  destruct (@Report_create_rejects db (uploadUser req)
              (resultPatientName result) (reportType (resultData result))
              (resultData result) (resultSummary result)
              (resultRecommendations result)
              (determineRiskLevel (resultData result)) Hk) as (e & He).
  rewrite He. exists e. reflexivity.
Qed.

Lemma unlisted_report_type_witness :
  exists error tr,
    uploadReport MoreExamples.thyroidWorld System.emptyDb Examples.upload
    = (System.emptyDb, failureWith 500 "Failed to process report" error,
       tr ++ [Responded 500]).
Proof.
  destruct (processComplete MoreExamples.thyroidWorld
                            (path Examples.pdf)) as [tr [result|e]] eqn:E;
    [|vm_compute in E; discriminate].
  assert (Hd : resultData result = MoreExamples.thyroidData)
    by (vm_compute in E; injection E as _ <-; reflexivity).
  destruct (@unlisted_report_type_fails_upload
              MoreExamples.thyroidWorld System.emptyDb Examples.upload
              Examples.pdf tr result eq_refl E) as (error & H).
  - rewrite Hd. reflexivity.
  - rewrite Hd. intros k Hk. injection Hk as <-. reflexivity.
  - exists error, tr. exact H.
Defined.

(** *** The two writes are not one *)

(** X3.  The Report is created before the vault is updated, and is not
    taken back: when the file name (or the path) of the upload is empty
    once trimmed, which the vault schema refuses, the upload is answered 500
    but the new Report stays in the collection, with no vault entry that
    refers to it. *)
Theorem report_survives_failed_vault_update
  (w : World) (db db1 : Db) (req : UploadRequest) (f : UploadedFile)
  (tr : list Event) (result : PipelineResult) (report : Report) :
  file req = Some f ->
  processComplete w (path f) = (tr, Fulfilled result) ->
  Report_create db (uploadUser req) (resultPatientName result)
    (reportTypeOr (reportType (resultData result))) (resultData result)
    (resultSummary result) (resultRecommendations result)
    (determineRiskLevel (resultData result))
  = Fulfilled (db1, report) ->
  trim (originalname f) = [] \/ trim (path f) = [] ->
  let '(db', response, tr') := uploadReport w db req in
  statusCode response = 500
  /\ reports db' = reports db ++ [report]
  /\ vaults db' = vaults db
  /\ tr' = tr ++ [ReportCreated (reportId report); Responded 500].
Proof.
  intros Hf Hp Hc Hblank. unfold uploadReport. rewrite Hf, Hp, Hc.
  destruct (@updateUserVault_rejects db1 (uploadUser req) (clock w) f
              (reportId report) (resultPatientName result) Hblank)
    as (e & He).
  rewrite He. apply Report_create_ok in Hc as (Hr & Hv & _).
  repeat split; assumption.
Qed.

Lemma report_survives_witness :
  let '(db', response, tr') :=
    uploadReport (Examples.labWorld (str "Low hemoglobin.")
                                    (str "See a doctor."))
                 System.emptyDb MoreExamples.blankNameUpload in
  statusCode response = 500
  /\ List.length (reports db') = 1 /\ vaults db' = [].
Proof.
  pose (w := Examples.labWorld (str "Low hemoglobin.") (str "See a doctor.")).
  destruct (processComplete w (str "uploads/7/report.pdf"))
    as [tr [result|e]] eqn:E; [|vm_compute in E; discriminate].
  assert (Hres : result
                 = mkPipelineResult (Some (str "Jane Doe"))
                     (str "vault/Jane Doe") Examples.labData
                     (str "out/report.json") 1 (str "Low hemoglobin.")
                     (str "See a doctor.") true 1)
    by (vm_compute in E; injection E as _ <-; reflexivity).
  pose proof (@report_survives_failed_vault_update
                w System.emptyDb
                (mkDb [mkReport 0 7 (Some (str "Jane Doe")) (str "Blood Test")
                         Examples.labData (str "Low hemoglobin.")
                         (str "See a doctor.") High] [] [] 1)
                MoreExamples.blankNameUpload
                (mkUploadedFile (str "uploads/7/report.pdf") (str "  ") 2048)
                tr result
                (mkReport 0 7 (Some (str "Jane Doe")) (str "Blood Test")
                   Examples.labData (str "Low hemoglobin.")
                   (str "See a doctor.") High)
                eq_refl E) as H.
  rewrite Hres in H. specialize (H eq_refl (or_introl eq_refl)).
  fold w.
  destruct (uploadReport w System.emptyDb MoreExamples.blankNameUpload)
    as [[db' response] tr'].
  destruct H as (H1 & H2 & H3 & _).
  rewrite H2. repeat split; assumption.
Defined.

(** *** What a successful upload writes *)

(** X4.  An upload answered 201 has stored exactly one new Report, of the
    uploading user, holding the extracted data, the two narratives trimmed,
    the risk level of the data and a type of the schema (['Blood Test'] when
    the data name none); it has added exactly one entry, which refers to
    that Report, at the end of the vault of that user; and it has touched
    neither the vault of any other user nor a chat session. *)
Theorem successful_upload_effect
  (w : World) (db db' : Db) (req : UploadRequest) (response : Response)
  (tr : list Event) :
  uploadReport w db req = (db', response, tr) ->
  statusCode response = 201 ->
  exists f result report entry,
    file req = Some f
    /\ snd (processComplete w (path f)) = Fulfilled result
    /\ body response
       = UploadOk report (resultTestCount result) (isNewPatient result)
                  (totalReports result)
    /\ reports db' = reports db ++ [report]
    /\ report
       = mkReport (nextId db) (uploadUser req)
           (option_map trim (resultPatientName result)) (reportKind report)
           (resultData result) (trim (resultSummary result))
           (trim (resultRecommendations result))
           (determineRiskLevel (resultData result))
    /\ In (reportKind report) reportTypeEnum
    /\ (truthyV (reportType (resultData result)) = false ->
        reportKind report = str "Blood Test")
    /\ vaultFilesOf db' (uploadUser req)
       = vaultFilesOf db (uploadUser req) ++ [entry]
    /\ fileReport entry = Some (reportId report)
    /\ filePatientName entry = patientName report
    /\ fileName entry = trim (originalname f)
    /\ fileStatus entry = str "processed"
    /\ (forall u, u <> uploadUser req ->
                  vaultFilesOf db' u = vaultFilesOf db u)
    /\ chats db' = chats db.
Proof.
  unfold uploadReport.
  destruct (file req) as [f|];
    [|intros H; injection H as <- <- <-; discriminate].
  destruct (processComplete w (path f)) as [tr0 [result|e]] eqn:Hp;
    [|intros H; injection H as <- <- <-; discriminate].
  destruct (Report_create _ _ _ _ _ _ _ _) as [[db1 report]|e] eqn:HC;
    [|intros H; injection H as <- <- <-; discriminate].
  destruct (updateUserVault _ _ _ _ _ _) as [db2|e] eqn:HU;
    [|intros H; injection H as <- <- <-; discriminate].
  intros H _. injection H as <- <- <-.
  apply updateUserVault_effect in HU as (Hown & Hothers & Hr2 & Hc2 & _).
  cbv zeta in Hown.
  pose proof (Report_create_kind _ _ _ _ _ _ _ _ HC) as (k & Hk & Hkind & Hin & _).
  apply Report_create_ok in HC as (Hr & Hv & Hc & Hrep).
  exists f, result, report. eexists.
  assert (Hfiles : forall u, vaultFilesOf db1 u = vaultFilesOf db u)
    by (intros u; unfold vaultFilesOf; rewrite Hv; reflexivity).
  repeat match goal with |- _ /\ _ => split end.
  - reflexivity.
  - rewrite Hp. reflexivity.
  - reflexivity.
  - rewrite Hr2. exact Hr.
  - exact Hrep.
  - rewrite Hkind. exact Hin.
  - intros Hfalsy. unfold reportTypeOr in Hk. rewrite Hfalsy in Hk.
    injection Hk as <-. rewrite Hkind. reflexivity.
  - rewrite Hown, Hfiles. reflexivity.
  - reflexivity.
  - simpl. rewrite Hrep. reflexivity.
  - reflexivity.
  - reflexivity.
  - intros u Hu. rewrite (Hothers u Hu). apply Hfiles.
  - rewrite Hc2. exact Hc.
Qed.

Lemma successful_upload_witness :
  exists report entry,
    reports (Examples.dbWithReport (str "See a doctor.")) = [report]
    /\ vaultFilesOf (Examples.dbWithReport (str "See a doctor.")) 7 = [entry]
    /\ fileReport entry = Some (reportId report).
Proof.
  destruct (uploadReport (Examples.labWorld (str "Low hemoglobin.")
                                            (str "See a doctor."))
                         System.emptyDb Examples.upload)
    as [[db' response] tr] eqn:E.
  assert (Hdb : Examples.dbWithReport (str "See a doctor.") = db')
    by (unfold Examples.dbWithReport; rewrite E; reflexivity).
  assert (Hcode : statusCode response = 201)
    by (vm_compute in E; injection E as _ <- _; reflexivity).
  destruct (successful_upload_effect _ _ _ E Hcode)
    as (f & result & report & entry & _ & _ & _ & Hr & _ & _ & _ & Hv & Hf & _).
  exists report, entry. rewrite Hdb. auto.
Defined.

(** *** Reading what an insight agent prints *)

Lemma marker_found (logs rest : jsstring) :
  includes (logs ++ str "OUTPUT_FILE:" ++ rest) (str "OUTPUT_FILE:") = true.
Proof. apply includes_spec. exists logs, rest. reflexivity. Qed.

(** The path that follows the first [OUTPUT_FILE:] marker, on one line, is
    read back as it was printed. *)
Lemma printed_path_is_read (logs p : jsstring) :
  includes logs (str "OUTPUT_FILE:") = false ->
  includes p (str "OUTPUT_FILE:") = false ->
  trimmed p -> ~ In 10%N p ->
  firstLine
    (afterMarker "OUTPUT_FILE:" (logs ++ str "OUTPUT_FILE:" ++ p ++ [10%N]))
  = p.
Proof.
  intros Hlogs Hp Htrim Hline. unfold afterMarker, split.
  rewrite split_go_first.
  - cbn [nth rev app].
    rewrite split_go_whole.
    + cbn [nth rev app]. rewrite trim_line by exact Htrim.
      unfold firstLine. rewrite split_whole by (apply includes_unit, Hline).
      reflexivity.
    + apply includes_snoc; [discriminate | | exact Hp].
      vm_compute. intros H. decompose [or] H; try discriminate; contradiction.
  - discriminate.
  - intros u v E Hv.
    apply (@no_straddling_marker (str "OUTPUT_FILE") 58%N logs u v
             (p ++ [10%N])); try assumption.
    vm_compute. intros H. decompose [or] H; try discriminate; contradiction.
Qed.

(** X5.  What an insight agent prints and what the service reads agree:
    when the process ends with code 0 and its output is some log text
    without a marker, then [OUTPUT_FILE:], a path and a line feed, with no
    [ERROR:] anywhere, and the path is not empty, has no white space at
    either end and no line feed in it, then [generateSummary] and
    [generateRecommendations] read exactly the file of that path and return
    its content, unchanged, with the path. *)
Theorem agent_output_round_trip
  (w : World) (jsonFilePath logs p err content : jsstring) :
  let output := logs ++ str "OUTPUT_FILE:" ++ p ++ [10%N] in
  includes output (str "ERROR:") = false ->
  includes logs (str "OUTPUT_FILE:") = false ->
  includes p (str "OUTPUT_FILE:") = false ->
  p <> [] -> trimmed p -> ~ In 10%N p ->
  readFile w p = Some content ->
  (summaryAgent w jsonFilePath = Closed 0 output err ->
   generateSummary w jsonFilePath = Fulfilled (mkNarrative content p))
  /\ (recommendationAgent w jsonFilePath = Closed 0 output err ->
      generateRecommendations w jsonFilePath
      = Fulfilled (mkNarrative content p)).
Proof.
  intros output Herr Hlogs Hp Hne Htrim Hline Hfile.
  assert (Hpath : firstLine (afterMarker "OUTPUT_FILE:" output) = p)
    by (apply printed_path_is_read; assumption).
  assert (Hread : forall noPath notFound rejectEmpty,
             readAgentOutput w (Closed 0 output err) noPath notFound rejectEmpty
             = Fulfilled (mkNarrative content p)).
  { intros noPath notFound rejectEmpty.
    pose proof (@readAgentOutput_accepts w output err content noPath notFound
                  rejectEmpty Herr (marker_found logs (p ++ [10%N]))) as H.
    rewrite Hpath in H.
    apply H; [intros _; apply truthy_nonempty, Hne | exact Hfile]. }
  split; intros Hrun.
  - unfold generateSummary. rewrite Hrun, Hread. reflexivity.
  - unfold generateRecommendations. rewrite Hrun, Hread. reflexivity.
Qed.

Lemma agent_output_round_trip_witness :
  generateSummary MoreExamples.chattyWorld (str "out/report.json")
  = Fulfilled (mkNarrative (str "Low hemoglobin.") (str "C:/out/summary.txt")).
Proof.
  refine (proj1 (@agent_output_round_trip MoreExamples.chattyWorld
                   (str "out/report.json")
                   (str "Loading model: gemini" ++ [10%N])
                   (str "C:/out/summary.txt") [] (str "Low hemoglobin.")
                   eq_refl eq_refl eq_refl _ eq_refl _ eq_refl) eq_refl).
  - discriminate.
  - vm_compute. intros H. decompose [or] H; try discriminate; contradiction.
Defined.

End PipelineMore.


(* ================================================================== *)
(** ** What every reachable database satisfies *)
(* ================================================================== *)

Module IntegrityFacts.

Import Js Model Task Chatbot ExtractionController Integrity Requests.
Import JsFacts JsMore PipelineFacts PipelineMore ChatFacts.

(** *** Lists *)

Lemma NoDup_map_eq {A B} (f : A -> B) (l : list A) (x y : A) :
  NoDup (List.map f l) -> In x l -> In y l -> f x = f y -> x = y.
Proof.
  induction l as [|a l IH]; simpl; intros Hnd Hx Hy E; [contradiction|].
  inversion Hnd as [|? ? Hnotin Hnd']; subst.
  destruct Hx as [->|Hx], Hy as [->|Hy]; auto.
  - exfalso. apply Hnotin. rewrite E. apply in_map, Hy.
  - exfalso. apply Hnotin. rewrite <- E. apply in_map, Hx.
Qed.

Lemma NoDup_snoc {A} (l : list A) (x : A) :
  NoDup l -> ~ In x l -> NoDup (l ++ [x]).
Proof.
  intros Hl Hx. apply NoDup_app; [exact Hl | repeat constructor; auto |].
  intros a Ha [<-|[]]. exact (Hx Ha).
Qed.

Lemma removeFirst_In {A} (p : A -> bool) (l : list A) (x : A) :
  In x (removeFirst p l) -> In x l.
Proof.
  induction l as [|a l IH]; simpl; [auto|].
  destruct (p a); simpl; [auto|]. intros [H|H]; auto.
Qed.

Lemma NoDup_map_removeFirst {A B} (f : A -> B) (p : A -> bool) (l : list A) :
  NoDup (List.map f l) -> NoDup (List.map f (removeFirst p l)).
Proof.
  induction l as [|a l IH]; simpl; [auto|].
  intros Hnd. inversion Hnd as [|? ? Hnotin Hnd']; subst.
  destruct (p a); [exact Hnd'|]. simpl. constructor; [|apply IH, Hnd'].
  intros Hin. apply Hnotin. apply in_map_iff in Hin as (x & <- & Hx).
  apply in_map, (removeFirst_In _ _ _ Hx).
Qed.

Lemma NoDup_map_filter {A B} (f : A -> B) (p : A -> bool) (l : list A) :
  NoDup (List.map f l) -> NoDup (List.map f (filter p l)).
Proof.
  induction l as [|a l IH]; simpl; [auto|].
  intros Hnd. inversion Hnd as [|? ? Hnotin Hnd']; subst.
  destruct (p a); [|apply IH, Hnd']. simpl. constructor; [|apply IH, Hnd'].
  intros Hin. apply Hnotin. apply in_map_iff in Hin as (x & <- & Hx).
  apply filter_In in Hx as [Hx _]. apply in_map, Hx.
Qed.

(** Taking the first element that satisfies [p] out of a list in which it
    is the last one gives the list before it. *)
Lemma removeFirst_last {A} (p : A -> bool) (l : list A) (x : A) :
  (forall y, In y l -> p y = false) -> p x = true ->
  removeFirst p (l ++ [x]) = l.
Proof.
  intros Hl Hx. induction l as [|a l IH]; simpl; [rewrite Hx; reflexivity|].
  rewrite (Hl a) by (left; reflexivity). f_equal. apply IH.
  intros y Hy. apply Hl. right. exact Hy.
Qed.

Lemma find_none_app {A} (p : A -> bool) (l : list A) (x : A) :
  (forall y, In y l -> p y = false) ->
  find p (l ++ [x]) = if p x then Some x else None.
Proof.
  intros Hl. induction l as [|a l IH]; simpl; [reflexivity|].
  rewrite (Hl a) by (left; reflexivity). apply IH.
  intros y Hy. apply Hl. right. exact Hy.
Qed.

(** *** Vaults *)

Lemma saveVault_In (v' v : Vault) (vs : list Vault) :
  In v (saveVault v' vs) -> v = v' \/ In v vs.
Proof.
  induction vs as [|x vs IH]; simpl; [auto|].
  destruct (vaultUser x =? vaultUser v')%N; simpl; intros [H|H]; auto.
  destruct (IH H); auto.
Qed.

Lemma saveVault_users (v' : Vault) (vs : list Vault) :
  List.map vaultUser (saveVault v' vs) = List.map vaultUser vs.
Proof.
  induction vs as [|x vs IH]; simpl; [reflexivity|].
  destruct (vaultUser x =? vaultUser v')%N eqn:E; simpl.
  - apply N.eqb_eq in E. rewrite E. reflexivity.
  - rewrite IH. reflexivity.
Qed.

Lemma findVault_none (u : Id) (vs : list Vault) :
  findVault u vs = None -> ~ In u (List.map vaultUser vs).
Proof.
  induction vs as [|x vs IH]; simpl; [auto|].
  destruct (vaultUser x =? u)%N eqn:E; [discriminate|].
  apply N.eqb_neq in E. intros H [H1|H1]; [congruence | exact (IH H H1)].
Qed.

(** *** Sessions *)

Lemma findSessionFor_none (db : Db) (userId rid : Id) :
  findSessionFor db userId rid = None ->
  ~ In (userId, rid) (List.map sessionKey (chats db)).
Proof.
  unfold findSessionFor. intros H Hin.
  apply in_map_iff in Hin as (s & E & Hs). unfold sessionKey in E.
  injection E as E1 E2.
  pose proof (find_none _ _ H s Hs) as Hf. cbv beta in Hf.
  rewrite E1, E2, !N.eqb_refl in Hf. discriminate.
Qed.

Lemma saveSession_same (db : Db) (s s' : ChatSession) :
  NoDup (List.map chatId (chats db)) ->
  In s (chats db) -> chatId s' = chatId s ->
  forall s0, In s0 (chats db) ->
    (if (chatId s0 =? chatId s')%N then s' else s0) = s0
    \/ ((if (chatId s0 =? chatId s')%N then s' else s0) = s' /\ s0 = s).
Proof.
  intros Hnd Hs Hid s0 Hs0. destruct (chatId s0 =? chatId s')%N eqn:E; [|auto].
  right. split; [reflexivity|]. apply N.eqb_eq in E.
  apply (NoDup_map_eq chatId _ _ _ Hnd Hs0 Hs). congruence.
Qed.

Lemma saveSession_map {B} (f : ChatSession -> B) (db : Db)
  (s s' : ChatSession) :
  NoDup (List.map chatId (chats db)) ->
  In s (chats db) -> chatId s' = chatId s -> f s' = f s ->
  List.map f (chats (saveSession db s')) = List.map f (chats db).
Proof.
  intros Hnd Hs Hid Hf. unfold saveSession. simpl. rewrite map_map.
  apply map_ext_in. intros s0 Hs0.
  destruct (saveSession_same db s s' Hnd Hs Hid s0 Hs0) as [->|[-> ->]];
    [reflexivity | exact Hf].
Qed.

Lemma findSession_unique (db : Db) (s : ChatSession) :
  NoDup (List.map chatId (chats db)) -> In s (chats db) ->
  findSession db (Some (chatId s)) (chatUser s) = Some s.
Proof.
  intros Hnd Hs. unfold findSession.
  destruct (find _ (chats db)) as [s0|] eqn:E.
  - apply find_some in E as [Hs0 E]. apply andb_prop in E as [E _].
    apply N.eqb_eq in E. f_equal.
    exact (NoDup_map_eq chatId _ _ _ Hnd Hs0 Hs E).
  - pose proof (find_none _ _ E s Hs) as H. cbv beta in H.
    rewrite !N.eqb_refl in H. discriminate.
Qed.

(** What a message request does to the database: nothing, or one save of
    the session it is addressed to, after the validation of the route and
    of the schema. *)
Lemma postMessage_cases (rev : Revision) (w : World) (db : Db)
  (req : Request) :
  fst (fst (postMessage rev w db req)) = db
  \/ exists s text reply,
       reqMessage req = VStr text
       /\ List.length text <= 1000
       /\ findSession db (reqChatId req) (reqUser req) = Some s
       /\ let u := chatMessage user (trim text) (userStamp w) in
          let a := chatMessage assistant reply (botStamp w) in
          let h2 := chatHistory s ++ [u; a] in
          let h3 := if Nat.ltb 20 (List.length h2)
                    then sliceLast 20 h2 else h2 in
          validHistory h3 = true
          /\ postMessage rev w db req
             = (saveSession db (mkChatSession (chatId s) (chatUser s)
                                              (relatedReportID s) h3),
                mkResponse 200 (ChatReply reply h3),
                [BotCalled; SessionSaved]).
Proof.
  unfold postMessage.
  destruct (validateMessage req) eqn:Hv; [left; reflexivity|].
  apply ChatClaims.validateMessage_next in Hv as (c & text & Hm & _ & Hlen & _).
  destruct (chatRateLimit w db req); [left; reflexivity|].
  unfold sendMessage. rewrite Hm.
  destruct (Nat.eqb _ 0); [left; reflexivity|].
  destruct (findSession db (reqChatId req) (reqUser req)) as [s|] eqn:Hs;
    [|left; reflexivity].
  destruct (populateReport db (relatedReportID s)) as [report|];
    [|left; reflexivity].
  destruct (reportDataFor rev (extractedData report)) as [data|];
    [|left; reflexivity].
  destruct (_callChatBot _) as [reply|e]; [|left; reflexivity].
  cbv zeta. rewrite <- app_assoc. cbn [app].
  destruct (validHistory _) eqn:Hvalid; [|left; reflexivity].
  right. exists s, (c :: text), reply.
  repeat match goal with |- _ /\ _ => split end;
    try reflexivity; assumption.
Qed.

(** *** The steps keep the database well formed *)

Lemma ValidMessage_chatMessage (r : Role) (text : jsstring) (now : Z) :
  truthy (message (chatMessage r text now)) = true ->
  (r = user -> List.length text <= 1000) ->
  ValidMessage (chatMessage r text now).
Proof.
  intros Ht Hlen. unfold ValidMessage. simpl in *. repeat split.
  - apply truthy_nonempty, Ht.
  - apply trim_idempotent.
  - intros Hr. pose proof (trim_length text). specialize (Hlen Hr). lia.
Qed.

Lemma validHistory_In (h : list ChatMessage) (m : ChatMessage) :
  validHistory h = true -> In m h -> truthy (message m) = true.
Proof.
  unfold validHistory. rewrite forallb_forall. intros H Hm. exact (H m Hm).
Qed.

Lemma wf_Report_create (db db1 : Db) (u : Id) (name : option jsstring)
  (kind : value) (d : ExtractedData) (s r : jsstring) (report : Report) :
  WellFormed db ->
  Report_create db u name kind d s r (determineRiskLevel d)
  = Fulfilled (db1, report) ->
  WellFormed db1
  /\ (reportId report < nextId db1)%N
  /\ forall r0, In r0 (reports db1) -> reportId r0 = reportId report ->
                reportUser r0 = u.
Proof.
  intros [(Hr & Hrn & Hc & Hcn & Hf) Hkeys Hvaults Hown Hfiles Hvalid Hmsgs]
         HC.
  pose proof (Report_create_kind _ _ _ _ _ _ _ _ HC) as (k & _ & Hkind & Hin & Hnext).
  apply Report_create_ok in HC as (Hreports & Hv & Hchats & Hrep).
  assert (Hid : reportId report = nextId db) by (rewrite Hrep; reflexivity).
  assert (Huser : reportUser report = u) by (rewrite Hrep; reflexivity).
  assert (Hold : forall r0, In r0 (reports db1) ->
                   In r0 (reports db) \/ r0 = report).
  { intros r0 H0. rewrite Hreports in H0. apply in_app_or in H0 as [|[<-|[]]];
      auto. }
  split; [|split].
  - constructor.
    + repeat split.
      * intros r0 H0. rewrite Hnext.
        destruct (Hold r0 H0) as [H1| ->]; [specialize (Hr r0 H1)|]; lia.
      * rewrite Hreports, map_app. apply NoDup_snoc; [exact Hrn|].
        simpl. intros H0. apply in_map_iff in H0 as (r0 & E & H0).
        specialize (Hr r0 H0). lia.
      * rewrite Hchats in H. destruct (Hc s0 H). rewrite Hnext. lia.
      * rewrite Hchats in H. destruct (Hc s0 H). rewrite Hnext. lia.
      * rewrite Hchats. exact Hcn.
      * intros v f Hv0 Hf0. rewrite Hv in Hv0.
        destruct (Hf v f Hv0 Hf0) as (id & E & Hlt).
        exists id. split; [exact E | rewrite Hnext; lia].
    + rewrite Hchats. exact Hkeys.
    + rewrite Hv. exact Hvaults.
    + intros s0 Hs0 r0 Hr0 E. rewrite Hchats in Hs0.
      destruct (Hold r0 Hr0) as [H1| ->]; [exact (Hown s0 Hs0 r0 H1 E)|].
      destruct (Hc s0 Hs0). lia.
    + intros v Hv0 f Hf0. rewrite Hv in Hv0.
      destruct (Hfiles v Hv0 f Hf0) as (id & E & Hall).
      exists id. split; [exact E|]. intros r0 Hr0 E0.
      destruct (Hold r0 Hr0) as [H1| ->]; [exact (Hall r0 H1 E0)|].
      destruct (Hf v f Hv0 Hf0) as (id' & E' & Hlt). rewrite E in E'.
      injection E' as <-. lia.
    + intros r0 Hr0. destruct (Hold r0 Hr0) as [H1| ->]; [exact (Hvalid r0 H1)|].
      unfold ValidReport. rewrite Hkind. split; [exact Hin|].
      rewrite Hrep. simpl. repeat split; apply trim_idempotent.
    + rewrite Hchats. exact Hmsgs.
  - rewrite Hnext. lia.
  - intros r0 Hr0 E. destruct (Hold r0 Hr0) as [H1| ->]; [|exact Huser].
    specialize (Hr r0 H1). lia.
Qed.

Lemma wf_updateUserVault (db1 db2 : Db) (u : Id) (now : Z)
  (f : UploadedFile) (rid : Id) (name : option jsstring) :
  WellFormed db1 ->
  (rid < nextId db1)%N ->
  (forall r0, In r0 (reports db1) -> reportId r0 = rid -> reportUser r0 = u) ->
  updateUserVault db1 u now f rid name = Fulfilled db2 ->
  WellFormed db2.
Proof.
  intros [(Hr & Hrn & Hc & Hcn & Hf) Hkeys Hvaults Hown Hfiles Hvalid Hmsgs]
         Hrid Howner.
  unfold updateUserVault.
  destruct (truthy (trim (originalname f)) && truthy (trim (path f)));
    [|discriminate].
  intros H. injection H as <-.
  set (entry := mkVaultFile (nextId db1) (trim (originalname f)) now
                  (str "application/pdf") (size f) (trim (path f))
                  (str "processed") (Some rid) (option_map trim name)).
  set (vaults' := match findVault u (vaults db1) with
                  | Some v => saveVault (mkVault u (files v ++ [entry]))
                                        (vaults db1)
                  | None => vaults db1 ++ [mkVault u [entry]]
                  end).
  assert (Hin : forall v, In v vaults' ->
            In v (vaults db1)
            \/ exists old, v = mkVault u (old ++ [entry])
                 /\ forall f0, In f0 old ->
                      exists v0, In v0 (vaults db1) /\ vaultUser v0 = u
                                 /\ In f0 (files v0)).
  { intros v Hv. unfold vaults' in Hv.
    destruct (findVault u (vaults db1)) as [v0|] eqn:E.
    - apply saveVault_In in Hv as [->|Hv]; [|auto].
      right. exists (files v0). split; [reflexivity|].
      intros f0 Hf0. apply findVault_found in E as [E1 E2].
      exists v0. auto.
    - apply in_app_or in Hv as [Hv|[<-|[]]]; [auto|].
      right. exists []. split; [reflexivity | intros f0 []]. }
  assert (Husers : NoDup (List.map vaultUser vaults')).
  { unfold vaults'. destruct (findVault u (vaults db1)) as [v0|] eqn:E.
    - rewrite saveVault_users. exact Hvaults.
    - rewrite map_app. apply NoDup_snoc; [exact Hvaults|].
      apply findVault_none, E. }
  fold entry. fold vaults'. constructor; simpl.
  - repeat split; simpl.
    + intros r0 H0. specialize (Hr r0 H0). lia.
    + exact Hrn.
    + destruct (Hc s H). lia.
    + destruct (Hc s H). lia.
    + exact Hcn.
    + intros v f0 Hv Hf0. destruct (Hin v Hv) as [Hv0|(old & -> & Hold)].
      * destruct (Hf v f0 Hv0 Hf0) as (id & E & Hlt).
        exists id. split; [exact E | lia].
      * simpl in Hf0. apply in_app_or in Hf0 as [Hf0|[<-|[]]].
        -- destruct (Hold f0 Hf0) as (v0 & Hv0 & _ & Hf1).
           destruct (Hf v0 f0 Hv0 Hf1) as (id & E & Hlt).
           exists id. split; [exact E | lia].
        -- exists rid. split; [reflexivity | lia].
  - exact Hkeys.
  - exact Husers.
  - exact Hown.
  - intros v Hv f0 Hf0. destruct (Hin v Hv) as [Hv0|(old & -> & Hold)];
      [exact (Hfiles v Hv0 f0 Hf0)|].
    simpl in Hf0. apply in_app_or in Hf0 as [Hf0|[<-|[]]].
    + destruct (Hold f0 Hf0) as (v0 & Hv0 & Hu & Hf1).
      destruct (Hfiles v0 Hv0 f0 Hf1) as (id & E & Hall).
      exists id. split; [exact E|]. simpl. rewrite <- Hu. exact Hall.
    + exists rid. split; [reflexivity | exact Howner].
  - exact Hvalid.
  - exact Hmsgs.
Qed.

Lemma wf_uploadReport (w : AgentService.World) (db : Db) (req : UploadRequest) :
  WellFormed db -> WellFormed (fst (fst (uploadReport w db req))).
Proof.
  intros Hwf. unfold uploadReport.
  destruct (file req) as [f|]; [|exact Hwf].
  destruct (AgentService.processComplete w (path f)) as [tr [result|e]];
    [|exact Hwf].
  destruct (Report_create _ _ _ _ _ _ _ _) as [[db1 report]|e] eqn:HC;
    [|exact Hwf].
  eapply wf_Report_create in HC as (Hwf1 & Hlt & Howner); [|exact Hwf].
  destruct (updateUserVault _ _ _ _ _ _) as [db2|e] eqn:HU; [|exact Hwf1].
  eapply wf_updateUserVault; eassumption.
Qed.

Lemma wf_deleteReport (db : Db) (userId id : Id) :
  WellFormed db -> WellFormed (fst (deleteReport db userId id)).
Proof.
  intros Hwf. unfold deleteReport. destruct (find _ (reports db)); [|exact Hwf].
  destruct Hwf
    as [(Hr & Hrn & Hc & Hcn & Hf) Hkeys Hvaults Hown Hfiles Hvalid Hmsgs].
  constructor; simpl; try assumption.
  - repeat split; simpl; try assumption.
    + intros r0 H0. apply Hr. exact (removeFirst_In _ _ _ H0).
    + apply NoDup_map_removeFirst, Hrn.
    + apply Hc, H.
    + apply Hc, H.
  - intros s Hs r0 H0 E. simpl in H0.
    exact (Hown s Hs r0 (removeFirst_In _ _ _ H0) E).
  - intros v Hv f0 Hf0. destruct (Hfiles v Hv f0 Hf0) as (i & E & Hall).
    exists i. split; [exact E|]. intros r0 H0. simpl in H0.
    exact (Hall r0 (removeFirst_In _ _ _ H0)).
  - intros r0 H0. exact (Hvalid r0 (removeFirst_In _ _ _ H0)).
Qed.

Lemma wf_postStart (rev : Revision) (db : Db) (req : Request) (now : Z) :
  WellFormed db -> WellFormed (fst (postStart rev db req now)).
Proof.
  intros Hwf. unfold postStart.
  destruct (validateStartChat req); [exact Hwf|].
  unfold startChat.
  destruct (reqReportId req) as [rid|]; [|exact Hwf].
  destruct (findReport db rid (reqUser req)) as [report|] eqn:Hrep;
    [|exact Hwf].
  destruct (findSessionFor db (reqUser req) rid) eqn:Hnone; [exact Hwf|].
  set (seeds := match rev with
                | Legacy => []
                | Current => _buildInitialMessages report now
                end).
  destruct (validHistory seeds) eqn:Hseeds; [|exact Hwf].
  destruct Hwf
    as [(Hr & Hrn & Hc & Hcn & Hf) Hkeys Hvaults Hown Hfiles Hvalid Hmsgs].
  pose proof Hrep as Hfound. unfold findReport in Hfound.
  apply find_some in Hfound as [Hin Hmatch].
  apply andb_prop in Hmatch as [E1 E2]. apply N.eqb_eq in E1, E2.
  cbn [fst]. constructor; simpl.
  - repeat split; simpl.
    + intros r0 H0. specialize (Hr r0 H0). lia.
    + exact Hrn.
    + apply in_app_or in H as [H|[<-|[]]]; simpl;
        [destruct (Hc s H)|]; lia.
    + apply in_app_or in H as [H|[<-|[]]]; simpl;
        [destruct (Hc s H); lia|].
      specialize (Hr report Hin). lia.
    + rewrite map_app. apply NoDup_snoc; [exact Hcn|].
      simpl. intros H0. apply in_map_iff in H0 as (s0 & E & H0).
      destruct (Hc s0 H0). lia.
    + intros v f0 Hv Hf0. destruct (Hf v f0 Hv Hf0) as (i & E & Hlt).
      exists i. split; [exact E | lia].
  - rewrite map_app. apply NoDup_snoc; [exact Hkeys|].
    apply findSessionFor_none, Hnone.
  - exact Hvaults.
  - intros s Hs. apply in_app_or in Hs as [Hs|[<-|[]]]; [exact (Hown s Hs)|].
    intros r0 H0 E. simpl in *.
    assert (r0 = report)
      by (apply (NoDup_map_eq reportId _ _ _ Hrn H0 Hin); congruence).
    subst r0. exact E2.
  - exact Hfiles.
  - exact Hvalid.
  - intros s m Hs Hm. apply in_app_or in Hs as [Hs|[<-|[]]];
      [exact (Hmsgs s m Hs Hm)|].
    simpl in Hm. pose proof (validHistory_In _ _ Hseeds Hm) as Ht.
    unfold seeds in Hm. destruct rev; [destruct Hm|].
    destruct (_buildInitialMessages_seeds report now) as (Hroles & _ & _).
    rewrite Forall_forall in Hroles. specialize (Hroles m Hm).
    unfold ValidMessage. repeat split.
    + apply truthy_nonempty, Ht.
    + unfold _buildInitialMessages in Hm.
      apply in_app_or in Hm as [Hm|Hm];
        [destruct (truthy (summary report)) | destruct (Nat.ltb 0 _)];
        try (destruct Hm as [<-|[]]; simpl; apply trim_idempotent);
        destruct Hm.
    + rewrite Hroles. discriminate.
Qed.

Lemma sliceLast_In {A} (n : nat) (l : list A) (x : A) :
  In x (sliceLast n l) -> In x l.
Proof.
  intros H. destruct (sliceLast_suffix n l) as (dropped & E & _).
  rewrite E. apply in_or_app. right. exact H.
Qed.

Lemma wf_postMessage (rev : Revision) (w : World) (db : Db) (req : Request) :
  WellFormed db -> WellFormed (fst (fst (postMessage rev w db req))).
Proof.
  intros Hwf.
  destruct (postMessage_cases rev w db req)
    as [->|(s & text & reply & Hm & Hlen & Hs & H)]; [exact Hwf|].
  cbv zeta in H. destruct H as [Hvalid3 ->]. cbn [fst].
  set (h2 := chatHistory s
             ++ [chatMessage user (trim text) (userStamp w);
                 chatMessage assistant reply (botStamp w)]) in *.
  set (h3 := if Nat.ltb 20 (List.length h2) then sliceLast 20 h2 else h2) in *.
  set (s' := mkChatSession (chatId s) (chatUser s) (relatedReportID s) h3).
  destruct Hwf
    as [(Hr & Hrn & Hc & Hcn & Hf) Hkeys Hvaults Hown Hfiles Hvalid Hmsgs].
  apply findSession_found in Hs as (Hin & _ & _).
  assert (Hsaved : forall s0, In s0 (chats (saveSession db s')) ->
                     In s0 (chats db) \/ s0 = s').
  { intros s0 H0. apply saveSession_chats in H0 as [|]; auto. }
  constructor; simpl.
  - repeat split; simpl; try assumption.
    + destruct (Hsaved s0 H) as [H0| ->]; [apply Hc, H0 | apply (Hc s Hin)].
    + destruct (Hsaved s0 H) as [H0| ->]; [apply Hc, H0 | apply (Hc s Hin)].
    + change (NoDup (List.map chatId (chats (saveSession db s')))).
      rewrite (saveSession_map chatId db s s' Hcn Hin eq_refl eq_refl).
      exact Hcn.
  - change (NoDup (List.map sessionKey (chats (saveSession db s')))).
    rewrite (saveSession_map sessionKey db s s' Hcn Hin eq_refl eq_refl).
    exact Hkeys.
  - exact Hvaults.
  - intros s0 H0. destruct (Hsaved s0 H0) as [H1| ->];
      [exact (Hown s0 H1) | exact (Hown s Hin)].
  - exact Hfiles.
  - exact Hvalid.
  - intros s0 m H0 Hmem. destruct (Hsaved s0 H0) as [H1| ->];
      [exact (Hmsgs s0 m H1 Hmem)|].
    simpl in Hmem.
    assert (Hm2 : In m h2).
    { unfold h3 in Hmem. destruct (Nat.ltb 20 (List.length h2));
        [exact (sliceLast_In _ _ _ Hmem) | exact Hmem]. }
    pose proof (validHistory_In _ _ Hvalid3 Hmem) as Ht.
    unfold h2 in Hm2. apply in_app_or in Hm2 as [Hm2|[<-|[<-|[]]]].
    + exact (Hmsgs s m Hin Hm2).
    + apply ValidMessage_chatMessage; [exact Ht|].
      intros _. pose proof (trim_length text). lia.
    + apply ValidMessage_chatMessage; [exact Ht | discriminate].
Qed.

Lemma wf_deleteChat (db : Db) (req : Request) :
  WellFormed db -> WellFormed (fst (deleteChat db req)).
Proof.
  intros Hwf. unfold deleteChat.
  destruct (findSession db (reqChatId req) (reqUser req)) as [s|]; [|exact Hwf].
  destruct Hwf
    as [(Hr & Hrn & Hc & Hcn & Hf) Hkeys Hvaults Hown Hfiles Hvalid Hmsgs].
  constructor; simpl; try assumption.
  - repeat split; simpl; try assumption.
    + apply filter_In in H as [H _]. apply Hc, H.
    + apply filter_In in H as [H _]. apply Hc, H.
    + apply NoDup_map_filter, Hcn.
  - apply NoDup_map_filter, Hkeys.
  - intros s0 H0. apply filter_In in H0 as [H0 _]. exact (Hown s0 H0).
  - intros s0 m H0. apply filter_In in H0 as [H0 _]. exact (Hmsgs s0 m H0).
Qed.

Lemma wf_handle (rev : Revision) (db : Db) (a : Action) :
  WellFormed db -> WellFormed (handle rev db a).
Proof.
  destruct a; simpl.
  - apply wf_uploadReport.
  - apply wf_deleteReport.
  - apply wf_postStart.
  - apply wf_postMessage.
  - apply wf_deleteChat.
Qed.

Lemma wf_emptyDb : WellFormed System.emptyDb.
Proof.
  constructor; simpl.
  - repeat split; simpl; try (intros; simpl in *; contradiction);
      try constructor.
  - constructor.
  - constructor.
  - intros s [].
  - intros v [].
  - intros r [].
  - intros s m [].
Qed.

(** A step of the transition system is a handled request. *)
Lemma step_handle (rev : Revision) (db db' : Db) :
  System.Step rev db db' <-> exists a, db' = handle rev db a.
Proof.
  split.
  - intros []; [eexists (Upload _ _) | eexists (DeleteReport _ _)
                | eexists (StartChat _ _) | eexists (SendMessage _ _)
                | eexists (DeleteChat _)]; reflexivity.
  - intros ([] & ->); simpl; constructor.
Qed.

Lemma reachable_wellformed (rev : Revision) (db : Db) :
  System.Reachable rev db -> WellFormed db.
Proof.
  induction 1 as [|db db' _ IH Hstep]; [apply wf_emptyDb|].
  apply step_handle in Hstep as (a & ->). apply wf_handle, IH.
Qed.

End IntegrityFacts.


(* ================================================================== *)
(** ** Ownership, references and bounds, in every reachable database *)
(* ================================================================== *)

Module IntegrityClaims.

Import Js Model Task Chatbot ExtractionController Integrity Requests.
Import JsFacts JsMore PipelineFacts PipelineMore ChatFacts IntegrityFacts.

(** *** Reachable databases of the examples *)

Lemma reachable_handle (rev : Revision) (db : Db) (a : Action) :
  System.Reachable rev db -> System.Reachable rev (handle rev db a).
Proof.
  intros H. apply System.ReachStep with (db := db); [exact H|].
  apply step_handle. exists a. reflexivity.
Qed.

Lemma reachable_lab (rev : Revision) (recommendationsText : jsstring) :
  System.Reachable rev (Examples.dbWithReport recommendationsText).
Proof.
  apply (reachable_handle
           (Upload (Examples.labWorld (str "Low hemoglobin.")
                                      recommendationsText)
                   Examples.upload)).
  apply System.ReachEmpty.
Qed.

Lemma reachable_started (rev : Revision) (recommendationsText : jsstring)
  (now : Z) :
  System.Reachable rev
    (fst (postStart rev (Examples.dbWithReport recommendationsText)
                    Examples.startRequest now)).
Proof.
  apply (reachable_handle (StartChat Examples.startRequest now)).
  apply reachable_lab.
Qed.

(** *** One session for a report, one vault for a user *)

(** X6.  However the requests follow each other, a user never has two
    chat sessions for the same Report: two stored sessions of the same user
    and Report are one session. *)
Theorem one_session_per_report (rev : Revision) (db : Db)
  (s1 s2 : ChatSession) :
  System.Reachable rev db ->
  In s1 (chats db) -> In s2 (chats db) ->
  chatUser s1 = chatUser s2 -> relatedReportID s1 = relatedReportID s2 ->
  s1 = s2.
Proof.
  intros Hreach H1 H2 Eu Er.
  apply reachable_wellformed in Hreach as [].
  apply (NoDup_map_eq sessionKey _ _ _ oneSessionPerReport0 H1 H2).
  unfold sessionKey. congruence.
Qed.

Lemma one_session_per_report_witness :
  let db := fst (postStart Current (Examples.dbWithReport [])
                           Examples.startRequest 5000) in
  exists s,
    In s (chats db)
    /\ s = last (chats db) (mkChatSession 0 0 0 []).
Proof.
  cbv zeta.
  destruct (chats (fst (postStart Current (Examples.dbWithReport [])
                                  Examples.startRequest 5000)))
    as [|s l] eqn:E; [vm_compute in E; discriminate|].
  assert (Hl : l = []) by (vm_compute in E; injection E as _ <-; reflexivity).
  assert (Hs : chatUser s = 7%N /\ relatedReportID s = 0%N)
    by (vm_compute in E; injection E as <- _; split; reflexivity).
  exists s. split; [left; reflexivity|].
  apply (@one_session_per_report Current
           (fst (postStart Current (Examples.dbWithReport [])
                           Examples.startRequest 5000))
           s (last (s :: l) (mkChatSession 0 0 0 []))
           (reachable_started Current [] 5000)).
  - rewrite E. left. reflexivity.
  - rewrite E, Hl. left. reflexivity.
  - rewrite Hl. reflexivity.
  - rewrite Hl. reflexivity.
Defined.

(** X7.  A user never has two vaults: the vault that
    [Vault.findOne({ userID })] finds is the only vault of the user. *)
Theorem one_vault_per_user (rev : Revision) (db : Db) (v : Vault) :
  System.Reachable rev db ->
  In v (vaults db) ->
  findVault (vaultUser v) (vaults db) = Some v
  /\ forall v', In v' (vaults db) -> vaultUser v' = vaultUser v -> v' = v.
Proof.
  intros Hreach Hv. apply reachable_wellformed in Hreach as [].
  assert (Hone : forall v', In v' (vaults db) ->
                   vaultUser v' = vaultUser v -> v' = v)
    by (intros v' Hv' E;
        exact (NoDup_map_eq vaultUser _ _ _ oneVaultPerUser0 Hv' Hv E)).
  split; [|exact Hone].
  destruct (findVault (vaultUser v) (vaults db)) as [v0|] eqn:E.
  - apply findVault_found in E as [E1 E2]. f_equal. exact (Hone v0 E1 E2).
  - exfalso. apply (findVault_none _ _ E). apply in_map, Hv.
Qed.

Lemma one_vault_per_user_witness :
  exists v,
    In v (vaults (Examples.dbWithReport []))
    /\ findVault 7 (vaults (Examples.dbWithReport [])) = Some v.
Proof.
  assert (H : exists v, In v (vaults (Examples.dbWithReport []))
                        /\ vaultUser v = 7%N)
    by (eexists; vm_compute; split; [left|]; reflexivity).
  destruct H as (v & Hv & Hu). exists v. split; [exact Hv|].
  destruct (@one_vault_per_user Current _ v (reachable_lab Current []) Hv)
    as (H1 & _).
  rewrite Hu in H1. exact H1.
Defined.

(** *** A request touches the documents of its sender only *)

Lemma saveVault_others (v' v : Vault) (vs : list Vault) :
  vaultUser v <> vaultUser v' ->
  In v (saveVault v' vs) <-> In v vs.
Proof.
  intros Hu. induction vs as [|x vs IH]; simpl; [tauto|].
  destruct (vaultUser x =? vaultUser v')%N eqn:E; simpl.
  - apply N.eqb_eq in E. split; intros [H|H]; auto.
    + subst. congruence.
    + subst. congruence.
  - rewrite IH. tauto.
Qed.

Lemma removeFirst_others {A} (p : A -> bool) (l : list A) (x : A) :
  p x = false -> In x (removeFirst p l) <-> In x l.
Proof.
  intros Hx. induction l as [|a l IH]; simpl; [tauto|].
  destruct (p a) eqn:E; simpl; [|rewrite IH; tauto].
  split; [auto|]. intros [->|H]; [congruence | exact H].
Qed.

Lemma in_snoc {A} (l : list A) (x y : A) :
  In y (l ++ [x]) <-> In y l \/ y = x.
Proof.
  rewrite in_app_iff. simpl. intuition.
Qed.

(** What an upload does to each collection. *)
Lemma uploadReport_frame (w : AgentService.World) (db : Db)
  (req : UploadRequest) :
  let db' := fst (fst (uploadReport w db req)) in
  (reports db' = reports db
   \/ exists report,
        reports db' = reports db ++ [report]
        /\ reportUser report = uploadUser req)
  /\ chats db' = chats db
  /\ forall v, vaultUser v <> uploadUser req ->
               In v (vaults db') <-> In v (vaults db).
Proof.
  cbv zeta. split; [|split; [apply uploadReport_chats|]].
  - unfold uploadReport.
    destruct (file req) as [f|]; [|left; reflexivity].
    destruct (AgentService.processComplete w (path f)) as [tr [result|e]];
      [|left; reflexivity].
    destruct (Report_create _ _ _ _ _ _ _ _) as [[db1 report]|e] eqn:HC;
      [|left; reflexivity].
    apply Report_create_ok in HC as (Hr & _ & _ & Hrep).
    right. exists report. split; [|rewrite Hrep; reflexivity].
    destruct (updateUserVault _ _ _ _ _ _) as [db2|e] eqn:HU; [|exact Hr].
    apply updateUserVault_ok in HU as (Hr2 & _). cbn [fst].
    rewrite Hr2. exact Hr.
  - intros v Hv. unfold uploadReport.
    destruct (file req) as [f|]; [|reflexivity].
    destruct (AgentService.processComplete w (path f)) as [tr [result|e]];
      [|reflexivity].
    destruct (Report_create _ _ _ _ _ _ _ _) as [[db1 report]|e] eqn:HC;
      [|reflexivity].
    apply Report_create_ok in HC as (_ & Hv1 & _ & _).
    destruct (updateUserVault _ _ _ _ _ _) as [db2|e] eqn:HU;
      [|cbn [fst]; rewrite Hv1; reflexivity].
    cbn [fst]. unfold updateUserVault in HU.
    destruct (truthy _ && truthy _); [|discriminate].
    injection HU as <-. simpl. rewrite Hv1.
    destruct (findVault (uploadUser req) (vaults db)) as [v0|].
    + apply saveVault_others. exact Hv.
    + rewrite in_snoc. split; [|auto].
      intros [H| ->]; [exact H | contradiction Hv; reflexivity].
Qed.

(** X8.  A request changes the documents of the user who sends it, and no
    others: after any upload, report deletion, chat start, chat message or
    chat deletion, the reports, the chat sessions and the vaults that
    belong to other users are exactly the ones that were stored before. *)
Theorem requests_touch_only_own_documents
  (rev : Revision) (db : Db) (a : Action) :
  System.Reachable rev db ->
  let db' := handle rev db a in
  (forall r, reportUser r <> actor a ->
             In r (reports db') <-> In r (reports db))
  /\ (forall s, chatUser s <> actor a ->
                In s (chats db') <-> In s (chats db))
  /\ (forall v, vaultUser v <> actor a ->
                In v (vaults db') <-> In v (vaults db)).
Proof.
  intros Hreach. apply reachable_wellformed in Hreach as [].
  destruct freshIds0 as (_ & _ & _ & Hcn & _).
  destruct a as [w req|userId id|req now|w req|req]; cbv zeta; simpl.
  - (* upload *)
    destruct (uploadReport_frame w db req) as (Hr & Hc & Hv).
    cbv zeta in Hr, Hc, Hv. split; [|split].
    + intros r Hu. destruct Hr as [->|(report & -> & Hrep)]; [reflexivity|].
      rewrite in_snoc. split; [|auto].
      intros [H| ->]; [exact H | contradiction].
    + intros s _. rewrite Hc. reflexivity.
    + exact Hv.
  - (* report deletion *)
    unfold deleteReport. destruct (find _ (reports db)) as [found|]; simpl;
      [|repeat split; auto].
    split; [|split; reflexivity].
    intros r Hu. apply removeFirst_others.
    apply andb_false_intro2. apply N.eqb_neq. exact Hu.
  - (* chat start *)
    unfold postStart. destruct (validateStartChat req);
      [repeat split; auto|].
    unfold startChat.
    destruct (reqReportId req) as [rid|]; [|repeat split; auto].
    destruct (findReport db rid (reqUser req)); [|repeat split; auto].
    destruct (findSessionFor db (reqUser req) rid); [repeat split; auto|].
    destruct (validHistory _); [|repeat split; auto].
    simpl. split; [reflexivity | split; [|reflexivity]].
    intros s Hu. rewrite in_snoc. split; [|auto].
    intros [H| ->]; [exact H | contradiction Hu; reflexivity].
  - (* chat message *)
    destruct (postMessage_cases rev w db req)
      as [->|(s & text & reply & _ & _ & Hs & H)]; [repeat split; auto|].
    cbv zeta in H. destruct H as [_ ->]. cbn [fst].
    split; [reflexivity | split; [|reflexivity]].
    apply findSession_found in Hs as (Hin & _ & Hu).
    intros s0 Hu0. split.
    + intros H0. apply saveSession_chats in H0 as [->|H0]; [|exact H0].
      simpl in Hu0. congruence.
    + intros H0. unfold saveSession. simpl. apply in_map_iff.
      exists s0. split; [|exact H0].
      destruct (chatId s0 =? chatId s)%N eqn:E; [|reflexivity].
      apply N.eqb_eq in E.
      pose proof (NoDup_map_eq chatId _ _ _ Hcn H0 Hin E). subst. congruence.
  - (* chat deletion *)
    unfold deleteChat.
    destruct (findSession db (reqChatId req) (reqUser req)) as [s|] eqn:Hs;
      [|repeat split; auto].
    simpl. split; [reflexivity | split; [|reflexivity]].
    apply findSession_found in Hs as (Hin & _ & Hu).
    intros s0 Hu0. rewrite filter_In. split; [tauto|].
    intros H0. split; [exact H0|]. apply negb_true_iff, N.eqb_neq.
    intros E.
    pose proof (NoDup_map_eq chatId _ _ _ Hcn H0 Hin E). subst. congruence.
Qed.

Lemma requests_touch_only_own_documents_witness :
  let db := fst (postStart Legacy (Examples.dbWithReport [])
                           Examples.startRequest 5000) in
  let db' :=
    handle Legacy db (DeleteChat (mkRequest 8%N (Some 2%N) None VNull)) in
  In (mkChatSession 2 7 0 []) (chats db')
  <-> In (mkChatSession 2 7 0 []) (chats db).
Proof.
  cbv zeta.
  refine (proj1 (proj2 (@requests_touch_only_own_documents Legacy _
                          (DeleteChat (mkRequest 8%N (Some 2%N) None VNull))
                          (reachable_started Legacy [] 5000)))
                (mkChatSession 2 7 0 []) _).
  simpl. discriminate.
Defined.

(** *** Stored messages, stored reports, vault entries *)

(** X9.  Every message of every stored history is non-empty and has no
    white space at either end, and the messages of the user have at most
    1000 code units: the bound of the validation middleware holds for what
    is stored, whatever the order of the requests. *)
Theorem stored_messages_are_valid (rev : Revision) (db : Db)
  (s : ChatSession) (m : ChatMessage) :
  System.Reachable rev db ->
  In s (chats db) -> In m (chatHistory s) ->
  message m <> []
  /\ trim (message m) = message m
  /\ (role m = user -> List.length (message m) <= 1000).
Proof.
  intros Hreach Hs Hm. apply reachable_wellformed in Hreach as [].
  exact (validMessages0 s m Hs Hm).
Qed.

Lemma stored_messages_witness :
  let db :=
    fst (fst (postMessage Current (Examples.chatWorld true 9000)
                (fst (postStart Current (Examples.dbWithReport [])
                                Examples.startRequest 5000))
                Examples.question)) in
  exists s m,
    In s (chats db) /\ In m (chatHistory s)
    /\ role m = user /\ List.length (message m) <= 1000.
Proof.
  cbv zeta.
  set (db := fst (fst (postMessage Current (Examples.chatWorld true 9000)
                (fst (postStart Current (Examples.dbWithReport [])
                                Examples.startRequest 5000))
                Examples.question))).
  assert (Hreach : System.Reachable Current db).
  { apply (reachable_handle
             (SendMessage (Examples.chatWorld true 9000) Examples.question)).
    apply reachable_started. }
  destruct (chats db) as [|s l] eqn:E; [vm_compute in E; discriminate|].
  destruct (chatHistory s) as [|m0 [|m h]] eqn:Eh;
    try (vm_compute in E; injection E as <- _; vm_compute in Eh; discriminate).
  assert (Hrole : role m = user)
    by (vm_compute in E; injection E as <- _; vm_compute in Eh;
        injection Eh as _ <- _; reflexivity).
  assert (Hs : In s (chats db)) by (rewrite E; left; reflexivity).
  assert (Hm : In m (chatHistory s)) by (rewrite Eh; right; left; reflexivity).
  exists s, m.
  split; [left; reflexivity|].
  split; [rewrite Eh; right; left; reflexivity|].
  split; [exact Hrole|].
  exact (proj2 (proj2 (@stored_messages_are_valid Current db s m Hreach Hs Hm))
               Hrole).
Defined.

(** X10.  Every stored Report, at any time, has one of the five types of
    the schema, a summary and recommendations without white space at either
    end, and the risk level that [determineRiskLevel] gives for its own
    extracted data: no request changes a Report once it is created. *)
Theorem stored_reports_are_valid (rev : Revision) (db : Db) (r : Report) :
  System.Reachable rev db ->
  In r (reports db) ->
  In (reportKind r) reportTypeEnum
  /\ trim (summary r) = summary r
  /\ trim (recommendations r) = recommendations r
  /\ riskLevel r = determineRiskLevel (extractedData r).
Proof.
  intros Hreach Hr. apply reachable_wellformed in Hreach as [].
  exact (validReports0 r Hr).
Qed.

Lemma stored_reports_witness :
  exists r,
    In r (reports (Examples.dbWithReport (str "See a doctor.")))
    /\ riskLevel r = determineRiskLevel (extractedData r).
Proof.
  destruct (reports (Examples.dbWithReport (str "See a doctor.")))
    as [|r l] eqn:E; [vm_compute in E; discriminate|].
  exists r. split; [left; reflexivity|].
  refine (proj2 (proj2 (proj2
            (@stored_reports_are_valid Current _ r
               (reachable_lab Current (str "See a doctor.")) _)))).
  rewrite E. left. reflexivity.
Defined.

(** X11.  Every entry of a vault refers to a Report, and that Report, as
    long as it is stored, belongs to the owner of the vault. *)
Theorem vault_entries_refer_to_own_reports (rev : Revision) (db : Db)
  (v : Vault) (f : VaultFile) :
  System.Reachable rev db ->
  In v (vaults db) -> In f (files v) ->
  exists id,
    fileReport f = Some id
    /\ forall r, In r (reports db) -> reportId r = id ->
                 reportUser r = vaultUser v.
Proof.
  intros Hreach Hv Hf. apply reachable_wellformed in Hreach as [].
  exact (ownFiles0 v Hv f Hf).
Qed.

Lemma vault_entries_witness :
  exists v f id,
    In v (vaults (Examples.dbWithReport [])) /\ In f (files v)
    /\ fileReport f = Some id.
Proof.
  destruct (vaults (Examples.dbWithReport [])) as [|v l] eqn:E;
    [vm_compute in E; discriminate|].
  destruct (files v) as [|f fs] eqn:Ef;
    [vm_compute in E; injection E as <- _; vm_compute in Ef; discriminate|].
  assert (Hv : In v (vaults (Examples.dbWithReport [])))
    by (rewrite E; left; reflexivity).
  assert (Hf : In f (files v)) by (rewrite Ef; left; reflexivity).
  destruct (@vault_entries_refer_to_own_reports Current _ v f
              (reachable_lab Current []) Hv Hf) as (id & H & _).
  exists v, f, id.
  split; [left; reflexivity|].
  split; [rewrite Ef; left; reflexivity | exact H].
Defined.

(** *** The report a chat works on *)

Lemma populateReport_found (db : Db) (id : Id) (report : Report) :
  populateReport db id = Some report ->
  In report (reports db) /\ reportId report = id.
Proof.
  unfold populateReport. intros H. apply find_some in H as [H E].
  apply N.eqb_eq in E. auto.
Qed.

(** X12.  The lookup of the report of a session is by id alone, yet a
    chat never works on the report of another user: in a completed turn
    the data handed to the chatbot are those of a Report of the requesting
    user, and the report shown with a chat history is a Report of the user
    who asks for it. *)
Theorem chat_reads_own_report (rev : Revision) (db : Db) :
  System.Reachable rev db ->
  (forall w req reply kept,
      snd (fst (postMessage rev w db req))
      = mkResponse 200 (ChatReply reply kept) ->
      exists s report reportData text,
        findSession db (reqChatId req) (reqUser req) = Some s
        /\ populateReport db (relatedReportID s) = Some report
        /\ reportUser report = reqUser req
        /\ reportDataFor rev (extractedData report) = Some reportData
        /\ reqMessage req = VStr text
        /\ _callChatBot
             (botProcess w reportData
                (chatHistory s
                 ++ [chatMessage user (trim text) (userStamp w)]) text)
           = Fulfilled reply)
  /\ (forall userId id session card,
        Reads.getChatHistory db userId id = inr (session, Some card) ->
        chatUser session = userId
        /\ exists report,
             In report (reports db) /\ reportUser report = userId
             /\ card = Reads.cardOf report).
Proof.
  intros Hreach. apply reachable_wellformed in Hreach as [].
  split.
  - intros w req reply kept H.
    destruct (postMessage_handled rev w db req)
      as [code text error events Hcode _
         | s text reply' report data Hm Hs Hr Hd u a h2 h3 Hb];
      [simpl in H; injection H as E _; congruence|].
    simpl in H. injection H as <- _.
    exists s, report, data, text.
    pose proof (findSession_found _ _ _ Hs) as (Hin & _ & Hu).
    pose proof (populateReport_found _ _ Hr) as (Hrin & Hid).
    repeat split; try assumption.
    rewrite <- Hu. exact (ownReports0 s Hin report Hrin Hid).
  - intros userId id session card H. unfold Reads.getChatHistory in H.
    destruct (findSession db (Some id) userId) as [s|] eqn:Hs; [|discriminate].
    injection H as <- H.
    pose proof (findSession_found _ _ _ Hs) as (Hin & _ & Hu).
    split; [exact Hu|].
    destruct (populateReport db (relatedReportID s)) as [report|] eqn:Hr;
      [|discriminate].
    injection H as <-.
    pose proof (populateReport_found _ _ Hr) as (Hrin & Hid).
    exists report. repeat split; [exact Hrin|].
    rewrite <- Hu. exact (ownReports0 s Hin report Hrin Hid).
Qed.

Lemma chat_reads_own_report_witness :
  let db := fst (postStart Current (Examples.dbWithReport [])
                           Examples.startRequest 5000) in
  exists session card,
    Reads.getChatHistory db 7 2 = inr (session, Some card)
    /\ chatUser session = 7%N.
Proof.
  intros db.
  destruct (Reads.getChatHistory db 7 2) as [r|[session [card|]]] eqn:E;
    try (vm_compute in E; discriminate).
  exists session, card. split; [reflexivity|].
  exact (proj1 (proj2 (@chat_reads_own_report Current db
                         (reachable_started Current [] 5000))
                      7%N 2%N session card E)).
Defined.

(** *** A report is deleted under its chat *)

Lemma find_removeFirst_none (l : list Report) (userId id : Id) :
  NoDup (List.map reportId l) ->
  find (fun r => (reportId r =? id)%N && (reportUser r =? userId)%N) l
  <> None ->
  find (fun r => (reportId r =? id)%N)
       (removeFirst
          (fun r => (reportId r =? id)%N && (reportUser r =? userId)%N) l)
  = None.
Proof.
  induction l as [|r l IH]; simpl; [congruence|].
  intros Hnd. inversion Hnd as [|? ? Hnotin Hnd']; subst.
  destruct ((reportId r =? id)%N && (reportUser r =? userId)%N) eqn:E.
  - intros _. apply andb_prop in E as [E _]. apply N.eqb_eq in E.
    destruct (find (fun r0 => (reportId r0 =? id)%N) l) as [r0|] eqn:F;
      [|reflexivity].
    apply find_some in F as [F1 F2]. apply N.eqb_eq in F2.
    exfalso. apply Hnotin. rewrite E, <- F2. apply in_map, F1.
  - intros H. simpl. destruct (reportId r =? id)%N eqn:E1.
    + exfalso. apply N.eqb_eq in E1.
      destruct (find (fun r0 => (reportId r0 =? id)%N
                                && (reportUser r0 =? userId)%N) l)
        as [r0|] eqn:F; [|congruence].
      apply find_some in F as [F1 F2]. apply andb_prop in F2 as [F2 _].
      apply N.eqb_eq in F2. apply Hnotin. rewrite E1, <- F2. apply in_map, F1.
    + apply IH; assumption.
Qed.

(** X13.  Deleting a Report deletes neither its chat session nor its vault
    entry.  Once the owner has deleted the Report of a session, the session
    is still stored and can still be addressed, but no message to it is
    ever answered 200: a request that passes the validation and the rate
    limiter is answered 500 ["Failed to process message"], without a call of
    the chatbot and without a change of the database; and a start request
    for the deleted Report is answered 404. *)
Theorem deleted_report_orphans_chat (rev : Revision) (db : Db)
  (s : ChatSession) :
  System.Reachable rev db ->
  In s (chats db) ->
  findReport db (relatedReportID s) (chatUser s) <> None ->
  let '(db1, answer) := deleteReport db (chatUser s) (relatedReportID s) in
  statusCode answer = 200
  /\ chats db1 = chats db /\ vaults db1 = vaults db
  /\ findSession db1 (Some (chatId s)) (chatUser s) = Some s
  /\ (forall w req,
        reqUser req = chatUser s -> reqChatId req = Some (chatId s) ->
        fst (fst (postMessage rev w db1 req)) = db1
        /\ statusCode (snd (fst (postMessage rev w db1 req))) <> 200
        /\ (validateMessage req = Next -> chatRateLimit w db1 req = Next ->
            exists error,
              postMessage rev w db1 req
              = (db1, failureWith 500 "Failed to process message" error, [])))
  /\ (forall req now,
        reqUser req = chatUser s ->
        reqReportId req = Some (relatedReportID s) ->
        postStart rev db1 req now
        = (db1, failure 404 "Report not found or access denied")).
Proof.
  intros Hreach Hs Hfound. apply reachable_wellformed in Hreach as [].
  destruct freshIds0 as (_ & Hrn & _ & Hcn & _).
  unfold deleteReport. unfold findReport in Hfound.
  destruct (find _ (reports db)) as [report|] eqn:Hrep; [|congruence].
  set (db1 := mkDb _ (vaults db) (chats db) (nextId db)).
  assert (Hgone : populateReport db1 (relatedReportID s) = None).
  { unfold populateReport, db1. simpl.
    apply find_removeFirst_none; [exact Hrn | rewrite Hrep; discriminate]. }
  assert (Hsession : findSession db1 (Some (chatId s)) (chatUser s) = Some s)
    by (apply (findSession_unique db1); assumption).
  assert (Hsend : forall w req,
            reqUser req = chatUser s -> reqChatId req = Some (chatId s) ->
            validateMessage req = Next ->
            exists error,
              sendMessage rev w db1 req
              = (db1, failureWith 500 "Failed to process message" error, [])).
  { intros w req Hu Hid Hv.
    apply ChatClaims.validateMessage_next in Hv as (c & text & Hm & Hne & _).
    unfold sendMessage. rewrite Hm, Hne, Hu, Hid, Hsession, Hgone.
    eexists. reflexivity. }
  repeat match goal with |- _ /\ _ => split end; try reflexivity.
  - exact Hsession.
  - intros w req Hu Hid.
    assert (Hcases :
              (exists r, postMessage rev w db1 req = (db1, r, [])
                         /\ statusCode r <> 200)).
    { unfold postMessage. destruct (validateMessage req) as [r|] eqn:Hv.
      - exists r. split; [reflexivity|].
        unfold validateMessage in Hv.
        destruct (reqMessage req) as [| | | |m|];
          try (injection Hv as <-; discriminate).
        destruct (negb (truthy m)); [injection Hv as <-; discriminate|].
        destruct (Nat.eqb _ 0); [injection Hv as <-; discriminate|].
        destruct (Nat.ltb 1000 _); [injection Hv as <-; discriminate|].
        destruct (reqChatId req); [discriminate|].
        injection Hv as <-; discriminate.
      - destruct (chatRateLimit w db1 req) as [r|] eqn:Hl.
        + exists r. split; [reflexivity|].
          unfold chatRateLimit in Hl.
          destruct (rateLookupThrows w); [discriminate|].
          destruct (findSession db1 (reqChatId req) (reqUser req));
            [|injection Hl as <-; discriminate].
          destruct (Nat.ltb 0 _); [|discriminate].
          destruct (nth_error _ _); [|discriminate].
          destruct (_ <? 2000)%Z; [|discriminate].
          injection Hl as <-; discriminate.
        + destruct (Hsend w req Hu Hid Hv) as (error & ->).
          eexists. split; [reflexivity | discriminate]. }
    destruct Hcases as (r & Hpost & Hcode).
    repeat split.
    + rewrite Hpost. reflexivity.
    + rewrite Hpost. exact Hcode.
    + intros Hv Hl. unfold postMessage. rewrite Hv, Hl.
      exact (Hsend w req Hu Hid Hv).
  - intros req now Hu Hid. unfold postStart, validateStartChat, startChat.
    rewrite Hid, Hu.
    replace (findReport db1 (relatedReportID s) (chatUser s)) with (@None Report);
      [reflexivity|].
    symmetry. unfold findReport.
    destruct (find _ (reports db1)) as [r0|] eqn:F; [|reflexivity].
    apply find_some in F as [F1 F2]. apply andb_prop in F2 as [F2 _].
    pose proof (find_none _ _ Hgone r0 F1) as H0. cbv beta in H0.
    congruence.
Qed.

Lemma deleted_report_orphans_chat_witness :
  let db := fst (postStart Legacy (Examples.dbWithReport [])
                           Examples.startRequest 5000) in
  let '(db1, answer) := deleteReport db 7 0 in
  List.length (reports db1) = 0
  /\ statusCode (snd (fst (postMessage Legacy (Examples.chatWorld true 9000)
                                       db1 Examples.question))) <> 200.
Proof.
  intros db.
  pose proof (@deleted_report_orphans_chat Legacy db (mkChatSession 2 7 0 [])
                (reachable_started Legacy [] 5000)) as H.
  cbn [chatUser relatedReportID chatId] in H.
  destruct (deleteReport db 7 0) as [db1 answer] eqn:E.
  assert (Hlen : List.length (reports db1) = 0)
    by (vm_compute in E; injection E as <- _; reflexivity).
  split; [exact Hlen|].
  destruct H as (_ & _ & _ & _ & H & _).
  - vm_compute. left. reflexivity.
  - vm_compute. discriminate.
  - exact (proj1 (proj2 (H (Examples.chatWorld true 9000) Examples.question
                           eq_refl eq_refl))).
Defined.

(** *** The first question after the introduction *)

Lemma _buildInitialMessages_stamps (report : Report) (now : Z) :
  Forall (fun m => timestamp m = now) (_buildInitialMessages report now).
Proof.
  unfold _buildInitialMessages. apply Forall_app. split.
  - destruct (truthy (summary report)); repeat constructor.
  - destruct (Nat.ltb 0 _); repeat constructor.
Qed.

Lemma last_stamp (h : list ChatMessage) (now : Z) :
  Forall (fun m => timestamp m = now) h -> h <> [] ->
  exists m, nth_error h (List.length h - 1) = Some m /\ timestamp m = now.
Proof.
  intros Hall Hne. destruct (exists_last Hne) as (h0 & m & ->).
  exists m. rewrite length_app. simpl.
  replace (List.length h0 + 1 - 1) with (List.length h0) by lia.
  rewrite nth_error_app2, Nat.sub_diag by lia. split; [reflexivity|].
  apply Forall_app in Hall as [_ Hall]. inversion Hall. assumption.
Qed.

(** X14.  The rate limiter looks at the last stored message, whoever
    wrote it.  Under the current controller a session that was just created
    for a Report with a summary holds introductory messages stamped with
    the time of creation, so the first question of the user, when it
    reaches the limiter less than 2000 ms after the session was created, is
    answered 429; under the legacy controller the new session is empty and
    the limiter lets the first question through. *)
Theorem first_question_after_seeding_is_rate_limited
  (rev : Revision) (db db1 : Db) (req req2 : Request) (now : Z) (rid : Id)
  (report : Report) (session : ChatSession) (w : World) :
  System.Reachable rev db ->
  reqReportId req = Some rid ->
  findReport db rid (reqUser req) = Some report ->
  findSessionFor db (reqUser req) rid = None ->
  summary report <> [] ->
  postStart rev db req now
  = (db1, mkResponse 200 (ChatReady session (summary report))) ->
  reqUser req2 = reqUser req ->
  reqChatId req2 = Some (chatId session) ->
  validateMessage req2 = Next ->
  rateLookupThrows w = false ->
  (rateNow w - now < 2000)%Z ->
  match rev with
  | Current =>
      postMessage rev w db1 req2
      = (db1, failure 429 "Please wait before sending another message", [])
  | Legacy => chatRateLimit w db1 req2 = Next
  end.
Proof.
  intros Hreach Hrid Hrep Hnone Hsum Hstart Hu Hid Hv Hthrows Hsoon.
  apply reachable_wellformed in Hreach as [].
  destruct freshIds0 as (_ & _ & Hc & _ & _).
  set (seeds := match rev with
                | Legacy => []
                | Current => _buildInitialMessages report now
                end).
  assert (Hvalid : validHistory seeds = true).
  { unfold seeds. destruct rev; [reflexivity|].
    apply _buildInitialMessages_seeds. }
  assert (Hdb1 : db1 = mkDb (reports db) (vaults db) (chats db ++ [session])
                            (N.succ (nextId db))
                 /\ session = mkChatSession (nextId db) (reqUser req) rid seeds).
  { revert Hstart. unfold postStart, validateStartChat, startChat.
    rewrite Hrid, Hrep, Hnone. fold seeds. rewrite Hvalid.
    intros H. injection H as <- <-. split; reflexivity. }
  destruct Hdb1 as (Hdb1 & Hsession).
  assert (Hfind : findSession db1 (reqChatId req2) (reqUser req2)
                  = Some session).
  { rewrite Hid, Hu, Hdb1. unfold findSession. simpl.
    rewrite find_none_app.
    - rewrite Hsession. simpl. rewrite !N.eqb_refl. reflexivity.
    - intros s0 Hs0. destruct (Hc s0 Hs0) as [Hlt _].
      apply andb_false_intro1. apply N.eqb_neq. rewrite Hsession. simpl. lia. }
  assert (Hlimit : chatRateLimit w db1 req2
                   = match rev with
                     | Current =>
                         Respond (failure 429
                                    "Please wait before sending another message")
                     | Legacy => Next
                     end).
  { unfold chatRateLimit. rewrite Hthrows, Hfind. rewrite Hsession.
    cbn [chatHistory].
    unfold seeds. destruct rev; [reflexivity|].
    assert (Hne : _buildInitialMessages report now <> []).
    { unfold _buildInitialMessages.
      destruct (truthy (summary report)) eqn:E; [discriminate|].
      destruct (summary report); [congruence | discriminate]. }
    destruct (last_stamp (_buildInitialMessages_stamps report now) Hne)
      as (m & Hm & Hstamp).
    destruct (_buildInitialMessages report now) as [|m0 h] eqn:E;
      [congruence|].
    cbn [List.length Nat.ltb Nat.leb]. cbn [List.length] in Hm.
    rewrite Hm, Hstamp.
    destruct (rateNow w - now <? 2000)%Z eqn:E1; [reflexivity|].
    apply Z.ltb_ge in E1. lia. }
  destruct rev; [exact Hlimit|].
  unfold postMessage. rewrite Hv, Hlimit. reflexivity.
Qed.

Lemma first_question_witness :
  let db1 := fst (postStart Current (Examples.dbWithReport [])
                            Examples.startRequest 5000) in
  postMessage Current (Examples.chatWorld true 5500) db1 Examples.question
  = (db1, failure 429 "Please wait before sending another message", []).
Proof.
  refine (@first_question_after_seeding_is_rate_limited
            Current (Examples.dbWithReport []) _ Examples.startRequest
            Examples.question 5000 0
            (mkReport 0 7 (Some (str "Jane Doe")) (str "Blood Test")
                      Examples.labData (str "Low hemoglobin.") [] High)
            (mkChatSession 2 7 0
               [chatMessage assistant
                  (str "Here is the report summary:" ++ [10%N]
                   ++ str "Low hemoglobin.") 5000])
            (Examples.chatWorld true 5500)
            (reachable_lab Current []) eq_refl eq_refl eq_refl _
            eq_refl eq_refl eq_refl eq_refl eq_refl eq_refl).
  discriminate.
Defined.

(** *** The life of a report *)

(** X15.  A Report that an upload has just stored is read back, as it was
    stored, by its owner through [getReportById]; any other user gets 404
    when reading it and 404, with no change, when trying to delete it; and
    when its owner deletes it, the collection of reports is again what it
    was before the upload and the Report can no longer be read. *)
Theorem report_lifecycle
  (rev : Revision) (w : AgentService.World) (db db' : Db)
  (req : UploadRequest) (report : Report) (testCount total : Z)
  (isNew : bool) (tr : list Event) :
  System.Reachable rev db ->
  uploadReport w db req
  = (db', mkResponse 201 (UploadOk report testCount isNew total), tr) ->
  let u := uploadUser req in
  Reads.getReportById db' u (reportId report) = inr report
  /\ (forall u', u' <> u ->
        Reads.getReportById db' u' (reportId report)
        = inl (failure 404 "Report not found")
        /\ deleteReport db' u' (reportId report)
           = (db', failure 404 "Report not found"))
  /\ let '(db'', answer) := deleteReport db' u (reportId report) in
     statusCode answer = 200
     /\ reports db'' = reports db
     /\ Reads.getReportById db'' u (reportId report)
        = inl (failure 404 "Report not found").
Proof.
  intros Hreach Hup u.
  apply reachable_wellformed in Hreach as [].
  destruct freshIds0 as (Hr & _ & _ & _ & _).
  assert (Hshape : reports db' = reports db ++ [report]
                   /\ reportId report = nextId db /\ reportUser report = u).
  { revert Hup. unfold uploadReport.
    destruct (file req) as [f|]; [|discriminate].
    destruct (AgentService.processComplete w (path f)) as [tr0 [result|e]];
      [|discriminate].
    destruct (Report_create _ _ _ _ _ _ _ _) as [[db1 report0]|e] eqn:HC;
      [|discriminate].
    destruct (updateUserVault _ _ _ _ _ _) as [db2|e] eqn:HU; [|discriminate].
    intros H. injection H as <- <- _ _ _ _.
    apply updateUserVault_ok in HU as (Hr2 & _).
    apply Report_create_ok in HC as (Hr1 & _ & _ & Hrep).
    rewrite Hr2, Hr1, Hrep. auto. }
  destruct Hshape as (Hreports & Hid & Huser).
  assert (Hold : forall (p : Id -> bool) r0,
             In r0 (reports db) ->
             (reportId r0 =? reportId report)%N && p (reportUser r0) = false).
  { intros p r0 H0. apply andb_false_intro1, N.eqb_neq.
    specialize (Hr r0 H0). lia. }
  assert (Hfind : forall u',
             find (fun r => (reportId r =? reportId report)%N
                            && (reportUser r =? u')%N) (reports db')
             = if (u =? u')%N then Some report else None).
  { intros u'. rewrite Hreports, find_none_app.
    - rewrite N.eqb_refl, Huser. reflexivity.
    - intros r0 H0. exact (Hold (fun x => (x =? u')%N) r0 H0). }
  split; [|split].
  - unfold Reads.getReportById, findReport. rewrite Hfind, N.eqb_refl.
    reflexivity.
  - intros u' Hu'.
    assert (E : (u =? u')%N = false) by (apply N.eqb_neq; congruence).
    unfold Reads.getReportById, findReport, deleteReport.
    rewrite Hfind, E. split; reflexivity.
  - unfold deleteReport. rewrite Hfind, N.eqb_refl.
    assert (Hback : removeFirst
                      (fun r => (reportId r =? reportId report)%N
                                && (reportUser r =? u)%N) (reports db')
                    = reports db).
    { rewrite Hreports. apply removeFirst_last.
      - intros r0 H0. exact (Hold (fun x => (x =? u)%N) r0 H0).
      - rewrite N.eqb_refl, Huser, N.eqb_refl. reflexivity. }
    split; [reflexivity | split; [exact Hback|]].
    unfold Reads.getReportById, findReport. simpl. rewrite Hback.
    destruct (find _ (reports db)) as [r0|] eqn:F; [|reflexivity].
    apply find_some in F as [F1 F2].
    rewrite (Hold (fun x => (x =? u)%N) r0 F1) in F2. discriminate.
Qed.

Lemma report_lifecycle_witness :
  exists report,
    Reads.getReportById (Examples.dbWithReport (str "See a doctor.")) 7 0
    = inr report
    /\ Reads.getReportById (Examples.dbWithReport (str "See a doctor.")) 8 0
       = inl (failure 404 "Report not found").
Proof.
  destruct (uploadReport (Examples.labWorld (str "Low hemoglobin.")
                                            (str "See a doctor."))
                         System.emptyDb Examples.upload)
    as [[db' [code [| report testCount isNew total | | |]]] tr] eqn:E;
    try (vm_compute in E; discriminate).
  assert (Hcode : code = 201)
    by (vm_compute in E; injection E as _ <- _; reflexivity).
  assert (Hid : reportId report = 0%N)
    by (vm_compute in E; injection E as _ _ <- _; reflexivity).
  assert (Hdb : Examples.dbWithReport (str "See a doctor.") = db')
    by (unfold Examples.dbWithReport; rewrite E; reflexivity).
  subst code.
  destruct (@report_lifecycle Current _ _ _ _ _ _ _ _ _
              (System.ReachEmpty Current) E) as (H1 & H2 & _).
  exists report. rewrite Hdb. rewrite Hid in H1, H2. split; [exact H1|].
  apply (H2 8%N). discriminate.
Defined.

(** *** Reports and sessions are private *)

Lemma findReport_other (db : Db) (r : Report) (u : Id) :
  NoDup (List.map reportId (reports db)) ->
  In r (reports db) -> u <> reportUser r ->
  findReport db (reportId r) u = None.
Proof.
  intros Hnd Hr Hu. unfold findReport.
  destruct (find _ (reports db)) as [r0|] eqn:F; [|reflexivity].
  apply find_some in F as [F1 F2]. apply andb_prop in F2 as [F2 F3].
  apply N.eqb_eq in F2, F3.
  pose proof (NoDup_map_eq reportId _ _ _ Hnd F1 Hr F2). subst. congruence.
Qed.

Lemma findSession_other (db : Db) (s : ChatSession) (u : Id) :
  NoDup (List.map chatId (chats db)) ->
  In s (chats db) -> u <> chatUser s ->
  findSession db (Some (chatId s)) u = None.
Proof.
  intros Hnd Hs Hu. unfold findSession.
  destruct (find _ (chats db)) as [s0|] eqn:F; [|reflexivity].
  apply find_some in F as [F1 F2]. apply andb_prop in F2 as [F2 F3].
  apply N.eqb_eq in F2, F3.
  pose proof (NoDup_map_eq chatId _ _ _ Hnd F1 Hs F2). subst. congruence.
Qed.

(** X25.  A stored Report is out of reach of every user but its owner:
    another user who names its id gets 404 from [getReportById], 404 and no
    deletion from [deleteReport], and 404 and no session from a chat start
    request. *)
Theorem reports_are_private (rev : Revision) (db : Db) (r : Report) (u : Id) :
  System.Reachable rev db ->
  In r (reports db) -> u <> reportUser r ->
  Reads.getReportById db u (reportId r) = inl (failure 404 "Report not found")
  /\ deleteReport db u (reportId r) = (db, failure 404 "Report not found")
  /\ forall req now,
       reqUser req = u -> reqReportId req = Some (reportId r) ->
       postStart rev db req now
       = (db, failure 404 "Report not found or access denied").
Proof.
  intros Hreach Hr Hu. apply reachable_wellformed in Hreach as [].
  destruct freshIds0 as (_ & Hrn & _ & _ & _).
  pose proof (findReport_other db r Hrn Hr Hu) as Hnone.
  split; [|split].
  - unfold Reads.getReportById. rewrite Hnone. reflexivity.
  - unfold deleteReport. unfold findReport in Hnone. rewrite Hnone.
    reflexivity.
  - intros req now Hreq Hid. unfold postStart, validateStartChat, startChat.
    rewrite Hid, Hreq, Hnone. reflexivity.
Qed.

Lemma reports_are_private_witness :
  Reads.getReportById (Examples.dbWithReport []) 8 0
  = inl (failure 404 "Report not found")
  /\ deleteReport (Examples.dbWithReport []) 8 0
     = (Examples.dbWithReport [], failure 404 "Report not found").
Proof.
  destruct (@reports_are_private Current (Examples.dbWithReport [])
              (mkReport 0 7 (Some (str "Jane Doe")) (str "Blood Test")
                        Examples.labData (str "Low hemoglobin.") [] High)
              8%N (reachable_lab Current [])) as (H1 & H2 & _).
  - vm_compute. left. reflexivity.
  - simpl. discriminate.
  - split; assumption.
Defined.

(** X26.  A stored chat session is out of reach of every user but its
    owner: another user who names its id gets 404 from [getChatHistory], 404
    and no deletion from [deleteChat], and a message request of that user
    is never answered 200, calls no chatbot and changes nothing; it is
    answered 404 as soon as it passes the validation. *)
Theorem sessions_are_private (rev : Revision) (db : Db) (s : ChatSession)
  (u : Id) :
  System.Reachable rev db ->
  In s (chats db) -> u <> chatUser s ->
  Reads.getChatHistory db u (chatId s)
  = inl (failure 404 "Chat session not found")
  /\ (forall req,
        reqUser req = u -> reqChatId req = Some (chatId s) ->
        deleteChat db req = (db, failure 404 "Chat session not found"))
  /\ forall w req,
       reqUser req = u -> reqChatId req = Some (chatId s) ->
       exists answer,
         postMessage rev w db req = (db, answer, [])
         /\ (statusCode answer = 400 \/ statusCode answer = 404)
         /\ (validateMessage req = Next ->
             answer = failure 404 "Chat session not found").
Proof.
  intros Hreach Hs Hu. apply reachable_wellformed in Hreach as [].
  destruct freshIds0 as (_ & _ & _ & Hcn & _).
  pose proof (findSession_other db s Hcn Hs Hu) as Hnone.
  split; [|split].
  - unfold Reads.getChatHistory. rewrite Hnone. reflexivity.
  - intros req Hreq Hid. unfold deleteChat. rewrite Hid, Hreq, Hnone.
    reflexivity.
  - intros w req Hreq Hid. unfold postMessage.
    destruct (validateMessage req) as [answer|] eqn:Hv.
    + exists answer. split; [reflexivity|]. split; [|discriminate].
      left. unfold validateMessage in Hv.
      destruct (reqMessage req) as [| | | |m|];
        try (injection Hv as <-; reflexivity).
      destruct (negb (truthy m)); [injection Hv as <-; reflexivity|].
      destruct (Nat.eqb _ 0); [injection Hv as <-; reflexivity|].
      destruct (Nat.ltb 1000 _); [injection Hv as <-; reflexivity|].
      destruct (reqChatId req); [discriminate|].
      injection Hv as <-; reflexivity.
    + exists (failure 404 "Chat session not found").
      split; [|split; [right; reflexivity | reflexivity]].
      unfold chatRateLimit. rewrite Hid, Hreq, Hnone.
      destruct (rateLookupThrows w); [|reflexivity].
      apply ChatClaims.validateMessage_next in Hv as (c & text & Hm & Hne & _).
      unfold sendMessage. rewrite Hm, Hne, Hid, Hreq, Hnone. reflexivity.
Qed.

Lemma sessions_are_private_witness :
  let db := fst (postStart Legacy (Examples.dbWithReport [])
                           Examples.startRequest 5000) in
  Reads.getChatHistory db 8 2 = inl (failure 404 "Chat session not found").
Proof.
  cbv zeta.
  refine (proj1 (@sessions_are_private Legacy _ (mkChatSession 2 7 0 []) 8%N
                   (reachable_started Legacy [] 5000) _ _)).
  - vm_compute. left. reflexivity.
  - simpl. discriminate.
Defined.

End IntegrityClaims.


(* ================================================================== *)
(** ** The vault overview: buckets, their order and their totals *)
(* ================================================================== *)

From Stdlib Require Import Permutation.

Module VaultMore.

Import Js Model VaultController VaultOverview Grouping Order Integrity.
Import Buckets JsFacts VaultFacts.

(** *** Descending order and the two sorts *)

Lemma Descending_cons {A} (key : A -> Z) (x : A) (l : list A) :
  Descending key (x :: l)
  <-> (forall y, In y l -> (key y <= key x)%Z) /\ Descending key l.
Proof.
  unfold Descending. split.
  - intros H. split.
    + intros y Hy. apply in_split in Hy as (between & after & ->).
      apply (H [] x between y after). reflexivity.
    + intros before a between y after ->.
      apply (H (x :: before) a between y after). reflexivity.
  - intros [Hhead Htail] before a between y after E.
    destruct before as [|b before]; injection E as -> ->.
    + apply Hhead. apply in_or_app. right. left. reflexivity.
    + apply (Htail before a between y after). reflexivity.
Qed.

Lemma Descending_nil {A} (key : A -> Z) : Descending key [].
Proof. intros [|? ?] x between y after E; discriminate. Qed.

Section InsertionSort.

Variables (A : Type) (key : A -> Z) (insert : A -> list A -> list A).

Hypothesis insert_nil : forall x, insert x [] = [x].

Hypothesis insert_cons :
  forall x y rest,
    insert x (y :: rest)
    = if (key x <? key y)%Z then y :: insert x rest else x :: y :: rest.

Lemma insert_permutation (x : A) (l : list A) :
  Permutation (insert x l) (x :: l).
Proof.
  induction l as [|y l IH]; [rewrite insert_nil; reflexivity|].
  rewrite insert_cons. destruct (key x <? key y)%Z; [|reflexivity].
  rewrite IH. apply perm_swap.
Qed.

Lemma sort_permutation (l : list A) :
  Permutation (fold_right insert [] l) l.
Proof.
  induction l as [|x l IH]; simpl; [reflexivity|].
  rewrite insert_permutation, IH. reflexivity.
Qed.

Lemma insert_descending (x : A) (l : list A) :
  Descending key l -> Descending key (insert x l).
Proof.
  induction l as [|y l IH]; intros Hl.
  - rewrite insert_nil. apply Descending_cons.
    split; [intros y [] | apply Descending_nil].
  - rewrite insert_cons. apply Descending_cons in Hl as [Hhead Htail].
    destruct (key x <? key y)%Z eqn:E.
    + apply Z.ltb_lt in E. apply Descending_cons. split; [|apply IH, Htail].
      intros z Hz. apply (Permutation_in _ (insert_permutation x l)) in Hz.
      destruct Hz as [<-|Hz]; [lia | apply Hhead, Hz].
    + apply Z.ltb_ge in E. apply Descending_cons. split.
      * intros z [<-|Hz]; [exact E|]. specialize (Hhead z Hz). lia.
      * apply Descending_cons. auto.
Qed.

Lemma sort_descending (l : list A) : Descending key (fold_right insert [] l).
Proof.
  induction l as [|x l IH]; simpl; [apply Descending_nil|].
  apply insert_descending, IH.
Qed.

End InsertionSort.

Lemma sortByDateDesc_permutation (l : list VaultFile) :
  Permutation (sortByDateDesc l) l.
Proof. apply (sort_permutation uploadDate insertByDate); reflexivity. Qed.

Lemma sortByDateDesc_descending (l : list VaultFile) :
  Descending uploadDate (sortByDateDesc l).
Proof. apply (sort_descending uploadDate insertByDate); reflexivity. Qed.

Lemma sortByUpdateDesc_permutation (l : list PatientVault) :
  Permutation (sortByUpdateDesc l) l.
Proof. apply (sort_permutation updatedAt insertByUpdate); reflexivity. Qed.

Lemma sortByUpdateDesc_descending (l : list PatientVault) :
  Descending updatedAt (sortByUpdateDesc l).
Proof. apply (sort_descending updatedAt insertByUpdate); reflexivity. Qed.

(** *** The map of [groupFilesByPatient] *)

Lemma mapGet_In {V} (key : jsstring) (v : V) (m : StringMap V) :
  mapGet key m = Some v -> In (key, v) m.
Proof.
  induction m as [|[k v0] m IH]; simpl; [discriminate|].
  destruct (eqb k key) eqn:E.
  - intros H. injection H as ->. apply eqb_eq in E. subst. left. reflexivity.
  - intros H. right. exact (IH H).
Qed.

Lemma mapSet_In {V} (key k : jsstring) (v v' : V) (m : StringMap V) :
  In (k, v') (mapSet key v m) -> (k = key /\ v' = v) \/ In (k, v') m.
Proof.
  induction m as [|[k0 v0] m IH]; simpl.
  - intros [H|[]]. injection H as <- <-. auto.
  - destruct (eqb k0 key) eqn:E; simpl.
    + apply eqb_eq in E. subst. intros [H|H]; [|auto].
      injection H as <- <-. auto.
    + intros [H|H]; [auto|]. destruct (IH H); auto.
Qed.

Lemma mapSet_files (key : jsstring) (g' : Group) (f : VaultFile)
  (m : StringMap Group) :
  match mapGet key m with
  | Some g => groupFiles g' = groupFiles g ++ [f]
  | None => groupFiles g' = [f]
  end ->
  Permutation (allFiles (mapSet key g' m)) (f :: allFiles m).
Proof.
  unfold allFiles, mapValues.
  induction m as [|[k v0] m IH]; simpl.
  - intros ->. reflexivity.
  - destruct (eqb k key); simpl.
    + intros ->. rewrite <- app_assoc. simpl.
      symmetry. apply Permutation_middle.
    + intros H. rewrite (IH H). symmetry. apply Permutation_middle.
Qed.

Section Buckets.

Variable toLowerCase : jsstring -> jsstring.

Lemma addFile_files (m : StringMap Group) (f : VaultFile) :
  Permutation (allFiles ((addFile toLowerCase) m f)) (f :: allFiles m).
Proof.
  unfold addFile. apply mapSet_files.
  destruct (mapGet (bucketKey toLowerCase f) m); reflexivity.
Qed.

Lemma fold_addFile_files (files : list VaultFile) (m : StringMap Group) :
  Permutation (allFiles (fold_left (addFile toLowerCase) files m)) (allFiles m ++ files).
Proof.
  revert m. induction files as [|f files IH]; intros m; simpl.
  - rewrite app_nil_r. reflexivity.
  - rewrite IH, addFile_files. simpl. apply Permutation_middle.
Qed.

Lemma addFile_groups (done : list VaultFile) (m : StringMap Group)
  (f : VaultFile) :
  GroupsOf toLowerCase done m -> GroupsOf toLowerCase (done ++ [f]) ((addFile toLowerCase) m f).
Proof.
  intros [Hgroups Hfiled]. split.
  - intros k g Hin. unfold addFile in Hin.
    apply mapSet_In in Hin as [[-> ->]|Hin].
    + destruct (mapGet (bucketKey toLowerCase f) m) as [g0|] eqn:E; simpl.
      * apply mapGet_In in E.
        destruct (Hgroups _ _ E)
          as (_ & Hkeys & before & first & after & -> & H1 & H2 & H3 & H4).
        split; [intros H; apply app_eq_nil in H as [_ H]; discriminate|].
        split.
        -- intros f0 H0. apply in_app_or in H0 as [H0|[<-|[]]];
             [exact (Hkeys f0 H0) | reflexivity].
        -- exists before, first, (after ++ [f]).
           rewrite <- app_assoc. repeat split; try assumption.
           apply in_or_app. left. exact H3.
      * split; [discriminate|]. split.
        -- intros f0 [<-|[]]. reflexivity.
        -- exists done, f, []. repeat split; try reflexivity.
           ++ left. reflexivity.
           ++ intros f0 H0 E0. apply (Hfiled f0 H0). rewrite E0. exact E.
    + destruct (Hgroups _ _ Hin)
        as (Hne & Hkeys & before & first & after & -> & H1 & H2 & H3 & H4).
      split; [exact Hne|]. split; [exact Hkeys|].
      exists before, first, (after ++ [f]).
      rewrite <- app_assoc. repeat split; assumption.
  - intros f0 H0. apply in_app_or in H0 as [H0|[<-|[]]].
    + unfold addFile.
      destruct (list_eq_dec N.eq_dec (bucketKey toLowerCase f) (bucketKey toLowerCase f0)) as [E|NE].
      * rewrite <- E, mapGet_mapSet_eq. discriminate.
      * rewrite mapGet_mapSet_neq by exact NE. exact (Hfiled f0 H0).
    + unfold addFile. rewrite mapGet_mapSet_eq. discriminate.
Qed.

Lemma fold_addFile_groups (files done : list VaultFile)
  (m : StringMap Group) :
  GroupsOf toLowerCase done m ->
  GroupsOf toLowerCase (done ++ files) (fold_left (addFile toLowerCase) files m).
Proof.
  revert done m. induction files as [|f files IH]; intros done m H; simpl.
  - rewrite app_nil_r. exact H.
  - replace (done ++ f :: files) with ((done ++ [f]) ++ files)
      by (rewrite <- app_assoc; reflexivity).
    apply IH, addFile_groups, H.
Qed.

Lemma groups_of_files (files : list VaultFile) :
  GroupsOf toLowerCase files (fold_left (addFile toLowerCase) files []).
Proof.
  apply (@fold_addFile_groups files [] []). split; [intros k g [] | intros f []].
Qed.

Lemma bucket_group (files : list VaultFile) (bucket : PatientVault) :
  In bucket (groupFilesByPatient toLowerCase files) ->
  exists k g,
    GroupOf toLowerCase files k g /\ bucket = summarize g.
Proof.
  unfold groupFilesByPatient, mapValues. rewrite map_map.
  intros H. apply in_map_iff in H as ([k g] & <- & Hin).
  exists k, g. split; [|reflexivity].
  exact (proj1 (groups_of_files files) k g Hin).
Qed.

Lemma buckets_files (files : list VaultFile) :
  Permutation
    (concat (List.map pvFiles (groupFilesByPatient toLowerCase files))) files.
Proof.
  pose proof (fold_addFile_files files []) as H. simpl in H.
  apply Permutation_trans
    with (allFiles (fold_left (addFile toLowerCase) files [])); [|exact H].
  unfold groupFilesByPatient, allFiles.
  induction (mapValues (fold_left (addFile toLowerCase) files []))
    as [|g gs IH]; simpl; [reflexivity|].
  apply Permutation_app; [apply sortByDateDesc_permutation | exact IH].
Qed.

Lemma buckets_count (files : list VaultFile) :
  list_sum (List.map totalFiles (groupFilesByPatient toLowerCase files))
  = List.length files.
Proof.
  rewrite <- (Permutation_length (buckets_files files)), length_concat.
  rewrite map_map. f_equal. apply map_ext_in. intros bucket Hin.
  destruct (bucket_group files bucket Hin) as (k & g & _ & ->). reflexivity.
Qed.

(** X16.  Grouping loses no file and files none twice: the files of the
    buckets, taken together, are the files that were given, each as often
    as it was given; no bucket is empty; the files of one bucket have the
    same bucket key; and [totalFiles] is the number of files of the bucket,
    so that the [totalFiles] of all buckets add up to the number of files
    given. *)
Theorem grouping_is_a_partition (files : list VaultFile) :
  let buckets := groupFilesByPatient toLowerCase files in
  Permutation (concat (List.map pvFiles buckets)) files
  /\ (forall bucket,
        In bucket buckets ->
        pvFiles bucket <> []
        /\ (forall f1 f2, In f1 (pvFiles bucket) -> In f2 (pvFiles bucket) ->
                          bucketKey toLowerCase f1 = bucketKey toLowerCase f2)
        /\ totalFiles bucket = List.length (pvFiles bucket))
  /\ list_sum (List.map totalFiles buckets) = List.length files.
Proof.
  cbv zeta. split; [apply buckets_files|]. split; [|apply buckets_count].
  intros bucket Hin.
  destruct (bucket_group files bucket Hin) as (k & g & (Hne & Hkeys & _) & ->).
  repeat split.
  - simpl. intros E. apply Hne.
    pose proof (sortByDateDesc_permutation (groupFiles g)) as P.
    rewrite E in P. apply Permutation_nil in P. exact P.
  - intros f1 f2 H1 H2. simpl in H1, H2.
    apply (proj1 (sortByDateDesc_In _ _)) in H1.
    apply (proj1 (sortByDateDesc_In _ _)) in H2.
    rewrite (Hkeys f1 H1), (Hkeys f2 H2). reflexivity.
Qed.

(** X17.  In every bucket the files are listed from the most recent
    upload to the oldest, and [lastUpdated] is the date of the most recent
    one: no file of the bucket is more recent, and one has that date. *)
Theorem bucket_lists_latest_first (files : list VaultFile)
  (bucket : PatientVault) :
  In bucket (groupFilesByPatient toLowerCase files) ->
  Descending uploadDate (pvFiles bucket)
  /\ exists latest rest,
       pvFiles bucket = latest :: rest
       /\ lastUpdated bucket = Some (uploadDate latest)
       /\ forall f, In f (pvFiles bucket) ->
                    (uploadDate f <= uploadDate latest)%Z.
Proof.
  intros Hin.
  destruct (bucket_group files bucket Hin) as (k & g & (Hne & _) & ->).
  pose proof (sortByDateDesc_descending (groupFiles g)) as Hsorted.
  split; [exact Hsorted|]. simpl.
  destruct (sortByDateDesc (groupFiles g)) as [|latest rest] eqn:E.
  - exfalso. apply Hne.
    pose proof (sortByDateDesc_permutation (groupFiles g)) as P.
    rewrite E in P. apply Permutation_nil in P. exact P.
  - exists latest, rest. repeat split.
    apply Descending_cons in Hsorted as [Hhead _].
    intros f [<-|Hf]; [lia | exact (Hhead f Hf)].
Qed.

(** X18.  A bucket is named after the first of the given files that has
    its bucket key, in the spelling of that file (['Unlabeled Patient'] when
    that file has no name): later files with other spellings of the name
    join the bucket without renaming it. *)
Theorem bucket_is_named_after_its_first_file (files : list VaultFile)
  (bucket : PatientVault) :
  In bucket (groupFilesByPatient toLowerCase files) ->
  exists before first after,
    files = before ++ first :: after
    /\ pvPatientName bucket = displayName first
    /\ In first (pvFiles bucket)
    /\ (forall f, In f before -> bucketKey toLowerCase f <> bucketKey toLowerCase first)
    /\ (forall f, In f (pvFiles bucket) -> bucketKey toLowerCase f = bucketKey toLowerCase first).
Proof.
  intros Hin.
  destruct (bucket_group files bucket Hin)
    as (k & g & (_ & Hkeys & before & first & after & E & H1 & H2 & H3 & H4)
        & ->).
  exists before, first, after. simpl. repeat split.
  - exact E.
  - exact H2.
  - apply (proj2 (sortByDateDesc_In _ _)), H3.
  - rewrite H1. exact H4.
  - intros f Hf. apply (proj1 (sortByDateDesc_In _ _)) in Hf.
    rewrite H1. exact (Hkeys f Hf).
Qed.

(** X19.  The overview of a user without a vault, or with an empty one,
    has no bucket and counts zero.  Otherwise its buckets are the buckets
    of the files of the vault, listed from the most recently updated to the
    least; [totalPatients] is their number, [totalReports] the number of
    files of the vault, and the [totalFiles] of the buckets add up to
    it. *)
Theorem vault_overview_counts (db : Db) (userId : Id) :
  let overview := getVaultOverview toLowerCase db userId in
  let files := vaultFilesOf db userId in
  Permutation (patientVaults overview)
              (groupFilesByPatient toLowerCase files)
  /\ Descending updatedAt (patientVaults overview)
  /\ totalPatients overview = List.length (patientVaults overview)
  /\ totalReports overview = List.length files
  /\ list_sum (List.map totalFiles (patientVaults overview))
     = totalReports overview
  /\ (files = [] -> overview = mkOverview [] 0 0).
Proof.
  cbv zeta. unfold getVaultOverview, vaultFilesOf.
  destruct (ExtractionController.findVault userId (vaults db)) as [v|].
  2:{ simpl. repeat split; try reflexivity. apply Descending_nil. }
  destruct (Nat.eqb (List.length (files v)) 0) eqn:E.
  { apply Nat.eqb_eq, length_zero_iff_nil in E. rewrite E. simpl.
    repeat split; try reflexivity. apply Descending_nil. }
  cbv zeta. cbn [patientVaults totalPatients totalReports].
  repeat match goal with |- _ /\ _ => split end.
  - apply sortByUpdateDesc_permutation.
  - apply sortByUpdateDesc_descending.
  - reflexivity.
  - reflexivity.
  - rewrite (Permutation_list_sum
               (Permutation_map totalFiles
                  (sortByUpdateDesc_permutation
                     (groupFilesByPatient toLowerCase (files v))))).
    apply buckets_count.
  - intros H. rewrite H in E. discriminate.
Qed.

End Buckets.

Lemma bucket_lists_latest_first_witness :
  exists bucket latest rest,
    In bucket (groupFilesByPatient toLowerCaseBasicLatin Examples.janeFiles)
    /\ pvFiles bucket = latest :: rest
    /\ lastUpdated bucket = Some (uploadDate latest).
Proof.
  destruct (groupFilesByPatient toLowerCaseBasicLatin Examples.janeFiles)
    as [|bucket l] eqn:E; [vm_compute in E; discriminate|].
  assert (Hin : In bucket (groupFilesByPatient toLowerCaseBasicLatin
                                               Examples.janeFiles))
    by (rewrite E; left; reflexivity).
  destruct (@bucket_lists_latest_first toLowerCaseBasicLatin
              Examples.janeFiles bucket Hin)
    as (_ & latest & rest & H1 & H2 & _).
  exists bucket, latest, rest.
  split; [left; reflexivity | split; assumption].
Defined.

Lemma bucket_is_named_witness :
  exists bucket first,
    In bucket (groupFilesByPatient toLowerCaseBasicLatin Examples.janeFiles)
    /\ pvPatientName bucket = displayName first
    /\ In first (pvFiles bucket).
Proof.
  destruct (groupFilesByPatient toLowerCaseBasicLatin Examples.janeFiles)
    as [|bucket l] eqn:E; [vm_compute in E; discriminate|].
  assert (Hin : In bucket (groupFilesByPatient toLowerCaseBasicLatin
                                               Examples.janeFiles))
    by (rewrite E; left; reflexivity).
  destruct (@bucket_is_named_after_its_first_file toLowerCaseBasicLatin
              Examples.janeFiles bucket Hin)
    as (before & first & after & _ & H1 & H2 & _).
  exists bucket, first.
  split; [left; reflexivity | split; assumption].
Defined.

End VaultMore.


(* ================================================================== *)
(** ** The chat controller: test lists, blank replies, recommendations *)
(* ================================================================== *)

Module ChatMore.

Import Js Model Task Chatbot ExtractionController Policy Integrity.
Import JsFacts JsMore ChatFacts.

(** *** Where the tests are looked for *)

Lemma firstNonEmptyArray_found (keys : list string) (d : ExtractedData) :
  (exists name t ts, In name keys /\ getArray name d = Some (t :: ts)) ->
  exists name t ts,
    In name keys /\ getArray name d = Some (t :: ts)
    /\ firstNonEmptyArray keys d = t :: ts.
Proof.
  induction keys as [|key keys IH]; intros (name & t & ts & Hin & Hget);
    [destruct Hin|].
  simpl. destruct (getArray key d) as [[|t0 ts0]|] eqn:E.
  - destruct Hin as [->|Hin]; [congruence|].
    destruct IH as (n & a & b & H1 & H2 & H3); [eauto|].
    exists n, a, b. auto.
  - exists key, t0, ts0. auto.
  - destruct Hin as [->|Hin]; [congruence|].
    destruct IH as (n & a & b & H1 & H2 & H3); [eauto|].
    exists n, a, b. auto.
Qed.

(** X20.  The risk level is computed from the [tests] array alone, while
    the current chat controller looks for the tests under six keys.  So for
    a report whose tests are filed under one of the other five keys, the
    stored risk level is [Unknown], as for a report without any test, and
    yet a chat about it goes through: the controller finds the tests, does
    not answer 400, and calls the chatbot. *)
Theorem tests_under_another_key
  (w : World) (db : Db) (req : Request) (text : jsstring) (s : ChatSession)
  (report : Report) (name : string) (t : Test) (ts : list Test) :
  reqMessage req = VStr text ->
  trim text <> [] ->
  findSession db (reqChatId req) (reqUser req) = Some s ->
  populateReport db (relatedReportID s) = Some report ->
  testEntries (extractedData report) = [] ->
  In name possibleKeys ->
  getArray name (extractedData report) = Some (t :: ts) ->
  determineRiskLevel (extractedData report) = Unknown
  /\ (exists found tests,
        In found possibleKeys
        /\ getArray found (extractedData report) = Some tests
        /\ tests <> []
        /\ _extractTests (extractedData report) = tests)
  /\ In BotCalled (snd (sendMessage Current w db req)).
Proof.
  intros Hm Htext Hs Hr Hnone Hin Hget.
  destruct (@firstNonEmptyArray_found possibleKeys (extractedData report))
    as (found & t0 & ts0 & H1 & H2 & H3); [eauto|].
  split; [|split].
  - unfold determineRiskLevel. unfold testEntries in Hnone.
    destruct (getArray "tests" (extractedData report)) as [tests|];
      [rewrite Hnone|]; reflexivity.
  - exists found, (t0 :: ts0). repeat split; try assumption. discriminate.
  - unfold sendMessage. rewrite Hm.
    destruct text as [|c text]; [contradiction Htext; reflexivity|].
    destruct (Nat.eqb (List.length (trim (c :: text))) 0) eqn:E.
    { apply Nat.eqb_eq, length_zero_iff_nil in E. contradiction. }
    rewrite Hs, Hr. unfold reportDataFor, _extractTests. rewrite H3.
    destruct (_callChatBot _); [|left; reflexivity].
    cbv zeta. destruct (validHistory _); left; reflexivity.
Qed.

Lemma tests_under_another_key_witness :
  determineRiskLevel MoreExamples.renamedData = Unknown
  /\ In BotCalled
       (snd (sendMessage Current (Examples.chatWorld true 9000)
                         MoreExamples.renamedDb Examples.question)).
Proof.
  destruct (@tests_under_another_key
              (Examples.chatWorld true 9000) MoreExamples.renamedDb
              Examples.question (str "What does my hemoglobin mean?")
              (mkChatSession 2 7 0 [])
              (mkReport 0 7 (Some (str "Jane Doe")) (str "Blood Test")
                        MoreExamples.renamedData [] [] Unknown)
              "lab_results"%string Examples.hemoglobin []
              eq_refl) as (H1 & _ & H2).
  - vm_compute. discriminate.
  - reflexivity.
  - reflexivity.
  - reflexivity.
  - vm_compute. tauto.
  - reflexivity.
  - split; assumption.
Defined.

(** *** A reply without text *)

Lemma validHistory_last (h : list ChatMessage) (a : ChatMessage) :
  message a = [] ->
  let h2 := h ++ [a] in
  let h3 := if Nat.ltb 20 (List.length h2) then sliceLast 20 h2 else h2 in
  validHistory h3 = false.
Proof.
  intros Ha. cbv zeta.
  destruct (ChatClaims.truncation_keeps_last h a) as [_ Hlast].
  cbv zeta in Hlast. apply nth_error_In in Hlast.
  apply not_true_iff_false. intros Hvalid.
  pose proof (IntegrityFacts.validHistory_In _ _ Hvalid Hlast) as Ht.
  rewrite Ha in Ht. discriminate.
Qed.

(** X21.  A reply of the chatbot that is empty once trimmed cannot be
    stored, since the chat schema requires a message: the turn is answered
    500 ["Failed to process message"] after the chatbot was called, and the
    database, with the history of the session, is left as it was. *)
Theorem blank_reply_is_not_saved
  (rev : Revision) (w : World) (db : Db) (req : Request) (text : jsstring)
  (s : ChatSession) (report : Report) (reportData : ExtractedData) :
  reqMessage req = VStr text ->
  trim text <> [] ->
  findSession db (reqChatId req) (reqUser req) = Some s ->
  populateReport db (relatedReportID s) = Some report ->
  reportDataFor rev (extractedData report) = Some reportData ->
  _callChatBot
    (botProcess w reportData
       (chatHistory s ++ [chatMessage user (trim text) (userStamp w)]) text)
  = Fulfilled [] ->
  exists error,
    sendMessage rev w db req
    = (db, failureWith 500 "Failed to process message" error, [BotCalled]).
Proof.
  intros Hm Htext Hs Hr Hd Hbot. unfold sendMessage. rewrite Hm.
  destruct text as [|c text]; [contradiction Htext; reflexivity|].
  destruct (Nat.eqb (List.length (trim (c :: text))) 0) eqn:E.
  { apply Nat.eqb_eq, length_zero_iff_nil in E. contradiction. }
  rewrite Hs, Hr, Hd, Hbot. cbv zeta.
  rewrite (@validHistory_last
             (chatHistory s
              ++ [chatMessage user (trim (c :: text)) (userStamp w)])
             (chatMessage assistant [] (botStamp w)) eq_refl).
  eexists. reflexivity.
Qed.

Lemma blank_reply_witness :
  let db := fst (postStart Legacy (Examples.dbWithReport [])
                           Examples.startRequest 5000) in
  exists error,
    sendMessage Legacy MoreExamples.silentWorld db Examples.question
    = (db, failureWith 500 "Failed to process message" error, [BotCalled]).
Proof.
  cbv zeta.
  apply (@blank_reply_is_not_saved Legacy MoreExamples.silentWorld _
           Examples.question (str "What does my hemoglobin mean?")
           (mkChatSession 2 7 0 [])
           (mkReport 0 7 (Some (str "Jane Doe")) (str "Blood Test")
                     Examples.labData (str "Low hemoglobin.") [] High)
           Examples.labData eq_refl).
  - vm_compute. discriminate.
  - reflexivity.
  - reflexivity.
  - reflexivity.
  - reflexivity.
Defined.

(** *** The recommendations of the introduction *)

(** X22.  Every item that [_normalizeRecommendations] returns is
    non-empty and has no white space at either end; when the recommendations
    are a string, no item contains a line feed, a bullet or a hyphen, the
    three characters the text is cut at: a hyphenated word is cut in
    two. *)
Theorem normalized_recommendations
  (arg : RecommendationsArg) (item : jsstring) :
  In item (_normalizeRecommendations arg) ->
  item <> []
  /\ trim item = item
  /\ forall text,
       arg = ArgValue (VStr text) ->
       Forall (fun c => c <> 10%N /\ c <> 8226%N /\ c <> 45%N) item.
Proof.
  intros Hin.
  assert (Hshape : truthy item = true
                   /\ exists piece,
                        item = trim piece
                        /\ forall text,
                             arg = ArgValue (VStr text) ->
                             In piece (splitOn isRecommendationSeparator text)).
  { unfold _normalizeRecommendations in Hin.
    destruct arg as [items|[| | | |text|]]; try destruct Hin.
    - apply filter_In in Hin as [Hin Ht]. split; [exact Ht|].
      apply in_map_iff in Hin as (v & <- & _).
      destruct v as [| | | |piece|];
        try (exists []; split; [reflexivity | discriminate]).
      exists piece. split; [reflexivity | discriminate].
    - apply filter_In in Hin as [Hin Ht]. split; [exact Ht|].
      apply in_map_iff in Hin as (piece & <- & Hpiece).
      exists piece. split; [reflexivity|].
      intros text0 E. injection E as <-. exact Hpiece. }
  destruct Hshape as (Ht & piece & -> & Hpiece).
  split; [apply truthy_nonempty, Ht|].
  split; [apply trim_idempotent|].
  intros text E. apply trim_Forall.
  pose proof (splitOn_pieces isRecommendationSeparator text) as Hall.
  rewrite Forall_forall in Hall. specialize (Hall piece (Hpiece text E)).
  eapply Forall_impl; [|exact Hall].
  intros c Hc. unfold isRecommendationSeparator in Hc.
  apply orb_false_elim in Hc as [Hc H3].
  apply orb_false_elim in Hc as [H1 H2].
  apply N.eqb_neq in H1, H2, H3. auto.
Qed.

Lemma normalized_recommendations_witness :
  In (str "up in 4 weeks")
     (_normalizeRecommendations (ArgValue (VStr MoreExamples.advice)))
  /\ trim (str "up in 4 weeks") = str "up in 4 weeks".
Proof.
  assert (H : In (str "up in 4 weeks")
                 (_normalizeRecommendations
                    (ArgValue (VStr MoreExamples.advice))))
    by (vm_compute; tauto).
  split; [exact H|].
  exact (proj1 (proj2 (@normalized_recommendations _ _ H))).
Defined.

(** *** Reading what the chatbot prints *)

(** X24.  What the chatbot prints and what the controller reads agree:
    when the process ends with code 0 and its output is some log text
    without a marker, then [BOT_RESPONSE:] and the reply, with no second
    marker and no [ERROR:] anywhere, the controller returns the reply
    trimmed, all of its lines included. *)
Theorem chatbot_reply_round_trip (exit : ProcessExit) (logs reply : jsstring) :
  exitCode exit = 0%Z ->
  stdout exit = logs ++ str "BOT_RESPONSE:" ++ reply ->
  includes (stdout exit) (str "ERROR:") = false ->
  includes logs (str "BOT_RESPONSE:") = false ->
  includes reply (str "BOT_RESPONSE:") = false ->
  _callChatBot exit = Fulfilled (trim reply).
Proof.
  intros Hcode Hout Herr Hlogs Hreply. unfold _callChatBot.
  rewrite Hcode, Herr. cbn [Z.eqb negb].
  replace (includes (stdout exit) (str "BOT_RESPONSE:")) with true
    by (symmetry; apply includes_spec; exists logs, reply; exact Hout).
  rewrite Hout. unfold split. rewrite split_go_first.
  - rewrite split_go_whole by exact Hreply. reflexivity.
  - discriminate.
  - intros u v E Hv.
    apply (@no_straddling_marker (str "BOT_RESPONSE") 58%N logs u v reply);
      try assumption.
    vm_compute. intros H. decompose [or] H; try discriminate; contradiction.
Qed.

Lemma chatbot_reply_round_trip_witness :
  _callChatBot
    (mkProcessExit 0
       (str "DEBUG: 1 tests" ++ [10%N] ++ str "BOT_RESPONSE:"
        ++ str "Your hemoglobin is low." ++ [10%N] ++ str "Eat more iron."
        ++ [10%N]) [])
  = Fulfilled (str "Your hemoglobin is low." ++ [10%N] ++ str "Eat more iron.").
Proof.
  exact (@chatbot_reply_round_trip
           (mkProcessExit 0
              (str "DEBUG: 1 tests" ++ [10%N] ++ str "BOT_RESPONSE:"
               ++ str "Your hemoglobin is low." ++ [10%N]
               ++ str "Eat more iron." ++ [10%N]) [])
           (str "DEBUG: 1 tests" ++ [10%N])
           (str "Your hemoglobin is low." ++ [10%N] ++ str "Eat more iron."
            ++ [10%N])
           eq_refl eq_refl eq_refl eq_refl eq_refl).
Defined.

(** *** The initials of the avatar *)

Lemma join_nil (parts : list jsstring) : join [] parts = concat parts.
Proof.
  induction parts as [|p [|q parts] IH]; simpl in *;
    [reflexivity | rewrite app_nil_r; reflexivity |].
  rewrite IH. reflexivity.
Qed.

Lemma splitOn_go_head (isSep : N -> bool) (cur s : jsstring) :
  exists piece more, splitOn_go isSep cur s = (rev cur ++ piece) :: more.
Proof.
  revert cur. induction s as [|c s IH]; intros cur; simpl.
  - exists [], []. rewrite app_nil_r. reflexivity.
  - destruct (isSep c).
    + exists [], (splitOn_go isSep [] s). rewrite app_nil_r. reflexivity.
    + destruct (IH (c :: cur)) as (piece & more & ->).
      exists (c :: piece), more. simpl. rewrite <- app_assoc. reflexivity.
Qed.

Lemma splitOn_go_visible (isSep : N -> bool) (cur s : jsstring) (c : N) :
  isSep c = false ->
  splitOn_go isSep cur (c :: s) = splitOn_go isSep (c :: cur) s.
Proof. intros H. simpl. rewrite H. reflexivity. Qed.

Lemma splitOn_go_empty (isSep : N -> bool) (cur s : jsstring) :
  Forall (fun p => p = []) (splitOn_go isSep cur s)
  <-> cur = [] /\ Forall (fun c => isSep c = true) s.
Proof.
  revert cur. induction s as [|c s IH]; intros cur; simpl.
  - split.
    + intros H. inversion H as [|? ? Hrev _]; subst.
      split; [|constructor].
      apply (f_equal (@rev N)) in Hrev. rewrite rev_involutive in Hrev.
      exact Hrev.
    + intros [-> _]. repeat constructor.
  - destruct (isSep c) eqn:E.
    + split.
      * intros H. inversion H as [|? ? Hrev Hrest]; subst.
        apply IH in Hrest as [_ Hrest].
        split; [|constructor; assumption].
        apply (f_equal (@rev N)) in Hrev. rewrite rev_involutive in Hrev.
        exact Hrev.
      * intros [-> H]. inversion H; subst. constructor; [reflexivity|].
        apply IH. auto.
    + rewrite IH. split.
      * intros [H _]. discriminate H.
      * intros [_ H]. inversion H; subst. congruence.
Qed.

Lemma concat_firstUnit_nil (pieces : list jsstring) :
  concat (List.map Pages.firstUnit pieces) = []
  <-> Forall (fun p => p = []) pieces.
Proof.
  induction pieces as [|p pieces IH]; simpl.
  - split; [constructor | reflexivity].
  - split.
    + intros H. apply app_eq_nil in H as [H1 H2].
      constructor; [|apply IH, H2].
      destruct p; [reflexivity | discriminate].
    + intros H. inversion H; subst. simpl. apply IH. assumption.
Qed.

(** X23.  The avatar shows at most two initials, taken from the user
    name, else from the e-mail address, else from ["LM"]: the first code
    unit of each word between single spaces, before the case mapping.  They
    never contain a space; they start with the first character of the name
    when that is not a space; and they are empty exactly when the name is
    made of spaces only, for which there is no fallback. *)
Theorem initials_of_the_avatar (username email : option jsstring) :
  let name := Pages.displayedName username email in
  name <> []
  /\ List.length (Pages.initialUnits name) <= 2
  /\ ~ In 32%N (Pages.initialUnits name)
  /\ (Pages.initialUnits name = [] <-> Forall (fun c => c = 32%N) name)
  /\ (forall c rest,
        name = c :: rest -> c <> 32%N ->
        exists more, Pages.initialUnits name = c :: more)
  /\ forall toUpperCase,
       Pages.initials toUpperCase username email
       = toUpperCase (Pages.initialUnits name).
Proof.
  cbv zeta. set (name := Pages.displayedName username email).
  assert (Hsplit : split (str " ") name = splitOn (N.eqb 32) name)
    by apply split_unit.
  unfold Pages.initialUnits. rewrite Hsplit, join_nil.
  repeat match goal with |- _ /\ _ => split end.
  - unfold name, Pages.displayedName.
    destruct username as [[|? ?]|]; try discriminate;
      destruct email as [[|? ?]|]; try discriminate;
      intros H; vm_compute in H; discriminate H.
  - apply firstn_le_length.
  - intros Hin.
    assert (Hin2 : In 32%N
                      (concat (List.map Pages.firstUnit
                                        (splitOn (N.eqb 32) name)))).
    { rewrite <- (firstn_skipn 2). apply in_or_app. left. exact Hin. }
    apply in_concat in Hin2 as (unit & Hunit & Hc).
    apply in_map_iff in Hunit as (piece & <- & Hpiece).
    pose proof (splitOn_pieces (N.eqb 32) name) as Hall.
    rewrite Forall_forall in Hall. specialize (Hall piece Hpiece).
    rewrite Forall_forall in Hall.
    assert (Hc2 : In 32%N piece).
    { unfold Pages.firstUnit in Hc. rewrite <- (firstn_skipn 1 piece).
      apply in_or_app. left. exact Hc. }
    specialize (Hall 32%N Hc2). discriminate.
  - split.
    + intros H.
      assert (Hnil : concat (List.map Pages.firstUnit
                                      (splitOn (N.eqb 32) name)) = []).
      { destruct (concat _) as [|a [|b l]]; [reflexivity | | ]; discriminate. }
      apply concat_firstUnit_nil in Hnil.
      apply splitOn_go_empty in Hnil as [_ Hnil].
      eapply Forall_impl; [|exact Hnil].
      intros c Hc. apply N.eqb_eq in Hc. congruence.
    + intros H.
      assert (Hnil : concat (List.map Pages.firstUnit
                                      (splitOn (N.eqb 32) name)) = []).
      { apply concat_firstUnit_nil. apply splitOn_go_empty.
        split; [reflexivity|].
        eapply Forall_impl; [|exact H].
        intros c ->. reflexivity. }
      rewrite Hnil. reflexivity.
  - intros c rest E Hc. rewrite E. unfold splitOn.
    rewrite splitOn_go_visible by (apply N.eqb_neq; congruence).
    destruct (splitOn_go_head (N.eqb 32) [c] rest) as (piece & more & ->).
    cbn [rev app List.map concat Pages.firstUnit firstn].
    eexists. reflexivity.
  - intros toUpperCase. unfold Pages.initials, Pages.initialUnits.
    fold name. rewrite Hsplit, join_nil. reflexivity.
Qed.

End ChatMore.


(* ================================================================== *)
(** ** Filed documents and their owner buckets *)
(* ================================================================== *)

Module FilingFacts.

Import Js Model Task ExtractionController VaultController VaultOverview.
Import Chatbot Requests Integrity Grouping Filing.
Import JsFacts JsMore VaultFacts PipelineFacts PipelineMore IntegrityFacts.
Import IntegrityClaims VaultMore.

(** *** The names that are stored *)

Lemma StoredNames_vaults (db db' : Db) :
  vaults db' = vaults db -> StoredNames db -> StoredNames db'.
Proof. unfold StoredNames. intros ->. auto. Qed.

(** The entry that [updateUserVault] files carries the name it was given,
    trimmed. *)
Lemma StoredNames_updateUserVault (db db2 : Db) (u : Id) (now : Z)
  (f : UploadedFile) (rid : Id) (name : option jsstring) :
  StoredNames db ->
  updateUserVault db u now f rid name = Fulfilled db2 ->
  StoredNames db2.
Proof.
  intros Hdb. unfold updateUserVault.
  destruct (truthy (trim (originalname f)) && truthy (trim (path f)));
    [|discriminate].
  intros H. injection H as <-.
  set (entry := mkVaultFile (nextId db) (trim (originalname f)) now
                            (str "application/pdf") (size f) (trim (path f))
                            (str "processed") (Some rid)
                            (option_map trim name)).
  assert (Hentry : StoredName entry).
  { intros n Hn. simpl in Hn. destruct name as [given|]; [|discriminate].
    simpl in Hn. injection Hn as <-. apply trim_idempotent. }
  intros v f0 Hv Hf0. simpl in Hv.
  destruct (findVault u (vaults db)) as [v0|] eqn:Hfind.
  - apply saveVault_In in Hv as [->|Hv]; [|exact (Hdb v f0 Hv Hf0)].
    simpl in Hf0. apply in_app_or in Hf0 as [Hf0|[<-|[]]]; [|exact Hentry].
    apply findVault_found in Hfind as [Hin _]. exact (Hdb v0 f0 Hin Hf0).
  - apply in_app_or in Hv as [Hv|[<-|[]]]; [exact (Hdb v f0 Hv Hf0)|].
    simpl in Hf0. destruct Hf0 as [<-|[]]. exact Hentry.
Qed.

Lemma StoredNames_handle (rev : Revision) (db : Db) (a : Action) :
  StoredNames db -> StoredNames (handle rev db a).
Proof.
  intros Hdb. destruct a as [w req|userId id|req now|w req|req]; simpl.
  - unfold uploadReport.
    destruct (file req) as [f|]; [|exact Hdb].
    destruct (AgentService.processComplete w (path f)) as [tr [result|e]];
      [|exact Hdb].
    destruct (Report_create _ _ _ _ _ _ _ _) as [[db1 report]|e] eqn:HC;
      [|exact Hdb].
    apply Report_create_ok in HC as (_ & Hv & _).
    assert (Hdb1 : StoredNames db1) by (eapply StoredNames_vaults; eassumption).
    destruct (updateUserVault _ _ _ _ _ _) as [db2|e] eqn:HU; [|exact Hdb1].
    cbn [fst]. eapply StoredNames_updateUserVault; eassumption.
  - unfold deleteReport. destruct (find _ _); exact Hdb.
  - unfold postStart. destruct (validateStartChat req); [exact Hdb|].
    unfold startChat.
    destruct (reqReportId req) as [rid|]; [|exact Hdb].
    destruct (findReport db rid (reqUser req)); [|exact Hdb].
    destruct (findSessionFor db (reqUser req) rid); [exact Hdb|].
    destruct (validHistory _); exact Hdb.
  - destruct (postMessage_cases rev w db req)
      as [->|(s & text & reply & _ & _ & _ & H)]; [exact Hdb|].
    cbv zeta in H. destruct H as [_ ->]. exact Hdb.
  - unfold deleteChat. destruct (findSession _ _ _); exact Hdb.
Qed.

(** In every database that the backend can reach, the file entries carry
    trimmed names. *)
Lemma reachable_StoredNames (rev : Revision) (db : Db) :
  System.Reachable rev db -> StoredNames db.
Proof.
  induction 1 as [|db db' _ IH Hstep].
  - intros v f [].
  - apply step_handle in Hstep as (a & ->). apply StoredNames_handle, IH.
Qed.

Lemma vaultFilesOf_StoredName (rev : Revision) (db : Db) (userId : Id)
  (f : VaultFile) :
  System.Reachable rev db -> In f (vaultFilesOf db userId) -> StoredName f.
Proof.
  intros Hreach Hin. unfold vaultFilesOf in Hin.
  destruct (findVault userId (vaults db)) as [v|] eqn:Hfind; [|destruct Hin].
  apply findVault_found in Hfind as [Hv _].
  exact (@reachable_StoredNames rev db Hreach v f Hv Hin).
Qed.

(** *** From the grouping to the overview *)

(** The overview of a user with a file shows the buckets of the grouping of
    the files of that user. *)
Lemma overview_buckets (toLowerCase : jsstring -> jsstring) (db : Db)
  (userId : Id) (f : VaultFile) (bucket : PatientVault) :
  In f (vaultFilesOf db userId) ->
  In bucket (groupFilesByPatient toLowerCase (vaultFilesOf db userId)) ->
  In bucket (patientVaults (getVaultOverview toLowerCase db userId)).
Proof.
  unfold vaultFilesOf, getVaultOverview.
  destruct (findVault userId (vaults db)) as [v|]; [|intros []].
  intros Hf Hbucket.
  destruct (Nat.eqb (List.length (files v)) 0) eqn:E.
  - apply Nat.eqb_eq, length_zero_iff_nil in E. rewrite E in Hf. destruct Hf.
  - simpl. eapply Permutation.Permutation_in; [|exact Hbucket].
    apply Permutation.Permutation_sym, sortByUpdateDesc_permutation.
Qed.

(** *** The key of a stored name *)

Section WithCaseMapping.

Variable toLowerCase : jsstring -> jsstring.

Hypothesis keeps : KeepsEmptiness toLowerCase.

Lemma displayName_named (f : VaultFile) (n : jsstring) :
  filePatientName f = Some n -> n <> [] -> displayName f = n.
Proof.
  intros Hn Hne. unfold displayName, orElse. rewrite Hn.
  apply truthy_nonempty in Hne. rewrite Hne. reflexivity.
Qed.

(** Stored names that agree up to letter case and surrounding white space
    have the same key. *)
Lemma same_owner_same_key (f1 f2 : VaultFile) (n1 n2 : jsstring) :
  StoredName f1 -> StoredName f2 ->
  filePatientName f1 = Some n1 -> filePatientName f2 = Some n2 ->
  SameOwner toLowerCase n1 n2 ->
  bucketKey toLowerCase f1 = bucketKey toLowerCase f2.
Proof.
  intros H1 H2 Hn1 Hn2 Hsame. unfold SameOwner in Hsame.
  rewrite (H1 n1 Hn1), (H2 n2 Hn2) in Hsame.
  destruct n1 as [|c1 n1].
  - assert (E : n2 = []).
    { apply keeps. rewrite <- Hsame. apply keeps. reflexivity. }
    subst n2. apply nameless_same_key; right; assumption.
  - destruct n2 as [|c2 n2].
    + assert (E : c1 :: n1 = []).
      { apply keeps. rewrite Hsame. apply keeps. reflexivity. }
      discriminate E.
    + unfold bucketKey.
      rewrite (displayName_named f1 Hn1), (displayName_named f2 Hn2)
        by discriminate.
      rewrite Hsame. reflexivity.
Qed.

End WithCaseMapping.

(** The Basic Latin case mapping keeps the length of a string. *)
Lemma toLowerCaseBasicLatin_keeps : KeepsEmptiness toLowerCaseBasicLatin.
Proof.
  intros s. unfold toLowerCaseBasicLatin. split.
  - apply map_eq_nil.
  - intros ->. reflexivity.
Qed.

(** Uploads lead from a database that can be reached to one that can. *)
Lemma reachable_uploads (rev : Revision) (names : list (option string))
  (db : Db) :
  System.Reachable rev db ->
  System.Reachable rev (FilingExamples.uploads names db).
Proof.
  revert db. induction names as [|name names IH]; intros db H; [exact H|].
  apply IH.
  apply (reachable_handle
           (Upload (FilingExamples.worldNaming name) Examples.upload)).
  exact H.
Qed.

(** *** The filing step *)

(** An upload that is answered 201 has filed one entry, under the owner name
    that the pipeline resolved, trimmed. *)
Lemma upload_files_entry (w : AgentService.World) (db db' : Db)
  (req : UploadRequest) (response : Response) (tr : list Event) :
  uploadReport w db req = (db', response, tr) ->
  statusCode response = 201 ->
  exists f result entry,
    file req = Some f
    /\ snd (AgentService.processComplete w (path f)) = Fulfilled result
    /\ vaultFilesOf db' (uploadUser req)
       = vaultFilesOf db (uploadUser req) ++ [entry]
    /\ filePatientName entry
       = option_map trim (AgentService.resultPatientName result).
Proof.
  unfold uploadReport.
  destruct (file req) as [f|];
    [|intros H; injection H as <- <- <-; discriminate].
  destruct (AgentService.processComplete w (path f)) as [tr0 [result|e]] eqn:Hp;
    [|intros H; injection H as <- <- <-; discriminate].
  destruct (Report_create _ _ _ _ _ _ _ _) as [[db1 report]|e] eqn:HC;
    [|intros H; injection H as <- <- <-; discriminate].
  destruct (updateUserVault _ _ _ _ _ _) as [db2|e] eqn:HU;
    [|intros H; injection H as <- <- <-; discriminate].
  intros H _. injection H as <- <- <-.
  apply updateUserVault_effect in HU as (Hown & _).
  cbv zeta in Hown.
  apply Report_create_ok in HC as (_ & Hv & _).
  exists f, result. eexists.
  split; [reflexivity|]. split; [rewrite Hp; reflexivity|].
  split.
  - unfold vaultFilesOf in Hown |- *. rewrite Hv in Hown. exact Hown.
  - reflexivity.
Qed.

(** Whether the vault update goes through does not depend on the owner
    name. *)
Lemma updateUserVault_any_name (db : Db) (u : Id) (now : Z)
  (f : UploadedFile) (rid : Id) (name : option jsstring) :
  isFulfilled (updateUserVault db u now f rid name)
  = isFulfilled (updateUserVault db u now f rid None).
Proof.
  unfold updateUserVault.
  destruct (truthy (trim (originalname f)) && truthy (trim (path f)));
    reflexivity.
Qed.

(** *** The owner bucket of a filed document *)



End FilingFacts.


(* ================================================================== *)
(** ** The risk level of a record in the documented format *)
(* ================================================================== *)

Module FormatFacts.

Import Js Model ExtractionController Chatbot Policy DocumentedFormat.

(** C1.  On a record in the documented format the code departs from the
    policy.  The record has one test entry, under [test_results], and the
    entry is flagged: [_extractTests] of the chat controller finds it, it
    counts as out of range, and the policy gives [High] for one abnormal
    entry out of one.  Yet [determineRiskLevel] reads the [tests] array
    only: the upload is answered 201 and the Report it persists has the
    risk level [Unknown]. *)
Theorem documented_record_is_rated_unknown :
  let '(db', response, _) :=
    uploadReport documentedWorld System.emptyDb Examples.upload in
  statusCode response = 201
  /\ (exists report,
        reports db' = [report]
        /\ extractedData report = documentedData
        /\ riskLevel report = Unknown)
  /\ determineRiskLevel documentedData = Unknown
  /\ _extractTests documentedData = [flaggedEntry]
  /\ isOutOfRange flaggedEntry = true
  /\ riskPolicy 1 1 = High.
Proof.
  vm_compute. repeat split. eexists. repeat split.
Qed.

End FormatFacts.
